(** * vibe-code: configuration merge, mode switch and staleness check

    A shallow embedding of the configuration core of the vibe-code CLI
    (types/index.ts, core/config-manager.ts, core/mode-manager.ts, the
    commands start, mode, init and config with their actions in the CLI
    entry point, and the version comparison of
    core/claude-integration.ts), and the properties its specification
    states about it.

    Conventions of the embedding:
    - a TypeScript optional field [f?: T | undefined] is an [option T];
    - a value of static type [unknown] (what JSON.parse returns, what a
      Zod schema receives) is a [value];
    - an [async] function is a state transformer over the [World] (the
      file system as the process sees it) whose outcome is either a
      returned value or a thrown exception (a rejected promise);
    - the [Result<T>] of the sources is the two-variant type [Result]. *)

From Stdlib Require Import ZArith NArith Ascii String List Lia Bool.
From stdpp Require Import base option gmap strings list.

Open Scope string_scope.
Set Warnings "-register-all".

(** ** JavaScript values and the Zod combinators the schemas use *)

(** Runtime values, as far as configuration objects need them.  An object
    is the list of its own properties in insertion order; a property
    whose value is [VUndef] counts as absent for Zod and for
    JSON.stringify. *)
Inductive value : Type :=
| VUndef
| VNull
| VBool (b : bool)
| VNum (n : Z)
| VStr (s : string)
| VArr (items : list value)
| VObj (props : list (string * value)).

(** [obj[key]] on an object given by its property list. *)
Fixpoint getProp (key : string) (props : list (string * value)) : value :=
  match props with
  | [] => VUndef
  | (k, v) :: rest => if String.eqb k key then v else getProp key rest
  end.

(** The characters a string literal here cannot hold. *)
Definition dquote : string := String (ascii_of_nat 34) EmptyString.
Definition newline : string := String (ascii_of_nat 10) EmptyString.

(** [a ?? b] where [b] is itself possibly undefined. *)
Definition nullishOpt {A : Type} (a b : option A) : option A :=
  match a with
  | Some x => Some x
  | None => b
  end.

(** [a ?? b] where [b] is a defined value. *)
Definition nullish {A : Type} (a : option A) (b : A) : A :=
  match a with
  | Some x => x
  | None => b
  end.

Notation "a ?? b" := (nullish a b) (at level 45, left associativity).
Notation "a ??? b" := (nullishOpt a b) (at level 44, left associativity).

(** [schema.optional()]: undefined passes through as undefined. *)
Definition zOptional {A : Type} (inner : value -> option A) (v : value)
  : option (option A) :=
  match v with
  | VUndef => Some None
  | _ => match inner v with
         | Some a => Some (Some a)
         | None => None
         end
  end.

(** [schema.default(d)]: undefined is replaced by [d]. *)
Definition zDefault {A : Type} (inner : value -> option A) (d : A) (v : value)
  : option A :=
  match v with
  | VUndef => Some d
  | _ => inner v
  end.

(** [z.string()]. *)
Definition zString (v : value) : option string :=
  match v with
  | VStr s => Some s
  | _ => None
  end.

(** The element-wise part of [z.array(inner)]. *)
Fixpoint zItems {A : Type} (inner : value -> option A) (items : list value)
  : option (list A) :=
  match items with
  | [] => Some []
  | v :: rest =>
      match inner v, zItems inner rest with
      | Some a, Some l => Some (a :: l)
      | _, _ => None
      end
  end.

(** [z.array(inner)]. *)
Definition zArray {A : Type} (inner : value -> option A) (v : value)
  : option (list A) :=
  match v with
  | VArr items => zItems inner items
  | _ => None
  end.

(** ** types/index.ts *)

Inductive Mode : Type := learning | guided | expert.

Inductive ChecklistType : Type :=
| ck_pre | ck_post | ck_owasp | ck_api | ck_full | ck_none.

Inductive StandardType : Type := std_typescript | std_api.

#[global] Instance Mode_eq_dec : EqDecision Mode.
Proof. solve_decision. Defined.
#[global] Instance ChecklistType_eq_dec : EqDecision ChecklistType.
Proof. solve_decision. Defined.
#[global] Instance StandardType_eq_dec : EqDecision StandardType.
Proof. solve_decision. Defined.

Definition modeName (m : Mode) : string :=
  match m with
  | learning => "learning"
  | guided => "guided"
  | expert => "expert"
  end.

Definition checklistName (c : ChecklistType) : string :=
  match c with
  | ck_pre => "pre"
  | ck_post => "post"
  | ck_owasp => "owasp"
  | ck_api => "api"
  | ck_full => "full"
  | ck_none => "none"
  end.

Definition standardName (s : StandardType) : string :=
  match s with
  | std_typescript => "typescript"
  | std_api => "api"
  end.

(** [z.enum([...])] over the names of a closed enumeration. *)
Definition zEnum {A : Type} (name : A -> string) (all : list A) (v : value)
  : option A :=
  match v with
  | VStr s => List.find (fun a => String.eqb (name a) s) all
  | _ => None
  end.

Definition ModeSchema : value -> option Mode :=
  zEnum modeName [learning; guided; expert].

Definition ChecklistTypeSchema : value -> option ChecklistType :=
  zEnum checklistName [ck_pre; ck_post; ck_owasp; ck_api; ck_full; ck_none].

Definition StandardTypeSchema : value -> option StandardType :=
  zEnum standardName [std_typescript; std_api].

Module GlobalConfig.
Record t : Type := mk {
  defaultMode : Mode;
  editor : option string;
  claudeCodePath : option string;
  includeSecurityChecklist : option ChecklistType;
  includeStandards : option (list StandardType)
}.
End GlobalConfig.

Module ProjectConfig.
Record t : Type := mk {
  mode : option Mode;
  projectName : option string;
  template : option string;
  customPrompts : option (list string);
  includeSecurityChecklist : option ChecklistType;
  includeStandards : option (list StandardType)
}.

(** The object literal [{}]. *)
Definition empty : t := mk None None None None None None.

(** [{ ...existing, mode: m }]. *)
Definition withMode (existing : t) (m : Mode) : t :=
  mk (Some m) (projectName existing) (template existing)
     (customPrompts existing) (includeSecurityChecklist existing)
     (includeStandards existing).
End ProjectConfig.

Module MergedConfig.
Record t : Type := mk {
  mode : Mode;
  editor : option string;
  claudeCodePath : option string;
  projectName : option string;
  template : option string;
  customPrompts : list string;
  includeSecurityChecklist : ChecklistType;
  includeStandards : list StandardType
}.
End MergedConfig.

(** [DEFAULT_CONFIG]. *)
Definition DEFAULT_CONFIG : MergedConfig.t :=
  MergedConfig.mk guided None None None None [] ck_pre [std_typescript].

(** *** The runtime objects of the typed records *)

Definition optValue {A : Type} (f : A -> value) (o : option A) : value :=
  match o with
  | Some a => f a
  | None => VUndef
  end.

Definition modeValue (m : Mode) : value := VStr (modeName m).
Definition checklistValue (c : ChecklistType) : value := VStr (checklistName c).
Definition standardsValue (l : list StandardType) : value :=
  VArr (List.map (fun s => VStr (standardName s)) l).
Definition stringsValue (l : list string) : value := VArr (List.map VStr l).

Definition globalValue (g : GlobalConfig.t) : value :=
  VObj [ ("defaultMode", modeValue (GlobalConfig.defaultMode g));
         ("editor", optValue VStr (GlobalConfig.editor g));
         ("claudeCodePath", optValue VStr (GlobalConfig.claudeCodePath g));
         ("includeSecurityChecklist",
            optValue checklistValue (GlobalConfig.includeSecurityChecklist g));
         ("includeStandards",
            optValue standardsValue (GlobalConfig.includeStandards g)) ].

Definition projectValue (p : ProjectConfig.t) : value :=
  VObj [ ("mode", optValue modeValue (ProjectConfig.mode p));
         ("projectName", optValue VStr (ProjectConfig.projectName p));
         ("template", optValue VStr (ProjectConfig.template p));
         ("customPrompts", optValue stringsValue (ProjectConfig.customPrompts p));
         ("includeSecurityChecklist",
            optValue checklistValue (ProjectConfig.includeSecurityChecklist p));
         ("includeStandards",
            optValue standardsValue (ProjectConfig.includeStandards p)) ].

Definition mergedValue (c : MergedConfig.t) : value :=
  VObj [ ("mode", modeValue (MergedConfig.mode c));
         ("editor", optValue VStr (MergedConfig.editor c));
         ("claudeCodePath", optValue VStr (MergedConfig.claudeCodePath c));
         ("projectName", optValue VStr (MergedConfig.projectName c));
         ("template", optValue VStr (MergedConfig.template c));
         ("customPrompts", stringsValue (MergedConfig.customPrompts c));
         ("includeSecurityChecklist",
            checklistValue (MergedConfig.includeSecurityChecklist c));
         ("includeStandards",
            standardsValue (MergedConfig.includeStandards c)) ].

(** *** The object schemas *)

(** [GlobalConfigSchema.parse]: [None] stands for the thrown ZodError.
    Unknown keys are stripped, defaults are filled in. *)
Definition GlobalConfigSchema (v : value) : option GlobalConfig.t :=
  match v with
  | VObj props =>
      match zDefault ModeSchema guided (getProp "defaultMode" props),
            zOptional zString (getProp "editor" props),
            zOptional zString (getProp "claudeCodePath" props),
            zDefault ChecklistTypeSchema ck_pre
                     (getProp "includeSecurityChecklist" props),
            zDefault (zArray StandardTypeSchema) [std_typescript]
                     (getProp "includeStandards" props)
      with
      | Some dm, Some ed, Some cp, Some cl, Some st =>
          Some (GlobalConfig.mk dm ed cp (Some cl) (Some st))
      | _, _, _, _, _ => None
      end
  | _ => None
  end.

(** [ProjectConfigSchema.parse]: every field optional, unknown keys
    stripped. *)
Definition ProjectConfigSchema (v : value) : option ProjectConfig.t :=
  match v with
  | VObj props =>
      match zOptional ModeSchema (getProp "mode" props),
            zOptional zString (getProp "projectName" props),
            zOptional zString (getProp "template" props),
            zOptional (zArray zString) (getProp "customPrompts" props),
            zOptional ChecklistTypeSchema
                      (getProp "includeSecurityChecklist" props),
            zOptional (zArray StandardTypeSchema)
                      (getProp "includeStandards" props)
      with
      | Some m, Some pn, Some tp, Some cp, Some cl, Some st =>
          Some (ProjectConfig.mk m pn tp cp cl st)
      | _, _, _, _, _, _ => None
      end
  | _ => None
  end.

(** ** core/config-manager.ts: the pure merge *)

Definition mergeConfigs (global : GlobalConfig.t) (project : option ProjectConfig.t)
  : MergedConfig.t :=
  {| MergedConfig.mode :=
       (project ≫= ProjectConfig.mode) ?? GlobalConfig.defaultMode global;
     MergedConfig.editor := GlobalConfig.editor global;
     MergedConfig.claudeCodePath := GlobalConfig.claudeCodePath global;
     MergedConfig.projectName := project ≫= ProjectConfig.projectName;
     MergedConfig.template := project ≫= ProjectConfig.template;
     MergedConfig.customPrompts :=
       (project ≫= ProjectConfig.customPrompts)
         ?? MergedConfig.customPrompts DEFAULT_CONFIG;
     MergedConfig.includeSecurityChecklist :=
       (project ≫= ProjectConfig.includeSecurityChecklist)
         ??? GlobalConfig.includeSecurityChecklist global
         ?? MergedConfig.includeSecurityChecklist DEFAULT_CONFIG;
     MergedConfig.includeStandards :=
       (project ≫= ProjectConfig.includeStandards)
         ??? GlobalConfig.includeStandards global
         ?? MergedConfig.includeStandards DEFAULT_CONFIG |}.

(** ** Results, errors and effects *)

(** An [Error] object, identified by its message.  The messages the
    libraries produce are kept symbolic. *)
Inductive Error : Type :=
| Err (message : string)          (* new Error("...") with a literal of the sources *)
| FileNotFound (path : string)    (* new Error(`File not found: ${path}`) *)
| ZodError                        (* the message of a failed schema.parse *)
| SyntaxError                     (* the message of a failed JSON.parse *)
| Errno (code path : string).     (* the message of a rejected fs call *)

(** [Result<T>]: success with data, or failure with an error. *)
Inductive Result (T : Type) : Type :=
| Success (data : T)
| Failure (error : Error).
Arguments Success {T} data.
Arguments Failure {T} error.

Definition isSuccess {T : Type} (r : Result T) : bool :=
  match r with
  | Success _ => true
  | Failure _ => false
  end.

(** What a file holds: a text that JSON.parse accepts, given by the value
    it parses to, or any other text. *)
Inductive Content : Type :=
| Json (v : value)
| Text (s : string).

Record File : Type := mkFile {
  content : Content;
  mtime : Z
}.

(** The part of the machine the commands touch: the home directory and
    the working directory of the process, and the files.  [denied] are
    the paths that cannot be reached (access, stat and readFile are
    rejected), [unreadable] those that can be reached but not read
    (readFile is rejected), [readonly] the files that may not be written
    (writeFile is rejected) and the missing directories that may not be
    made (mkdir is rejected).  [dirs] are the directories that exist.  [clock] is a
    logical clock: a write stamps the file and advances it.  [journal]
    lists the files written, latest first. *)
Record World : Type := mkWorld {
  homedir : string;
  cwd : string;
  files : gmap string File;
  dirs : gset string;
  denied : gset string;
  unreadable : gset string;
  readonly : gset string;
  clock : Z;
  journal : list string
}.

(** The outcome of awaiting an async call: the value the promise resolves
    to, or the exception it rejects with. *)
Inductive Outcome (A : Type) : Type :=
| Returned (a : A)
| Thrown (e : Error).
Arguments Returned {A} a.
Arguments Thrown {A} e.

Definition IO (A : Type) : Type := World -> Outcome A * World.

Definition ret {A : Type} (a : A) : IO A := fun w => (Returned a, w).

Definition throw {A : Type} (e : Error) : IO A := fun w => (Thrown e, w).

Definition bind {A B : Type} (c : IO A) (k : A -> IO B) : IO B :=
  fun w =>
    match c w with
    | (Returned a, w') => k a w'
    | (Thrown e, w') => (Thrown e, w')
    end.

(** [try { body } catch (error) { handler }]. *)
Definition tryCatch {A : Type} (body : IO A) (handler : Error -> IO A) : IO A :=
  fun w =>
    match body w with
    | (Returned a, w') => (Returned a, w')
    | (Thrown e, w') => handler e w'
    end.

Notation "'do' x <- c ; k" := (bind c (fun x => k))
  (at level 10, x name, c at level 100, k at level 200,
   format "'[v' 'do'  x  <-  c ; '/' k ']'").

(** *** fs/promises and path *)

Definition accessible (w : World) (path : string) : bool :=
  bool_decide (path ∉ denied w) && bool_decide (is_Some (files w !! path)).

(** [access(path)] *)
Definition access (path : string) : IO unit :=
  fun w =>
    if accessible w path then (Returned tt, w)
    else (Thrown (Errno "ENOENT" path), w).

(** [readFile(path, "utf-8")] *)
Definition readFile (path : string) : IO Content :=
  fun w =>
    match files w !! path with
    | Some f =>
        if bool_decide (path ∈ denied w) || bool_decide (path ∈ unreadable w)
        then (Thrown (Errno "EACCES" path), w)
        else (Returned (content f), w)
    | None => (Thrown (Errno "ENOENT" path), w)
    end.

(** [(await stat(path)).mtime], in milliseconds. *)
Definition stat (path : string) : IO Z :=
  fun w =>
    match files w !! path with
    | Some f =>
        if bool_decide (path ∈ denied w) then (Thrown (Errno "EACCES" path), w)
        else (Returned (mtime f), w)
    | None => (Thrown (Errno "ENOENT" path), w)
    end.

(** The directories on the way to [rest] below [seen], [seen ++ rest]
    itself included: every prefix that ends before a "/" (the empty one,
    which names the root, apart) and the whole path. *)
Fixpoint dirsOnPath (seen rest : string) : list string :=
  match rest with
  | EmptyString => [seen]
  | String c rest' =>
      (if Ascii.eqb c "/" && negb (String.eqb seen "") then [seen] else [])
      ++ dirsOnPath (seen ++ String c EmptyString) rest'
  end.

(** The world after a successful [mkdir(dir, { recursive: true })]: the
    directory and the directories above it exist; no file is touched. *)
Definition madeDir (w : World) (dir : string) : World :=
  {| homedir := homedir w;
     cwd := cwd w;
     files := files w;
     dirs := list_to_set (dirsOnPath "" dir) ∪ dirs w;
     denied := denied w;
     unreadable := unreadable w;
     readonly := readonly w;
     clock := clock w;
     journal := journal w |}.

(** [mkdir(dir, { recursive: true })]: rejected on the empty path; no
    error on a directory that exists; rejected where the directory is
    missing and may not be made; else the directory and the missing ones
    above it are made. *)
Definition mkdir (dir : string) : IO unit :=
  fun w =>
    if String.eqb dir "" then (Thrown (Errno "ENOENT" dir), w)
    else if bool_decide (dir ∈ dirs w) then (Returned tt, madeDir w dir)
    else if bool_decide (dir ∈ readonly w) then (Thrown (Errno "EACCES" dir), w)
    else (Returned tt, madeDir w dir).

(** [writeFile(path, content, "utf-8")] *)
Definition writeFile (path : string) (c : Content) : IO unit :=
  fun w =>
    if bool_decide (path ∈ readonly w) then (Thrown (Errno "EACCES" path), w)
    else (Returned tt,
          {| homedir := homedir w;
             cwd := cwd w;
             files := <[path := mkFile c (clock w)]> (files w);
             dirs := dirs w;
             denied := denied w;
             unreadable := unreadable w;
             readonly := readonly w;
             clock := (clock w + 1)%Z;
             journal := path :: journal w |}).

(** [path.join(a, b)] on normalised segments.  Paths are only ever
    compared for equality, so the normalisation of path.join and
    path.resolve is left out: project roots are taken as path.resolve
    returns them. *)
Definition join (a b : string) : string := a ++ "/" ++ b.

Definition resolve (p : string) : string := p.

(** [s.lastIndexOf("/")], [None] for -1. *)
Fixpoint lastIndexOfSlash (s : string) : option nat :=
  match s with
  | EmptyString => None
  | String c rest =>
      match lastIndexOfSlash rest with
      | Some i => Some (S i)
      | None => if Ascii.eqb c "/" then Some 0 else None
      end
  end.

(** [path.substring(0, path.lastIndexOf("/"))]; substring clamps -1 to 0. *)
Definition parentDir (path : string) : string :=
  match lastIndexOfSlash path with
  | Some i => String.substring 0 i path
  | None => ""
  end.

(** What [JSON.parse(JSON.stringify(v, null, 2) + "\n")] gives back:
    undefined properties are dropped, undefined array items become null. *)
Fixpoint jsonRoundTrip (v : value) : value :=
  match v with
  | VArr items =>
      VArr (List.map (fun x => match x with
                               | VUndef => VNull
                               | _ => jsonRoundTrip x
                               end) items)
  | VObj props =>
      VObj (List.flat_map (fun kv : string * value =>
                             let (k, x) := kv in
                             match x with
                             | VUndef => []
                             | _ => [(k, jsonRoundTrip x)]
                             end) props)
  | _ => v
  end.

(** The text [JSON.stringify(data, null, 2) + "\n"] as file content. *)
Definition stringify (data : value) : Content :=
  match data with
  | VUndef => Text ("undefined" ++ newline)
  | _ => Json (jsonRoundTrip data)
  end.

(** [JSON.parse(content)] *)
Definition JSON_parse (c : Content) : IO value :=
  match c with
  | Json v => ret v
  | Text _ => throw SyntaxError
  end.

(** [schema.parse(data)] *)
Definition parse {T : Type} (schema : value -> option T) (data : value) : IO T :=
  match schema data with
  | Some t => ret t
  | None => throw ZodError
  end.

(** [ExitCode] *)
Module ExitCode.
Definition SUCCESS : Z := 0.
Definition GENERAL_ERROR : Z := 1.
Definition INVALID_ARGUMENT : Z := 2.
Definition CONFIG_ERROR : Z := 3.
Definition NOT_FOUND : Z := 4.
Definition PERMISSION_DENIED : Z := 5.
End ExitCode.

(** ** core/config-manager.ts: the config store *)

Definition VIBE_DIR : string := ".vibe".
Definition CONFIG_FILE : string := "config.json".

(** [homedir()] is read from the environment. *)
Definition getGlobalConfigDir (w : World) : string := join (homedir w) VIBE_DIR.

Definition getGlobalConfigPath (w : World) : string :=
  join (getGlobalConfigDir w) CONFIG_FILE.

Definition getProjectConfigDir (projectRoot : string) : string :=
  let resolved := resolve projectRoot in
  join resolved VIBE_DIR.

Definition getProjectConfigPath (projectRoot : string) : string :=
  join (getProjectConfigDir projectRoot) CONFIG_FILE.

Definition fileExists (path : string) : IO bool :=
  tryCatch (do _ <- access path; ret true) (fun _ => ret false).

(** The handler rebuilds the error from the caught message, which leaves
    an [Error] as it is. *)
Definition readJsonFile {T : Type} (path : string) (schema : value -> option T)
  : IO (Result T) :=
  tryCatch
    (do exists_ <- fileExists path;
     if negb exists_ then ret (Failure (FileNotFound path))
     else
       (do content <- readFile path;
        do json <- JSON_parse content;
        do validated <- parse schema json;
        ret (Success validated)))
    (fun error => ret (Failure error)).

Definition writeJsonFile (path : string) (data : value) : IO (Result unit) :=
  tryCatch
    (let dir := parentDir path in
     do _ <- mkdir dir;
     let content := stringify data in
     do _ <- writeFile path content;
     ret (Success tt))
    (fun error => ret (Failure error)).

Definition readGlobalConfig : IO (Result GlobalConfig.t) :=
  fun w =>
    let path := getGlobalConfigPath w in
    (do exists_ <- fileExists path;
     if negb exists_ then
       let defaultGlobal :=
         {| GlobalConfig.defaultMode := MergedConfig.mode DEFAULT_CONFIG;
            GlobalConfig.editor := None;
            GlobalConfig.claudeCodePath := None;
            GlobalConfig.includeSecurityChecklist :=
              Some (MergedConfig.includeSecurityChecklist DEFAULT_CONFIG);
            GlobalConfig.includeStandards :=
              Some (MergedConfig.includeStandards DEFAULT_CONFIG) |} in
       ret (Success defaultGlobal)
     else readJsonFile path GlobalConfigSchema) w.

(** The argument is what the caller hands over at run time; its static
    type [GlobalConfig] is what the schema is there to check. *)
Definition writeGlobalConfig (config : value) : IO (Result unit) :=
  fun w =>
    (do validated <- parse GlobalConfigSchema config;
     writeJsonFile (getGlobalConfigPath w) (globalValue validated)) w.

Definition readProjectConfig (projectRoot : string)
  : IO (Result (option ProjectConfig.t)) :=
  let path := getProjectConfigPath projectRoot in
  do exists_ <- fileExists path;
  if negb exists_ then ret (Success None)
  else
    (do result <- readJsonFile path ProjectConfigSchema;
     match result with
     | Failure e => ret (Failure e)
     | Success data => ret (Success (Some data))
     end).

Definition writeProjectConfig (projectRoot : string) (config : value)
  : IO (Result unit) :=
  do validated <- parse ProjectConfigSchema config;
  writeJsonFile (getProjectConfigPath projectRoot) (projectValue validated).

Definition isProjectInitialized (projectRoot : string) : IO bool :=
  let configPath := getProjectConfigPath projectRoot in
  fileExists configPath.

Definition loadConfig (projectRoot : string) : IO (Result MergedConfig.t) :=
  do globalResult <- readGlobalConfig;
  match globalResult with
  | Failure e => ret (Failure e)
  | Success globalData =>
      do projectResult <- readProjectConfig projectRoot;
      match projectResult with
      | Failure e => ret (Failure e)
      | Success projectData =>
          let merged := mergeConfigs globalData projectData in
          ret (Success merged)
      end
  end.

Definition updateMode (projectRoot : string) (mode : Mode) : IO (Result unit) :=
  do existingResult <- readProjectConfig projectRoot;
  match existingResult with
  | Failure e => ret (Failure e)
  | Success data =>
      let config := ProjectConfig.withMode (data ?? ProjectConfig.empty) mode in
      writeProjectConfig projectRoot (projectValue config)
  end.

(** ** core/mode-manager.ts, commands/start.ts, commands/mode.ts *)

Record SwitchResult : Type := mkSwitchResult {
  previousMode : Mode;
  newMode : Mode;
  claudeMdPath : string
}.

Record StartOptions : Type := mkStartOptions {
  opt_mode : option Mode;
  opt_claudePath : option string;
  opt_regenerate : option bool
}.

(** A synchronous function that may call [process.exit]. *)
Inductive Exit (A : Type) : Type :=
| Continue (a : A)
| Exited (code : Z).
Arguments Continue {A} a.
Arguments Exited {A} code.

Definition notInitialized : Error :=
  Err "Project not initialized. Run 'vibe init' first.".

Definition AVAILABLE_MODES : list Mode := [learning; guided; expert].

Definition parseMode (v : string) : Result Mode :=
  match ModeSchema (VStr v) with
  | Some data => Success data
  | None =>
      Failure (Err ("Invalid mode: " ++ dquote ++ v ++ dquote
                    ++ ". Valid modes: "
                    ++ String.concat ", " (List.map modeName AVAILABLE_MODES)))
  end.

Definition validateModeOption (modeStr : option string) : Exit (option Mode) :=
  match modeStr with
  | None => Continue None
  | Some s =>
      match ModeSchema (VStr s) with
      | None => Exited ExitCode.INVALID_ARGUMENT
      | Some data => Continue (Some data)
      end
  end.

Section Collaborators.

(** The Markdown text the prompt builder assembles for a configuration. *)
Variable render : MergedConfig.t -> string.

(** [runClaudeCode({ claudePath, cwd })] of core/claude-launcher.ts. *)
Variable runClaudeCode : option string -> string -> IO (Result Z).

(** Modelled from the spec: core/prompt-builder.ts is not among the
    sources.  The derived document is the file CLAUDE.md under the
    project root. *)
Definition getClaudeMdPath (projectRoot : string) : string :=
  join (resolve projectRoot) "CLAUDE.md".

(** Modelled from the spec: core/prompt-builder.ts is not among the
    sources.  The builder fully overwrites the derived document with the
    text for the given configuration and gives back its path, or a
    failure carrying the message of what went wrong. *)
Definition buildClaudeMd (config : MergedConfig.t) (projectRoot : string)
  : IO (Result string) :=
  let path := getClaudeMdPath projectRoot in
  tryCatch
    (do _ <- writeFile path (Text (render config));
     ret (Success path))
    (fun error => ret (Failure error)).

Definition getCurrentMode (projectRoot : string) : IO (Result Mode) :=
  do initialized <- isProjectInitialized projectRoot;
  if negb initialized then ret (Failure notInitialized)
  else
    (do configResult <- loadConfig projectRoot;
     match configResult with
     | Failure e => ret (Failure e)
     | Success data => ret (Success (MergedConfig.mode data))
     end).

Definition switchMode (projectRoot : string) (newMode : Mode)
  : IO (Result SwitchResult) :=
  do initialized <- isProjectInitialized projectRoot;
  if negb initialized then ret (Failure notInitialized)
  else
    (do configResult <- loadConfig projectRoot;
     match configResult with
     | Failure e => ret (Failure e)
     | Success configData =>
         let previousMode := MergedConfig.mode configData in
         do projectConfigResult <- readProjectConfig projectRoot;
         match projectConfigResult with
         | Failure e => ret (Failure e)
         | Success projectData =>
             let updatedConfig :=
               ProjectConfig.withMode (projectData ?? ProjectConfig.empty)
                                      newMode in
             do writeResult <-
                  writeProjectConfig projectRoot (projectValue updatedConfig);
             match writeResult with
             | Failure e => ret (Failure e)
             | Success _ =>
                 do newConfigResult <- loadConfig projectRoot;
                 match newConfigResult with
                 | Failure e => ret (Failure e)
                 | Success newConfigData =>
                     do buildResult <- buildClaudeMd newConfigData projectRoot;
                     match buildResult with
                     | Failure e => ret (Failure e)
                     | Success path =>
                         ret (Success (mkSwitchResult previousMode newMode path))
                     end
                 end
             end
         end
     end).

(** Lines 160-175 of switchMode on their own: read the raw project
    config, spread it under the new mode, write it back. *)
Definition switchMode_update (projectRoot : string) (newMode : Mode)
  : IO (Result unit) :=
  do projectConfigResult <- readProjectConfig projectRoot;
  match projectConfigResult with
  | Failure e => ret (Failure e)
  | Success projectData =>
      let updatedConfig :=
        ProjectConfig.withMode (projectData ?? ProjectConfig.empty) newMode in
      do writeResult <-
           writeProjectConfig projectRoot (projectValue updatedConfig);
      match writeResult with
      | Failure e => ret (Failure e)
      | Success _ => ret (Success tt)
      end
  end.

Definition needsRegeneration (projectRoot : string) : IO bool :=
  let configPath := getProjectConfigPath projectRoot in
  let claudeMdPath := getClaudeMdPath projectRoot in
  tryCatch
    (do configStat <- stat configPath;
     do claudeMdStat <- stat claudeMdPath;
     ret (claudeMdStat <? configStat)%Z)
    (fun _ => ret true).

(** A command gives back the code it hands to [process.exit];
    [resolve(".")] is the working directory of the process. *)
Definition startCommand (options : StartOptions) : IO Z :=
  fun w =>
    (let projectRoot := cwd w in
     do initialized <- isProjectInitialized projectRoot;
     if negb initialized then ret ExitCode.CONFIG_ERROR
     else
       let afterModeChange : IO Z :=
         do configResult <- loadConfig projectRoot;
         match configResult with
         | Failure _ => ret ExitCode.CONFIG_ERROR
         | Success config =>
             let launch : IO Z :=
               do launchResult <-
                 runClaudeCode (MergedConfig.claudeCodePath config) projectRoot;
               match launchResult with
               | Failure _ => ret ExitCode.GENERAL_ERROR
               | Success code => ret code
               end in
             do shouldRegenerate <-
               match opt_regenerate options with
               | Some true => ret true
               | _ => needsRegeneration projectRoot
               end;
             if shouldRegenerate : bool then
               (do buildResult <- buildClaudeMd config projectRoot;
                match buildResult with
                | Failure _ => ret ExitCode.GENERAL_ERROR
                | Success _ => launch
                end)
             else launch
         end in
       match opt_mode options with
       | Some m =>
           do switchResult <- switchMode projectRoot m;
           match switchResult with
           | Failure _ => ret ExitCode.CONFIG_ERROR
           | Success _ => afterModeChange
           end
       | None => afterModeChange
       end) w.

Definition showCurrentMode (projectRoot : string) : IO (Exit unit) :=
  do modeResult <- getCurrentMode projectRoot;
  match modeResult with
  | Failure _ => ret (Exited ExitCode.CONFIG_ERROR)
  | Success _ => ret (Continue tt)
  end.

Definition changeMode (projectRoot : string) (newModeStr : string) : IO Z :=
  match parseMode newModeStr with
  | Failure _ => ret ExitCode.INVALID_ARGUMENT
  | Success newMode =>
      do switchResult <- switchMode projectRoot newMode;
      match switchResult with
      | Failure _ => ret ExitCode.CONFIG_ERROR
      | Success _ => ret ExitCode.SUCCESS
      end
  end.

Definition modeCommand (newMode : option string) : IO Z :=
  fun w =>
    (let projectRoot := cwd w in
     do initialized <- isProjectInitialized projectRoot;
     if negb initialized then ret ExitCode.CONFIG_ERROR
     else
       match newMode with
       | None | Some "" =>
           do shown <- showCurrentMode projectRoot;
           match shown with
           | Exited code => ret code
           | Continue _ => ret ExitCode.SUCCESS
           end
       | Some m => changeMode projectRoot m
       end) w.

End Collaborators.

(** ** core/claude-integration.ts: version comparison *)

Record Version : Type := mkVersion {
  major : N;
  minor : N;
  patch : N
}.

(** The class [\d]. *)
Definition isDigit (c : ascii) : bool :=
  let n := N_of_ascii c in
  ((48 <=? n) && (n <=? 57))%N.

(** The longest run of digits a string starts with, and what follows it:
    how a greedy [\d+] splits its input. *)
Fixpoint spanDigits (s : string) : string * string :=
  match s with
  | String c rest =>
      if isDigit c then
        let (ds, tl) := spanDigits rest in (String c ds, tl)
      else (EmptyString, s)
  | EmptyString => (EmptyString, EmptyString)
  end.

(** The mathematical integer a run of digits denotes in base ten, with
    the digits read so far as accumulator. *)
Fixpoint mathIntFrom (acc : N) (digits : string) : N :=
  match digits with
  | String c rest => mathIntFrom (acc * 10 + (N_of_ascii c - 48))%N rest
  | EmptyString => acc
  end.

Definition mathInt (digits : string) : N := mathIntFrom 0 digits.

(** A JavaScript number that holds a non-negative integer is kept as that
    integer; [INFINITY], which no finite double reaches, stands for
    [Infinity].  The order and the equality of such numbers are those of
    their integers. *)
Definition INFINITY : N := 2 ^ 1024.

(** From this bound on, not every integer is a double. *)
Definition MAX_SAFE : N := 2 ^ 53.

(** The Number value for a non-negative integer: the integer itself
    below 2^53, else the nearest double (53 significant bits, ties to
    the even significand), and [Infinity] beyond the largest double.
    ECMAScript lets parseInt replace the digits after the twentieth by
    zeros before it rounds; that latitude is not taken here. *)
Definition toNumber (n : N) : N :=
  if (n <? MAX_SAFE)%N then n
  else
    let e := (N.log2 n - 52)%N in
    let q := N.shiftr n e in
    let r := N.land n (N.ones e) in
    let half := N.shiftl 1 (e - 1) in
    let q' := if (half <? r)%N || ((r =? half)%N && N.odd q)
              then (q + 1)%N else q in
    N.min (N.shiftl q' e) INFINITY.

(** [parseInt(digits, 10)] on a run of digits: the Number value for the
    integer the digits denote. *)
Definition parseInt (digits : string) : N := toNumber (mathInt digits).

(** [(\d+)\.] at the head of a string: the digits and what follows the dot. *)
Definition digitsThenDot (s : string) : option (string * string) :=
  match spanDigits s with
  | (EmptyString, _) => None
  | (ds, String c rest) => if Ascii.eqb c "." then Some (ds, rest) else None
  | (_, EmptyString) => None
  end.

(** [version.match(/^v?(\d+)\.(\d+)\.(\d+)/)] and the conversion of the
    three groups.  A group matched by [\d+] is never empty, so the checks
    [!match[1]], [!match[2]], [!match[3]] never fire. *)
Definition parseVersion (version : string) : option Version :=
  let body := match version with
              | String c rest => if Ascii.eqb c "v" then rest else version
              | EmptyString => version
              end in
  match digitsThenDot body with
  | None => None
  | Some (m1, afterMajor) =>
      match digitsThenDot afterMajor with
      | None => None
      | Some (m2, afterMinor) =>
          match spanDigits afterMinor with
          | (EmptyString, _) => None
          | (m3, _) =>
              Some {| major := parseInt m1;
                      minor := parseInt m2;
                      patch := parseInt m3 |}
          end
      end
  end.

Definition compareVersions (a b : string) : Z :=
  let vA := parseVersion a in
  let vB := parseVersion b in
  match vA, vB with
  | Some vA, Some vB =>
      if negb (major vA =? major vB)%N then
        (if (major vB <? major vA)%N then 1 else -1)%Z
      else if negb (minor vA =? minor vB)%N then
        (if (minor vB <? minor vA)%N then 1 else -1)%Z
      else if negb (patch vA =? patch vB)%N then
        (if (patch vB <? patch vA)%N then 1 else -1)%Z
      else 0%Z
  | _, _ => 0%Z
  end.

(** ** What the specification's words denote *)

(** The lexicographic order on (major, minor, patch). *)
Definition lexCompare (a b : Version) : comparison :=
  match (major a ?= major b)%N with
  | Eq => match (minor a ?= minor b)%N with
          | Eq => (patch a ?= patch b)%N
          | c => c
          end
  | c => c
  end.

(** A string made of digits only. *)
Fixpoint allDigits (s : string) : bool :=
  match s with
  | String c rest => isDigit c && allDigits rest
  | EmptyString => true
  end.

Definition startsWithDigit (s : string) : bool :=
  match s with
  | String c _ => isDigit c
  | EmptyString => false
  end.

(** A string of the shape [major.minor.patch], optionally prefixed with
    "v", followed by anything that does not lengthen the patch number;
    [v] holds the three integers as they are written. *)
Definition semverShape (s : string) (v : Version) : Prop :=
  exists pre d1 d2 d3 rest : string,
    (pre = "" \/ pre = "v")
    /\ s = pre ++ d1 ++ "." ++ d2 ++ "." ++ d3 ++ rest
    /\ d1 <> "" /\ allDigits d1 = true
    /\ d2 <> "" /\ allDigits d2 = true
    /\ d3 <> "" /\ allDigits d3 = true
    /\ startsWithDigit rest = false
    /\ v = mkVersion (mathInt d1) (mathInt d2) (mathInt d3).

(** The three written integers as the JavaScript numbers parseInt makes
    of them. *)
Definition asNumbers (v : Version) : Version :=
  mkVersion (toNumber (major v)) (toNumber (minor v)) (toNumber (patch v)).

(** Every component is small enough to be a double as it stands. *)
Definition safeVersion (v : Version) : Prop :=
  (major v < MAX_SAFE /\ minor v < MAX_SAFE /\ patch v < MAX_SAFE)%N.

Definition signOf (c : comparison) : Z :=
  match c with
  | Lt => (-1)%Z
  | Eq => 0%Z
  | Gt => 1%Z
  end.

(** No required field of a MergedConfig object is undefined. *)
Definition requiredResolved (v : value) : bool :=
  match v with
  | VObj props =>
      forallb (fun key => match getProp key props with
                          | VUndef | VNull => false
                          | _ => true
                          end)
              ["mode"; "customPrompts"; "includeSecurityChecklist";
               "includeStandards"]
  | _ => false
  end.


(** ** Read-only views of the store

    What the reading functions give back in a world, as plain functions
    of that world; the lemmas below show the reading functions return
    exactly these and leave the world as it is. *)

Definition jsonAt {T : Type} (w : World) (path : string)
    (schema : value -> option T) : Result T :=
  if accessible w path then
    match files w !! path with
    | Some f =>
        if bool_decide (path ∈ unreadable w) then Failure (Errno "EACCES" path)
        else
          match content f with
          | Json v =>
              match schema v with
              | Some t => Success t
              | None => Failure ZodError
              end
          | Text _ => Failure SyntaxError
          end
    | None => Failure (Errno "ENOENT" path)
    end
  else Failure (FileNotFound path).

Definition globalAt (w : World) : Result GlobalConfig.t :=
  if accessible w (getGlobalConfigPath w) then
    jsonAt w (getGlobalConfigPath w) GlobalConfigSchema
  else Success (GlobalConfig.mk guided None None (Some ck_pre)
                                (Some [std_typescript])).

Definition projectAt (w : World) (projectRoot : string)
  : Result (option ProjectConfig.t) :=
  if accessible w (getProjectConfigPath projectRoot) then
    match jsonAt w (getProjectConfigPath projectRoot) ProjectConfigSchema with
    | Success p => Success (Some p)
    | Failure e => Failure e
    end
  else Success None.

Definition mergedAt (w : World) (projectRoot : string) : Result MergedConfig.t :=
  match globalAt w with
  | Failure e => Failure e
  | Success g =>
      match projectAt w projectRoot with
      | Failure e => Failure e
      | Success p => Success (mergeConfigs g p)
      end
  end.

(** The world after a successful [writeFile(path, c)]. *)
Definition written (w : World) (path : string) (c : Content) : World :=
  {| homedir := homedir w;
     cwd := cwd w;
     files := <[path := mkFile c (clock w)]> (files w);
     dirs := dirs w;
     denied := denied w;
     unreadable := unreadable w;
     readonly := readonly w;
     clock := (clock w + 1)%Z;
     journal := path :: journal w |}.

(** The world after a successful [writeJsonFile(path, data)]: the
    directory of the path made, then the file written. *)
Definition saved (w : World) (path : string) (c : Content) : World :=
  written (madeDir w (parentDir path)) path c.

(** ** Sample worlds *)

Module Sample.

Definition root : string := "/work/app".
Definition home : string := "/home/dev".

Definition render (c : MergedConfig.t) : string :=
  "# Mode: " ++ modeName (MergedConfig.mode c).

Definition launcher (claudePath : option string) (cwd : string)
  : IO (Result Z) :=
  ret (Success 0%Z).

(** [{mode: "learning", projectName: "foo", customPrompts: ["x"]}] *)
Definition project : ProjectConfig.t :=
  ProjectConfig.mk (Some learning) (Some "foo") None (Some ["x"]) None None.

Definition projectFile (at_ : Z) : File :=
  mkFile (stringify (projectValue project)) at_.

(** The directories of a machine on which nothing was initialised. *)
Definition baseDirs : gset string :=
  list_to_set (dirsOnPath "" root ++ dirsOnPath "" home).

(** The same with the project's .vibe directory. *)
Definition projectDirs : gset string :=
  {[getProjectConfigDir root]} ∪ baseDirs.

(** Nothing on disk. *)
Definition blank : World :=
  mkWorld home root ∅ baseDirs ∅ ∅ ∅ 100 [].

(** An initialised project, no global config, no derived document. *)
Definition initialized : World :=
  mkWorld home root
          (<[getProjectConfigPath root := projectFile 10]> ∅)
          projectDirs ∅ ∅ ∅ 100 [].

(** As [initialized], with a global config file that is not JSON. *)
Definition brokenGlobal : World :=
  mkWorld home root
          (<[getGlobalConfigPath initialized := mkFile (Text "{oops") 5]>
             (files initialized))
          ({[getGlobalConfigDir initialized]} ∪ projectDirs) ∅ ∅ ∅ 100 [].

(** As [initialized], with a project config that is not JSON. *)
Definition brokenProject : World :=
  mkWorld home root
          (<[getProjectConfigPath root := mkFile (Text "{oops") 10]> ∅)
          projectDirs ∅ ∅ ∅ 100 [].

(** As [initialized], with a project config file that may not be
    written. *)
Definition configReadonly : World :=
  mkWorld home root (files initialized) projectDirs
          ∅ ∅ {[getProjectConfigPath root]} 100 [].

(** As [initialized], with a derived document that may not be written. *)
Definition documentReadonly : World :=
  mkWorld home root (files initialized) projectDirs
          ∅ ∅ {[getClaudeMdPath root]} 100 [].

(** The derived document is older than the project config. *)
Definition stale : World :=
  mkWorld home root
          (<[getClaudeMdPath root := mkFile (Text "# old") 5]>
             (files initialized))
          projectDirs ∅ ∅ ∅ 100 [].

(** The derived document is newer than the project config. *)
Definition fresh : World :=
  mkWorld home root
          (<[getClaudeMdPath root := mkFile (Text "# new") 15]>
             (files initialized))
          projectDirs ∅ ∅ ∅ 100 [].

(** As [fresh], with a derived document that may not be inspected. *)
Definition documentDenied : World :=
  mkWorld home root (files fresh) projectDirs
          {[getClaudeMdPath root]} ∅ ∅ 100 [].

(** Nothing on disk; the global config file may not be written, and its
    directory has yet to be made. *)
Definition globalReadonly : World :=
  mkWorld home root ∅ baseDirs ∅ ∅ {[getGlobalConfigPath blank]} 100 [].

End Sample.

Module SampleOptions.
Definition plain : StartOptions := mkStartOptions None None None.
Definition regenerate : StartOptions := mkStartOptions None None (Some true).
Definition toGuided : StartOptions := mkStartOptions (Some guided) None None.
End SampleOptions.


(** ** More of core/config-manager.ts *)

Definition initProject (projectRoot : string) (options : option ProjectConfig.t)
  : IO (Result ProjectConfig.t) :=
  let config :=
    {| ProjectConfig.mode :=
         Some ((options ≫= ProjectConfig.mode) ?? MergedConfig.mode DEFAULT_CONFIG);
       ProjectConfig.projectName := options ≫= ProjectConfig.projectName;
       ProjectConfig.template := options ≫= ProjectConfig.template;
       ProjectConfig.customPrompts :=
         Some ((options ≫= ProjectConfig.customPrompts) ?? []);
       ProjectConfig.includeSecurityChecklist :=
         Some ((options ≫= ProjectConfig.includeSecurityChecklist)
                 ?? MergedConfig.includeSecurityChecklist DEFAULT_CONFIG);
       ProjectConfig.includeStandards :=
         Some ((options ≫= ProjectConfig.includeStandards)
                 ?? MergedConfig.includeStandards DEFAULT_CONFIG) |} in
  do result <- writeProjectConfig projectRoot (projectValue config);
  match result with
  | Failure e => ret (Failure e)
  | Success _ => ret (Success config)
  end.

(** The getCurrentMode of config-manager.ts; mode-manager.ts has its own. *)
Module ConfigManager.
Definition getCurrentMode (projectRoot : string) : IO Mode :=
  do configResult <- loadConfig projectRoot;
  match configResult with
  | Failure _ => ret (MergedConfig.mode DEFAULT_CONFIG)
  | Success data => ret (MergedConfig.mode data)
  end.
End ConfigManager.

(** ** More of core/mode-manager.ts *)

Definition isValidMode (v : value) : bool :=
  match ModeSchema v with
  | Some _ => true
  | None => false
  end.

Record SuggestContext : Type := mkSuggestContext {
  isNewToSecurity : option bool;
  needsReview : option bool;
  wantsSpeed : option bool
}.

(** [flag === true] on an optional boolean. *)
Definition isTrue (flag : option bool) : bool :=
  match flag with
  | Some true => true
  | _ => false
  end.

Definition suggestMode (context : SuggestContext) : Mode :=
  if isTrue (isNewToSecurity context) then learning
  else if isTrue (needsReview context) then guided
  else if isTrue (wantsSpeed context) then expert
  else guided.

(** ** More of core/claude-integration.ts *)

Definition MIN_CLAUDE_VERSION : string := "1.0.0".
Definition RECOMMENDED_CLAUDE_VERSION : string := "1.5.0".

(** [/v?(\d+\.\d+\.\d+)/] tried at the head of a string, without the
    optional "v": group 1 when it matches. *)
Definition versionHere (s : string) : option string :=
  match digitsThenDot s with
  | None => None
  | Some (d1, afterMajor) =>
      match digitsThenDot afterMajor with
      | None => None
      | Some (d2, afterMinor) =>
          match spanDigits afterMinor with
          | (EmptyString, _) => None
          | (d3, _) => Some (d1 ++ "." ++ d2 ++ "." ++ d3)
          end
      end
  end.

(** The pattern tried at the head of a string: with the "v" consumed
    first, then without it. *)
Definition versionAtHead (s : string) : option string :=
  match s with
  | String c rest =>
      if Ascii.eqb c "v" then
        match versionHere rest with
        | Some v => Some v
        | None => versionHere s
        end
      else versionHere s
  | EmptyString => versionHere s
  end.

(** [data.match(/v?(\d+\.\d+\.\d+)/)] and its group 1: the leftmost
    position at which the pattern matches decides. *)
Fixpoint versionFromOutput (data : string) : option string :=
  match versionAtHead data with
  | Some v => Some v
  | None =>
      match data with
      | String _ rest => versionFromOutput rest
      | EmptyString => None
      end
  end.

(** getClaudeVersion, given what [execCommand(path, ["--version"])]
    resolved to. *)
Definition getClaudeVersion (result : Result string) : option string :=
  match result with
  | Failure _ => None
  | Success data => versionFromOutput data
  end.

(** [version ? compareVersions(version, minimum) >= 0 : false] of
    getClaudeInstallInfo; the empty string is falsy. *)
Definition versionAtLeast (minimum : string) (version : option string) : bool :=
  match version with
  | None => false
  | Some EmptyString => false
  | Some v => (0 <=? compareVersions v minimum)%Z
  end.

Definition isCompatible (version : option string) : bool :=
  versionAtLeast MIN_CLAUDE_VERSION version.

Definition isRecommended (version : option string) : bool :=
  versionAtLeast RECOMMENDED_CLAUDE_VERSION version.

Inductive CheckStatus : Type := status_pass | status_warn | status_fail.

(** The status of the "Version Compatibility" check of runDiagnostics. *)
Definition versionCheckStatus (version : option string) : CheckStatus :=
  if isCompatible version then
    if isRecommended version then status_pass else status_warn
  else status_fail.

(** [compareVersions(latest, info.version) > 0] of checkForUpdates. *)
Definition updateAvailable (latest current : string) : bool :=
  (0 <? compareVersions latest current)%Z.

(** ** Auxiliary notions for the statements *)

(** The last character of a string. *)
Fixpoint lastAscii (s : string) : option ascii :=
  match s with
  | EmptyString => None
  | String c EmptyString => Some c
  | String _ rest => lastAscii rest
  end.

(** A string without "/". *)
Fixpoint noSlash (s : string) : bool :=
  match s with
  | EmptyString => true
  | String c rest => negb (Ascii.eqb c "/") && noSlash rest
  end.

(** The keys of the project config schema. *)
Definition projectKeys : list string :=
  ["mode"; "projectName"; "template"; "customPrompts";
   "includeSecurityChecklist"; "includeStandards"].

(** What readGlobalConfig makes of a global config whose optional
    checklist and standards are absent: the schema defaults. *)
Definition withGlobalDefaults (g : GlobalConfig.t) : GlobalConfig.t :=
  GlobalConfig.mk (GlobalConfig.defaultMode g) (GlobalConfig.editor g)
                  (GlobalConfig.claudeCodePath g)
                  (Some (GlobalConfig.includeSecurityChecklist g ?? ck_pre))
                  (Some (GlobalConfig.includeStandards g ?? [std_typescript])).

(** A project config file with a key the schema does not know. *)
Definition withStrayKey : World :=
  mkWorld Sample.home Sample.root
          (<[getProjectConfigPath Sample.root :=
               mkFile (Json (VObj [("mode", VStr "learning");
                                   ("owner", VStr "dana")])) 10]> ∅)
          Sample.projectDirs ∅ ∅ ∅ 100 [].

(** A project in the home directory: its config file is the global
    config file, here holding global settings. *)
Definition projectAtHome : World :=
  mkWorld Sample.home Sample.home
          (<[getGlobalConfigPath Sample.blank :=
               mkFile (Json (VObj [("defaultMode", VStr "expert");
                                   ("editor", VStr "vim")])) 10]> ∅)
          ({[getGlobalConfigDir Sample.blank]} ∪ Sample.baseDirs) ∅ ∅ ∅ 100 [].

(** ** commands/config.ts *)

Definition VALID_KEYS_global : list string :=
  ["defaultMode"; "editor"; "claudeCodePath"; "includeSecurityChecklist";
   "includeStandards"].

Definition VALID_KEYS_project : list string :=
  ["mode"; "projectName"; "includeSecurityChecklist"; "includeStandards"].

(** [keys.includes(key)] *)
Definition includes (keys : list string) (key : string) : bool :=
  existsb (String.eqb key) keys.

(** [value.split(",")] *)
Fixpoint splitComma (s : string) : list string :=
  match s with
  | EmptyString => [EmptyString]
  | String c rest =>
      if Ascii.eqb c "," then EmptyString :: splitComma rest
      else
        match splitComma rest with
        | piece :: pieces => String c piece :: pieces
        | [] => [String c EmptyString]
        end
  end.

(** [value.startsWith("[")] *)
Definition startsWithBracket (s : string) : bool :=
  match s with
  | String c _ => Ascii.eqb c "["
  | EmptyString => false
  end.

(** [obj[key] = v] on a property list: an own property is replaced in
    place, a new one is appended. *)
Fixpoint setProp (key : string) (v : value) (props : list (string * value))
  : list (string * value) :=
  match props with
  | [] => [(key, v)]
  | (k, x) :: rest =>
      if String.eqb k key then (k, v) :: rest
      else (k, x) :: setProp key v rest
  end.

(** [{ ...obj, [key]: v }] *)
Definition spreadWith (obj : value) (key : string) (v : value) : value :=
  match obj with
  | VObj props => VObj (setProp key v props)
  | _ => VObj [(key, v)]
  end.

Record ConfigOptions : Type := mkConfigOptions {
  opt_global : option bool
}.

Section ConfigCommand.

(** [String.prototype.trim]. *)
Variable trim : string -> string.

(** [JSON.parse] on a text that starts with "[": the items of the array
    the text denotes, or [None] for the SyntaxError. *)
Variable parseArray : string -> option (list value).

(** The text a template literal makes of a value. *)
Variable display : value -> string.

(** A synchronous function: the value it returns, or what it throws. *)
Definition parseConfigValue (key value_ : string) : Outcome value :=
  if String.eqb key "mode" || String.eqb key "defaultMode" then
    match ModeSchema (VStr value_) with
    | None =>
        Thrown (Err ("Invalid mode: " ++ dquote ++ value_ ++ dquote
                     ++ ". Valid: learning, guided, expert"))
    | Some data => Returned (modeValue data)
    end
  else if String.eqb key "includeSecurityChecklist" then
    match ChecklistTypeSchema (VStr value_) with
    | None =>
        Thrown (Err ("Invalid checklist: " ++ dquote ++ value_ ++ dquote
                     ++ ". Valid: pre, post, owasp, api, full, none"))
    | Some data => Returned (checklistValue data)
    end
  else if String.eqb key "includeStandards" then
    let parsed :=
      if startsWithBracket value_ then
        match parseArray value_ with
        | None => Thrown (Err ("Invalid JSON array: " ++ value_))
        | Some items => Returned items
        end
      else Returned (List.map (fun v => VStr (trim v)) (splitComma value_)) in
    match parsed with
    | Thrown e => Thrown e
    | Returned values =>
        match List.find (fun v => match StandardTypeSchema v with
                                  | None => true
                                  | Some _ => false
                                  end) values with
        | Some v =>
            Thrown (Err ("Invalid standard: " ++ dquote ++ display v ++ dquote
                         ++ ". Valid: typescript, api"))
        | None => Returned (VArr values)
        end
    end
  else Returned (VStr value_).

Definition setConfigValue (projectRoot key value_ : string) (isGlobal : bool)
  : IO (Exit unit) :=
  let validKeys := if isGlobal then VALID_KEYS_global else VALID_KEYS_project in
  if negb (includes validKeys key) then ret (Exited ExitCode.INVALID_ARGUMENT)
  else
    match parseConfigValue key value_ with
    | Thrown _ => ret (Exited ExitCode.INVALID_ARGUMENT)
    | Returned parsedValue =>
        if isGlobal then
          (do result <- readGlobalConfig;
           match result with
           | Failure _ => ret (Exited ExitCode.CONFIG_ERROR)
           | Success data =>
               let updated := spreadWith (globalValue data) key parsedValue in
               do writeResult <- writeGlobalConfig updated;
               match writeResult with
               | Failure _ => ret (Exited ExitCode.CONFIG_ERROR)
               | Success _ => ret (Continue tt)
               end
           end)
        else
          (do initialized <- isProjectInitialized projectRoot;
           if negb initialized then ret (Exited ExitCode.CONFIG_ERROR)
           else
             (do result <- readProjectConfig projectRoot;
              match result with
              | Failure _ => ret (Exited ExitCode.CONFIG_ERROR)
              | Success data =>
                  let updated :=
                    spreadWith (projectValue (data ?? ProjectConfig.empty))
                               key parsedValue in
                  do writeResult <- writeProjectConfig projectRoot updated;
                  match writeResult with
                  | Failure _ => ret (Exited ExitCode.CONFIG_ERROR)
                  | Success _ => ret (Continue tt)
                  end
              end))
    end.

Definition configSetCommand (key value_ : string) (options : ConfigOptions)
  : IO Z :=
  fun w =>
    (let projectRoot := cwd w in
     do outcome <- setConfigValue projectRoot key value_
                     (isTrue (opt_global options));
     match outcome with
     | Exited code => ret code
     | Continue _ => ret ExitCode.SUCCESS
     end) w.

(** [key in config]: own properties and those of the prototype chain. *)
Variable keyIn : string -> value -> bool.

Definition showMergedConfig (projectRoot : string) : IO (Exit unit) :=
  do initialized <- isProjectInitialized projectRoot;
  if negb initialized then
    (do globalResult <- readGlobalConfig;
     match globalResult with
     | Failure _ => ret (Exited ExitCode.CONFIG_ERROR)
     | Success _ => ret (Continue tt)
     end)
  else
    (do configResult <- loadConfig projectRoot;
     match configResult with
     | Failure _ => ret (Exited ExitCode.CONFIG_ERROR)
     | Success _ => ret (Continue tt)
     end).

Definition showGlobalConfig : IO (Exit unit) :=
  do globalResult <- readGlobalConfig;
  match globalResult with
  | Failure _ => ret (Exited ExitCode.CONFIG_ERROR)
  | Success _ => ret (Continue tt)
  end.

Definition getConfigValue (projectRoot key : string) (isGlobal : bool)
  : IO (Exit unit) :=
  do config <-
    (if isGlobal then
       (do result <- readGlobalConfig;
        match result with
        | Failure _ => ret (Exited ExitCode.CONFIG_ERROR)
        | Success data => ret (Continue (globalValue data))
        end)
     else
       (do result <- loadConfig projectRoot;
        match result with
        | Failure _ => ret (Exited ExitCode.CONFIG_ERROR)
        | Success data => ret (Continue (mergedValue data))
        end));
  match config with
  | Exited code => ret (Exited code)
  | Continue config =>
      if negb (keyIn key config) then ret (Exited ExitCode.INVALID_ARGUMENT)
      else ret (Continue tt)
  end.

Definition configCommand (options : ConfigOptions) : IO Z :=
  fun w =>
    (let projectRoot := cwd w in
     do shown <- (if isTrue (opt_global options) then showGlobalConfig
                  else showMergedConfig projectRoot);
     match shown with
     | Exited code => ret code
     | Continue _ => ret ExitCode.SUCCESS
     end) w.

Definition configGetCommand (key : string) (options : ConfigOptions) : IO Z :=
  fun w =>
    (let projectRoot := cwd w in
     do outcome <- getConfigValue projectRoot key (isTrue (opt_global options));
     match outcome with
     | Exited code => ret code
     | Continue _ => ret ExitCode.SUCCESS
     end) w.

End ConfigCommand.

(** ** commands/init.ts and the actions of the CLI entry point *)

Record InitOptions : Type := mkInitOptions {
  init_mode : option Mode;
  init_force : option bool;
  init_yes : option bool
}.

Section InitCommand.

Variable render : MergedConfig.t -> string.
Variable runClaudeCode : option string -> string -> IO (Result Z).

(** The answers given at the prompts of confirmOverwrite, confirmInit
    and promptForMode. *)
Variable confirmOverwrite : bool.
Variable confirmInit : string -> bool.
Variable promptForMode : Mode.

(** The object literal [{ mode }]. *)
Definition onlyMode (mode : Mode) : ProjectConfig.t :=
  ProjectConfig.mk (Some mode) None None None None None.

(** initCommand from "Initialize project" on, once the mode is known. *)
Definition initialise (projectRoot : string) (mode : Mode) : IO Z :=
  do initResult <- initProject projectRoot (Some (onlyMode mode));
  match initResult with
  | Failure _ => ret ExitCode.CONFIG_ERROR
  | Success _ =>
      do configResult <- loadConfig projectRoot;
      match configResult with
      | Failure _ => ret ExitCode.CONFIG_ERROR
      | Success data =>
          do buildResult <- buildClaudeMd render data projectRoot;
          match buildResult with
          | Failure _ => ret ExitCode.GENERAL_ERROR
          | Success _ => ret ExitCode.SUCCESS
          end
      end
  end.

Definition initCommand (options : InitOptions) : IO Z :=
  fun w =>
    (let projectRoot := cwd w in
     do alreadyInitialized <- isProjectInitialized projectRoot;
     let determineMode : IO Z :=
       match init_mode options with
       | Some mode => initialise projectRoot mode
       | None =>
           if isTrue (init_yes options) then initialise projectRoot guided
           else if negb (confirmInit projectRoot) then ret ExitCode.SUCCESS
           else initialise projectRoot promptForMode
       end in
     if alreadyInitialized && negb (isTrue (init_force options)) then
       if isTrue (init_yes options) then ret ExitCode.GENERAL_ERROR
       else if negb confirmOverwrite then ret ExitCode.SUCCESS
       else determineMode
     else determineMode) w.

(** The action of [vibe init]: the mode option is validated before the
    command runs. *)
Definition initAction (modeStr : option string) (force yes : option bool)
  : IO Z :=
  match modeStr with
  | None => initCommand (mkInitOptions None force yes)
  | Some s =>
      match ModeSchema (VStr s) with
      | None => ret ExitCode.INVALID_ARGUMENT
      | Some data => initCommand (mkInitOptions (Some data) force yes)
      end
  end.

(** The action of [vibe start]. *)
Definition startAction (modeStr claudePath : option string)
    (regenerate : option bool) : IO Z :=
  match validateModeOption modeStr with
  | Exited code => ret code
  | Continue mode =>
      startCommand render runClaudeCode
                   (mkStartOptions mode claudePath regenerate)
  end.

End InitCommand.

(** The mode with which initCommand gets to initialise the project, if
    it gets there: not when it stops at an initialised project or at a
    declined confirmation. *)
Definition initialisesWith (confirmOverwrite : bool)
    (confirmInit : string -> bool) (promptForMode : Mode)
    (options : InitOptions) (w : World) : option Mode :=
  let mode :=
    match init_mode options with
    | Some mode => Some mode
    | None =>
        if isTrue (init_yes options) then Some guided
        else if confirmInit (cwd w) then Some promptForMode else None
    end in
  if accessible w (getProjectConfigPath (cwd w))
     && negb (isTrue (init_force options))
  then
    if isTrue (init_yes options) then None
    else if confirmOverwrite then mode else None
  else mode.

(** Stand-ins for the library functions of the config command, for the
    sample runs: no trimming needed, no JSON array given, own properties
    only. *)
Definition sampleTrim (s : string) : string := s.
Definition sampleParseArray (s : string) : option (list value) := None.
Definition sampleKeyIn (key : string) (config : value) : bool :=
  match config with
  | VObj props => existsb (fun kv => String.eqb (fst kv) key) props
  | _ => false
  end.
Definition sampleDisplay (v : value) : string :=
  match v with
  | VStr s => s
  | _ => ""
  end.

(** A string without ",". *)
Fixpoint noComma (s : string) : bool :=
  match s with
  | EmptyString => true
  | String c rest => negb (Ascii.eqb c ",") && noComma rest
  end.

(** Options of sample runs of init and config. *)
Module SampleRuns.
Definition initYes : InitOptions := mkInitOptions None None (Some true).
Definition initForceYes : InitOptions :=
  mkInitOptions None (Some true) (Some true).
Definition projectLevel : ConfigOptions := mkConfigOptions None.
Definition globalLevel : ConfigOptions := mkConfigOptions (Some true).
End SampleRuns.
(** ** Sample inputs *)

Example parseVersion_plain :
  parseVersion "1.2.3" = Some (mkVersion 1 2 3).
Proof. reflexivity. Qed.

Example parseVersion_prefixed :
  parseVersion "v10.0.7-beta" = Some (mkVersion 10 0 7).
Proof. reflexivity. Qed.

Example parseVersion_short : parseVersion "1.2" = None.
Proof. reflexivity. Qed.

Example compareVersions_samples :
  compareVersions "1.2.3" "1.10.0" = (-1)%Z
  /\ compareVersions "v2.0.0" "1.9.9" = 1%Z
  /\ compareVersions "1.2.3" "v1.2.3" = 0%Z
  /\ compareVersions "latest" "9.9.9" = 0%Z.
Proof. repeat split. Qed.

Example parseMode_samples :
  parseMode "learning" = Success learning
  /\ parseMode "guided" = Success guided
  /\ parseMode "expert" = Success expert
  /\ isSuccess (parseMode "Learning") = false
  /\ isSuccess (parseMode "") = false
  /\ isSuccess (parseMode "LEARNING") = false
  /\ isSuccess (parseMode " guided") = false.
Proof. repeat split. Qed.

Example mergeConfigs_project_wins :
  MergedConfig.mode
    (mergeConfigs (GlobalConfig.mk expert None None None None)
                  (Some Sample.project)) = learning
  /\ MergedConfig.mode
       (mergeConfigs (GlobalConfig.mk expert None None None None) None) = expert.
Proof. split; reflexivity. Qed.

Example readGlobalConfig_defaults :
  fst (readGlobalConfig Sample.blank)
  = Returned (Success (GlobalConfig.mk guided None None (Some ck_pre)
                                       (Some [std_typescript]))).
Proof. vm_compute. reflexivity. Qed.

Example readProjectConfig_samples :
  fst (readProjectConfig Sample.root Sample.blank) = Returned (Success None)
  /\ fst (readProjectConfig Sample.root Sample.initialized)
     = Returned (Success (Some Sample.project))
  /\ fst (readProjectConfig Sample.root Sample.brokenProject)
     = Returned (Failure SyntaxError).
Proof. repeat split; vm_compute; reflexivity. Qed.

(** Switching an initialised "learning" project to "guided" and loading
    the configuration again. *)
Example switchMode_then_loadConfig :
  let r := switchMode Sample.render Sample.root guided Sample.initialized in
  fst r = Returned (Success (mkSwitchResult learning guided
                               (getClaudeMdPath Sample.root)))
  /\ (exists c, fst (loadConfig Sample.root (snd r)) = Returned (Success c)
                /\ MergedConfig.mode c = guided).
Proof.
  split; [vm_compute; reflexivity|].
  exists (MergedConfig.mk guided None None (Some "foo") None ["x"]
                          ck_pre [std_typescript]).
  split; vm_compute; reflexivity.
Qed.

(** ** The merge *)

(** C1: mergeConfigs resolves every field by precedence.  The mode is the
    project's when defined, else the global default mode; the checklist
    and the standards are the project's when defined, else the global
    ones, else "pre" and ["typescript"]; editor and claudeCodePath come
    from the global config only, projectName and template from the
    project only; customPrompts is the project's when defined, else
    empty; and the object handed back has every required field of
    MergedConfig defined. *)
Theorem mergeConfigs_precedence (global : GlobalConfig.t)
    (project : option ProjectConfig.t) :
  let merged := mergeConfigs global project in
  let fromProject {A : Type} (field : ProjectConfig.t -> option A) : option A :=
    match project with
    | Some p => field p
    | None => None
    end in
  MergedConfig.mode merged =
    match fromProject ProjectConfig.mode with
    | Some m => m
    | None => GlobalConfig.defaultMode global
    end
  /\ MergedConfig.includeSecurityChecklist merged =
    match fromProject ProjectConfig.includeSecurityChecklist,
          GlobalConfig.includeSecurityChecklist global with
    | Some c, _ => c
    | None, Some c => c
    | None, None => ck_pre
    end
  /\ MergedConfig.includeStandards merged =
    match fromProject ProjectConfig.includeStandards,
          GlobalConfig.includeStandards global with
    | Some l, _ => l
    | None, Some l => l
    | None, None => [std_typescript]
    end
  /\ MergedConfig.editor merged = GlobalConfig.editor global
  /\ MergedConfig.claudeCodePath merged = GlobalConfig.claudeCodePath global
  /\ MergedConfig.projectName merged = fromProject ProjectConfig.projectName
  /\ MergedConfig.template merged = fromProject ProjectConfig.template
  /\ MergedConfig.customPrompts merged =
    match fromProject ProjectConfig.customPrompts with
    | Some l => l
    | None => []
    end
  /\ requiredResolved (mergedValue merged) = true.
Proof.
  destruct global as [dm ed cp gcl gst].
  destruct project as [[pm pn pt pcp pcl pst]|]; cbn.
  - destruct pm, pcp, pcl, pst, gcl, gst; cbn; repeat split; try reflexivity;
      match goal with |- context [modeName ?m] => destruct m; reflexivity end.
  - destruct gcl, gst; cbn; repeat split; destruct dm; reflexivity.
Qed.

(** ** The version comparison *)

Lemma compareVersions_unparsed_l (a b : string) :
  parseVersion a = None -> compareVersions a b = 0%Z.
Proof. intros H. unfold compareVersions. now rewrite H. Qed.

Lemma compareVersions_unparsed_r (a b : string) :
  parseVersion b = None -> compareVersions a b = 0%Z.
Proof.
  intros H. unfold compareVersions. rewrite H.
  now destruct (parseVersion a).
Qed.

Lemma compareVersions_parsed (a b : string) (vA vB : Version) :
  parseVersion a = Some vA -> parseVersion b = Some vB ->
  compareVersions a b = signOf (lexCompare vA vB).
Proof.
  intros Ha Hb. unfold compareVersions, lexCompare. rewrite Ha, Hb.
  destruct vA as [a1 a2 a3], vB as [b1 b2 b3]; cbn.
  destruct (N.compare_spec a1 b1) as [E1|L1|G1].
  - subst b1. rewrite N.eqb_refl; cbn.
    destruct (N.compare_spec a2 b2) as [E2|L2|G2].
    + subst b2. rewrite N.eqb_refl; cbn.
      destruct (N.compare_spec a3 b3) as [E3|L3|G3].
      * subst b3. now rewrite N.eqb_refl.
      * replace (a3 =? b3)%N with false by (symmetry; apply N.eqb_neq; lia).
        replace (b3 <? a3)%N with false by (symmetry; apply N.ltb_ge; lia).
        reflexivity.
      * replace (a3 =? b3)%N with false by (symmetry; apply N.eqb_neq; lia).
        replace (b3 <? a3)%N with true by (symmetry; apply N.ltb_lt; lia).
        reflexivity.
    + replace (a2 =? b2)%N with false by (symmetry; apply N.eqb_neq; lia).
      replace (b2 <? a2)%N with false by (symmetry; apply N.ltb_ge; lia).
      reflexivity.
    + replace (a2 =? b2)%N with false by (symmetry; apply N.eqb_neq; lia).
      replace (b2 <? a2)%N with true by (symmetry; apply N.ltb_lt; lia).
      reflexivity.
  - replace (a1 =? b1)%N with false by (symmetry; apply N.eqb_neq; lia).
    replace (b1 <? a1)%N with false by (symmetry; apply N.ltb_ge; lia).
    reflexivity.
  - replace (a1 =? b1)%N with false by (symmetry; apply N.eqb_neq; lia).
    replace (b1 <? a1)%N with true by (symmetry; apply N.ltb_lt; lia).
    reflexivity.
Qed.

(** *** What parseVersion accepts *)

Lemma spanDigits_split (s : string) :
  s = fst (spanDigits s) ++ snd (spanDigits s)
  /\ allDigits (fst (spanDigits s)) = true
  /\ startsWithDigit (snd (spanDigits s)) = false.
Proof.
  induction s as [|c s IH]; [now cbn|].
  cbn [spanDigits]. destruct (isDigit c) eqn:Hc.
  - destruct (spanDigits s) as [ds tl]. cbn [fst snd] in IH |- *.
    destruct IH as (Hs & Hd & Ht). repeat split.
    + change (String c s = String c (ds ++ tl)). now f_equal.
    + change (isDigit c && allDigits ds = true). now rewrite Hc, Hd.
    + exact Ht.
  - cbn [fst snd]. repeat split. exact Hc.
Qed.

Lemma spanDigits_app (d r : string) :
  allDigits d = true -> startsWithDigit r = false ->
  spanDigits (d ++ r) = (d, r).
Proof.
  intros Hd Hr. induction d as [|c d IH].
  - change (spanDigits r = ("", r)).
    destruct r as [|c r]; [reflexivity|].
    cbn [spanDigits]. cbn [startsWithDigit] in Hr. now rewrite Hr.
  - cbn [allDigits] in Hd. apply andb_prop in Hd as [Hc Hd].
    change (spanDigits (String c (d ++ r)) = (String c d, r)).
    cbn [spanDigits]. rewrite Hc, (IH Hd). reflexivity.
Qed.

Lemma digitsThenDot_app (d r : string) :
  d <> "" -> allDigits d = true ->
  digitsThenDot (d ++ "." ++ r) = Some (d, r).
Proof.
  intros Hne Hd. unfold digitsThenDot.
  rewrite spanDigits_app by (assumption || reflexivity).
  destruct d; [congruence|reflexivity].
Qed.

Lemma digitsThenDot_inv (s d r : string) :
  digitsThenDot s = Some (d, r) ->
  s = d ++ "." ++ r /\ d <> "" /\ allDigits d = true.
Proof.
  unfold digitsThenDot. intros H.
  destruct (spanDigits_split s) as (Hs & Hd & _).
  destruct (spanDigits s) as [ds tl]. cbn [fst snd] in Hs, Hd.
  destruct ds as [|c ds]; [discriminate|].
  destruct tl as [|c' tl]; [discriminate|].
  destruct (Ascii.eqb_spec c' ".") as [->|]; [|discriminate].
  injection H as <- <-. repeat split; [exact Hs|discriminate|exact Hd].
Qed.

(** parseVersion accepts exactly the strings of the shape
    [v?major.minor.patch...] and gives the three written integers as
    JavaScript numbers. *)
Lemma parseVersion_shape (s : string) (v : Version) :
  parseVersion s = Some v <-> exists x, semverShape s x /\ v = asNumbers x.
Proof.
  split.
  - unfold parseVersion. intros H.
    set (body := match s with
                 | String c rest => if Ascii.eqb c "v" then rest else s
                 | EmptyString => s
                 end) in H.
    assert (Hpre : exists pre, (pre = "" \/ pre = "v") /\ s = pre ++ body).
    { subst body. destruct s as [|c rest].
      - exists "". split; [now left|reflexivity].
      - destruct (Ascii.eqb_spec c "v") as [->|].
        + exists "v". split; [now right|reflexivity].
        + exists "". split; [now left|reflexivity]. }
    destruct Hpre as (pre & Hpre & Hs).
    destruct (digitsThenDot body) as [[d1 r1]|] eqn:H1; [|discriminate].
    destruct (digitsThenDot r1) as [[d2 r2]|] eqn:H2; [|discriminate].
    apply digitsThenDot_inv in H1 as (Hb & Hn1 & Ha1).
    apply digitsThenDot_inv in H2 as (Hr1 & Hn2 & Ha2).
    destruct (spanDigits_split r2) as (Hr2 & Ha3 & Hrest).
    destruct (spanDigits r2) as [d3 rest]. cbn [fst snd] in Hr2, Ha3, Hrest.
    destruct d3 as [|c3 d3]; [discriminate|].
    injection H as <-.
    exists (mkVersion (mathInt d1) (mathInt d2) (mathInt (String c3 d3))).
    split; [|reflexivity].
    exists pre, d1, d2, (String c3 d3), rest.
    repeat split; try assumption; try discriminate.
    now rewrite Hs, Hb, Hr1, Hr2.
  - intros (x & (pre & d1 & d2 & d3 & rest & Hpre & -> & Hn1 & Ha1 & Hn2 & Ha2
                 & Hn3 & Ha3 & Hrest & ->) & ->).
    unfold parseVersion.
    assert (Hbody :
      match pre ++ d1 ++ "." ++ d2 ++ "." ++ d3 ++ rest with
      | String c r => if Ascii.eqb c "v"
                      then r
                      else pre ++ d1 ++ "." ++ d2 ++ "." ++ d3 ++ rest
      | EmptyString => pre ++ d1 ++ "." ++ d2 ++ "." ++ d3 ++ rest
      end = d1 ++ "." ++ d2 ++ "." ++ d3 ++ rest).
    { destruct Hpre as [->| ->]; [|reflexivity].
      destruct d1 as [|c d1]; [congruence|].
      cbn [allDigits] in Ha1. apply andb_prop in Ha1 as [Hc _].
      change ((if Ascii.eqb c "v"
               then d1 ++ "." ++ d2 ++ "." ++ d3 ++ rest
               else String c d1 ++ "." ++ d2 ++ "." ++ d3 ++ rest)
              = String c d1 ++ "." ++ d2 ++ "." ++ d3 ++ rest).
      destruct (Ascii.eqb_spec c "v") as [->|]; [discriminate|reflexivity]. }
    rewrite Hbody.
    rewrite digitsThenDot_app by assumption.
    rewrite digitsThenDot_app by assumption.
    rewrite spanDigits_app by assumption.
    destruct d3; [congruence|reflexivity].
Qed.

(** Below 2^53 the number is the integer. *)
Lemma toNumber_safe (n : N) : (n < MAX_SAFE)%N -> toNumber n = n.
Proof.
  intros H. unfold toNumber.
  now replace (n <? MAX_SAFE)%N with true by (symmetry; now apply N.ltb_lt).
Qed.

Lemma asNumbers_safe (v : Version) : safeVersion v -> asNumbers v = v.
Proof.
  destruct v as [a b c]. intros (Ha & Hb & Hc). cbn in Ha, Hb, Hc.
  unfold asNumbers; cbn [major minor patch].
  now rewrite !toNumber_safe.
Qed.

(** C10: when one of the two strings does not parse as a version
    (parseVersion gives null, that is, the string is not of the shape
    major.minor.patch with an optional leading "v"), compareVersions
    gives 0; when both parse, it gives -1, 0 or 1 as the lexicographic
    order of (major, minor, patch) says.  The three components are the
    numbers parseInt makes of the written integers: the integers
    themselves as long as they are below 2^53. *)
Theorem compareVersions_spec (a b : string) :
  (parseVersion a = None \/ parseVersion b = None ->
   compareVersions a b = 0%Z)
  /\ ((forall v, ~ semverShape a v) \/ (forall v, ~ semverShape b v) ->
      compareVersions a b = 0%Z)
  /\ (forall vA vB : Version,
        parseVersion a = Some vA -> parseVersion b = Some vB ->
        compareVersions a b = signOf (lexCompare vA vB)
        /\ (compareVersions a b = (-1)%Z \/ compareVersions a b = 0%Z
            \/ compareVersions a b = 1%Z))
  /\ (forall xA xB : Version,
        semverShape a xA -> semverShape b xB ->
        compareVersions a b = signOf (lexCompare (asNumbers xA) (asNumbers xB))
        /\ (safeVersion xA -> safeVersion xB ->
            compareVersions a b = signOf (lexCompare xA xB))).
Proof.
  assert (Hnone : forall s, (forall v, ~ semverShape s v) -> parseVersion s = None).
  { intros s Hs. destruct (parseVersion s) as [v|] eqn:Hv; [|reflexivity].
    exfalso. apply parseVersion_shape in Hv as (x & Hx & _). now apply (Hs x). }
  split; [|split; [|split]].
  - intros [H|H].
    + now apply compareVersions_unparsed_l.
    + now apply compareVersions_unparsed_r.
  - intros [H|H].
    + now apply compareVersions_unparsed_l, Hnone.
    + now apply compareVersions_unparsed_r, Hnone.
  - intros vA vB Ha Hb.
    rewrite (compareVersions_parsed a b vA vB Ha Hb).
    split; [reflexivity|].
    destruct (lexCompare vA vB); cbn; auto.
  - intros xA xB HA HB.
    assert (Ha : parseVersion a = Some (asNumbers xA))
      by (apply parseVersion_shape; now exists xA).
    assert (Hb : parseVersion b = Some (asNumbers xB))
      by (apply parseVersion_shape; now exists xB).
    rewrite (compareVersions_parsed a b _ _ Ha Hb).
    split; [reflexivity|].
    intros SA SB. now rewrite !asNumbers_safe.
Qed.

Lemma compareVersions_spec_witness :
  compareVersions "latest" "1.0.0" = 0%Z
  /\ compareVersions "2.0.0" "1.x" = 0%Z
  /\ compareVersions "1.2.3" "1.10.0" = (-1)%Z
  /\ compareVersions "9007199254740993.0.0" "9007199254740992.0.0" = 0%Z
  /\ compareVersions "v2.0.0" "1.9.9-rc1" = signOf Gt.
Proof.
  assert (Hshape : forall d1 d2 d3 rest,
            d1 <> "" -> allDigits d1 = true ->
            d2 <> "" -> allDigits d2 = true ->
            d3 <> "" -> allDigits d3 = true ->
            startsWithDigit rest = false ->
            forall pre, pre = "" \/ pre = "v" ->
            semverShape (pre ++ d1 ++ "." ++ d2 ++ "." ++ d3 ++ rest)
                        (mkVersion (mathInt d1) (mathInt d2) (mathInt d3))).
  { intros d1 d2 d3 rest ? ? ? ? ? ? ? pre ?.
    exists pre, d1, d2, d3, rest. repeat split; assumption. }
  split; [|split; [|split; [|split]]].
  - apply (proj1 (compareVersions_spec "latest" "1.0.0")).
    left. reflexivity.
  - apply (proj1 (proj2 (compareVersions_spec "2.0.0" "1.x"))).
    right. intros v Hv.
    assert (H : parseVersion "1.x" = Some (asNumbers v))
      by (apply parseVersion_shape; now exists v).
    discriminate H.
  - exact (proj1 (proj1 (proj2 (proj2 (compareVersions_spec "1.2.3" "1.10.0")))
                        (mkVersion 1 2 3) (mkVersion 1 10 0)
                        eq_refl eq_refl)).
  - exact (proj1 (proj1 (proj2 (proj2
             (compareVersions_spec "9007199254740993.0.0"
                                   "9007199254740992.0.0")))
                        (mkVersion 9007199254740992 0 0)
                        (mkVersion 9007199254740992 0 0)
                        eq_refl eq_refl)).
  - apply (proj2 (proj2 (proj2 (compareVersions_spec "v2.0.0" "1.9.9-rc1")))
             (mkVersion 2 0 0) (mkVersion 1 9 9)).
    + apply (Hshape "2" "0" "0" "" ltac:(discriminate) eq_refl
               ltac:(discriminate) eq_refl ltac:(discriminate) eq_refl eq_refl
               "v"). now right.
    + apply (Hshape "1" "9" "9" "-rc1" ltac:(discriminate) eq_refl
               ltac:(discriminate) eq_refl ltac:(discriminate) eq_refl eq_refl
               ""). now left.
    + repeat split; vm_compute; reflexivity.
    + repeat split; vm_compute; reflexivity.
Defined.

(** ** The store: reading leaves the world as it is *)

Lemma fileExists_eq (path : string) (w : World) :
  fileExists path w = (Returned (accessible w path), w).
Proof.
  unfold fileExists, tryCatch, bind, access, ret.
  now destruct (accessible w path).
Qed.

Lemma accessible_inv (w : World) (path : string) :
  accessible w path = true ->
  (path ∉ denied w) /\ exists f, files w !! path = Some f.
Proof.
  unfold accessible. intros H.
  apply andb_prop in H as [H1 H2].
  apply bool_decide_eq_true in H1, H2.
  split; [assumption|]. destruct H2 as [f Hf]. now exists f.
Qed.

Lemma readJsonFile_eq {T : Type} (path : string) (schema : value -> option T)
    (w : World) :
  readJsonFile path schema w = (Returned (jsonAt w path schema), w).
Proof.
  unfold readJsonFile, jsonAt, tryCatch, bind.
  rewrite fileExists_eq.
  destruct (accessible w path) eqn:Hacc; cbn; [|reflexivity].
  apply accessible_inv in Hacc as [Hden [f Hf]].
  unfold readFile. rewrite Hf.
  rewrite (bool_decide_eq_false_2 (path ∈ denied w)) by assumption.
  cbn [orb].
  destruct (bool_decide (path ∈ unreadable w)); [reflexivity|].
  unfold JSON_parse, parse.
  destruct (content f) as [v|s]; cbn; [|reflexivity].
  now destruct (schema v).
Qed.

Lemma readGlobalConfig_eq (w : World) :
  readGlobalConfig w = (Returned (globalAt w), w).
Proof.
  unfold readGlobalConfig, globalAt, bind.
  rewrite fileExists_eq.
  destruct (accessible w (getGlobalConfigPath w)); cbn; [|reflexivity].
  apply readJsonFile_eq.
Qed.

Lemma readProjectConfig_eq (projectRoot : string) (w : World) :
  readProjectConfig projectRoot w = (Returned (projectAt w projectRoot), w).
Proof.
  unfold readProjectConfig, projectAt, bind.
  rewrite fileExists_eq.
  destruct (accessible w (getProjectConfigPath projectRoot)); cbn;
    [|reflexivity].
  rewrite readJsonFile_eq.
  now destruct (jsonAt w (getProjectConfigPath projectRoot) ProjectConfigSchema).
Qed.

Lemma isProjectInitialized_eq (projectRoot : string) (w : World) :
  isProjectInitialized projectRoot w =
  (Returned (accessible w (getProjectConfigPath projectRoot)), w).
Proof. apply fileExists_eq. Qed.

Lemma loadConfig_eq (projectRoot : string) (w : World) :
  loadConfig projectRoot w = (Returned (mergedAt w projectRoot), w).
Proof.
  unfold loadConfig, mergedAt, bind.
  rewrite readGlobalConfig_eq.
  destruct (globalAt w) as [g|e]; cbn; [|reflexivity].
  rewrite readProjectConfig_eq.
  now destruct (projectAt w projectRoot).
Qed.

(** ** The schemas accept what the typed records denote *)

Lemma ModeSchema_modeValue (m : Mode) : ModeSchema (modeValue m) = Some m.
Proof. now destruct m. Qed.

Lemma ChecklistTypeSchema_checklistValue (c : ChecklistType) :
  ChecklistTypeSchema (checklistValue c) = Some c.
Proof. now destruct c. Qed.

Lemma StandardTypeSchema_name (s : StandardType) :
  StandardTypeSchema (VStr (standardName s)) = Some s.
Proof. now destruct s. Qed.

Lemma zItems_map {A : Type} (inner : value -> option A) (f : A -> value)
    (l : list A) :
  (forall a, inner (f a) = Some a) ->
  zItems inner (List.map f l) = Some l.
Proof.
  intros Hin. induction l as [|a l IH]; [reflexivity|].
  cbn [List.map zItems]. now rewrite Hin, IH.
Qed.

Lemma zItems_strings (l : list string) :
  zItems zString (List.map VStr l) = Some l.
Proof. now apply zItems_map. Qed.

Lemma zItems_standards (l : list StandardType) :
  zItems StandardTypeSchema (List.map (fun s => VStr (standardName s)) l)
  = Some l.
Proof. apply zItems_map. apply StandardTypeSchema_name. Qed.

Lemma jsonRoundTrip_strings (l : list string) :
  jsonRoundTrip (stringsValue l) = stringsValue l.
Proof.
  unfold stringsValue; cbn. f_equal.
  induction l as [|s l IH]; cbn; [reflexivity|]. now rewrite IH.
Qed.

Lemma jsonRoundTrip_standards (l : list StandardType) :
  jsonRoundTrip (standardsValue l) = standardsValue l.
Proof.
  unfold standardsValue; cbn. f_equal.
  induction l as [|s l IH]; cbn; [reflexivity|]. now rewrite IH.
Qed.

Lemma zArray_strings (l : list string) :
  zArray zString (stringsValue l) = Some l.
Proof. apply zItems_strings. Qed.

Lemma zArray_standards (l : list StandardType) :
  zArray StandardTypeSchema (standardsValue l) = Some l.
Proof. apply zItems_standards. Qed.

Lemma zOptional_optValue {A : Type} (inner : value -> option A)
    (f : A -> value) (o : option A) :
  (forall a, inner (f a) = Some a) ->
  (forall a, f a <> VUndef) ->
  zOptional inner (optValue f o) = Some o.
Proof.
  intros Hin Hdef. destruct o as [a|]; cbn; [|reflexivity].
  specialize (Hin a). specialize (Hdef a).
  destruct (f a); try congruence; cbn; now rewrite Hin.
Qed.

(** Validating a typed project config gives it back: the second
    validation in writeProjectConfig never rejects a value of its static
    type. *)
Lemma ProjectConfigSchema_projectValue (p : ProjectConfig.t) :
  ProjectConfigSchema (projectValue p) = Some p.
Proof.
  destruct p as [m pn tp cp cl st].
  unfold ProjectConfigSchema, projectValue. cbn [getProp String.eqb Ascii.eqb Bool.eqb].
  cbn [ProjectConfig.mode ProjectConfig.projectName ProjectConfig.template
       ProjectConfig.customPrompts ProjectConfig.includeSecurityChecklist
       ProjectConfig.includeStandards].
  rewrite (zOptional_optValue ModeSchema modeValue m)
    by (intros; first [apply ModeSchema_modeValue | discriminate]).
  rewrite !(zOptional_optValue zString VStr)
    by (intros; first [reflexivity | discriminate]).
  rewrite (zOptional_optValue (zArray zString) stringsValue cp)
    by (intros; first [apply zArray_strings | discriminate]).
  rewrite (zOptional_optValue ChecklistTypeSchema checklistValue cl)
    by (intros; first [apply ChecklistTypeSchema_checklistValue | discriminate]).
  rewrite (zOptional_optValue (zArray StandardTypeSchema) standardsValue st)
    by (intros; first [apply zArray_standards | discriminate]).
  reflexivity.
Qed.

(** Reading back what was serialised gives the typed record again. *)
Lemma ProjectConfigSchema_roundTrip (p : ProjectConfig.t) :
  ProjectConfigSchema (jsonRoundTrip (projectValue p)) = Some p.
Proof.
  destruct p as [m pn tp cp cl st].
  destruct m, pn, tp, cp, cl, st;
    cbn -[ModeSchema ChecklistTypeSchema StandardTypeSchema zArray];
    repeat match goal with
      | |- context [List.map _ (List.map VStr ?l)] =>
          change (VArr (List.map (fun x => match x with
                                           | VUndef => VNull
                                           | _ => jsonRoundTrip x
                                           end) (List.map VStr l)))
            with (jsonRoundTrip (stringsValue l));
          rewrite jsonRoundTrip_strings
      | |- context [List.map _ (List.map _ ?l)] =>
          change (VArr (List.map (fun x => match x with
                                           | VUndef => VNull
                                           | _ => jsonRoundTrip x
                                           end)
                          (List.map (fun s => VStr (standardName s)) l)))
            with (jsonRoundTrip (standardsValue l));
          rewrite jsonRoundTrip_standards
      end;
    rewrite ?zArray_strings, ?zArray_standards;
    repeat match goal with
      | |- context [ModeSchema (VStr (modeName ?x))] =>
          change (VStr (modeName x)) with (modeValue x);
          rewrite ModeSchema_modeValue
      | |- context [ChecklistTypeSchema (VStr (checklistName ?x))] =>
          change (VStr (checklistName x)) with (checklistValue x);
          rewrite ChecklistTypeSchema_checklistValue
      end;
    reflexivity.
Qed.

(** ** The store: writing *)

Lemma lastIndexOfSlash_noSlash (s : string) :
  noSlash s = true -> lastIndexOfSlash s = None.
Proof.
  induction s as [|c s IH]; [reflexivity|].
  cbn [noSlash lastIndexOfSlash]. intros H.
  apply andb_prop in H as [Hc Hs]. rewrite (IH Hs).
  apply negb_true_iff in Hc. now rewrite Hc.
Qed.

Lemma lastIndexOfSlash_join (a b : string) :
  noSlash b = true ->
  lastIndexOfSlash (a ++ String "/" b) = Some (String.length a).
Proof.
  intros Hb. induction a as [|c a IH].
  - change (lastIndexOfSlash (String "/" b) = Some 0).
    cbn [lastIndexOfSlash]. now rewrite (lastIndexOfSlash_noSlash b Hb).
  - change (lastIndexOfSlash (String c (a ++ String "/" b))
            = Some (S (String.length a))).
    cbn [lastIndexOfSlash]. now rewrite IH.
Qed.

Lemma substring_prefix (a s : string) :
  String.substring 0 (String.length a) (a ++ s) = a.
Proof.
  induction a as [|c a IH].
  - destruct s; reflexivity.
  - change (String c (String.substring 0 (String.length a) (a ++ s))
            = String c a).
    now rewrite IH.
Qed.

Lemma parentDir_join (a b : string) :
  noSlash b = true -> parentDir (join a b) = a.
Proof.
  intros Hb. unfold parentDir, join.
  change (a ++ "/" ++ b) with (a ++ String "/" b).
  rewrite lastIndexOfSlash_join by assumption.
  apply substring_prefix.
Qed.

Lemma parentDir_projectConfig (projectRoot : string) :
  parentDir (getProjectConfigPath projectRoot) = getProjectConfigDir projectRoot.
Proof. now apply parentDir_join. Qed.


Lemma writeFile_cases (path : string) (c : Content) (w : World) :
  ((path ∉ readonly w) /\ writeFile path c w = (Returned tt, written w path c))
  \/ (path ∈ readonly w
      /\ writeFile path c w = (Thrown (Errno "EACCES" path), w)).
Proof.
  unfold writeFile, written.
  destruct (decide (path ∈ readonly w)) as [Hin|Hout].
  - right. split; [assumption|]. now rewrite bool_decide_eq_true_2.
  - left. split; [assumption|]. now rewrite bool_decide_eq_false_2.
Qed.

Lemma mkdir_cases (dir : string) (w : World) :
  mkdir dir w = (Returned tt, madeDir w dir)
  \/ exists e, mkdir dir w = (Thrown e, w).
Proof.
  unfold mkdir.
  destruct (String.eqb dir ""); [right; eexists; reflexivity|].
  destruct (bool_decide (dir ∈ dirs w)); [now left|].
  destruct (bool_decide (dir ∈ readonly w)); [right; eexists; reflexivity|].
  now left.
Qed.

(** writeJsonFile never throws: it either makes the directory, writes
    the file and succeeds, or fails; the failure leaves every file as it
    was, and the directory made when it is the write that was refused. *)
Lemma writeJsonFile_cases (path : string) (data : value) (w : World) :
  writeJsonFile path data w
    = (Returned (Success tt), saved w path (stringify data))
  \/ exists e w',
       writeJsonFile path data w = (Returned (Failure e), w')
       /\ (w' = w \/ w' = madeDir w (parentDir path)).
Proof.
  unfold writeJsonFile, tryCatch, bind. cbv zeta.
  destruct (mkdir_cases (parentDir path) w) as [->|[e ->]].
  - destruct (writeFile_cases path (stringify data)
                (madeDir w (parentDir path))) as [[_ ->]|[_ ->]].
    + left. reflexivity.
    + right. eexists _, _. split; [reflexivity|now right].
  - right. eexists _, w. split; [reflexivity|now left].
Qed.

Lemma writeProjectConfig_typed (projectRoot : string) (p : ProjectConfig.t)
    (w : World) :
  writeProjectConfig projectRoot (projectValue p) w
  = writeJsonFile (getProjectConfigPath projectRoot) (projectValue p) w.
Proof.
  unfold writeProjectConfig, bind, parse.
  now rewrite ProjectConfigSchema_projectValue.
Qed.

Lemma writeProjectConfig_cases (projectRoot : string) (p : ProjectConfig.t)
    (w : World) :
  writeProjectConfig projectRoot (projectValue p) w
    = (Returned (Success tt),
       saved w (getProjectConfigPath projectRoot) (stringify (projectValue p)))
  \/ exists e w',
      writeProjectConfig projectRoot (projectValue p) w
      = (Returned (Failure e), w')
      /\ (w' = w \/ w' = madeDir w (getProjectConfigDir projectRoot)).
Proof.
  rewrite writeProjectConfig_typed, <- parentDir_projectConfig.
  apply writeJsonFile_cases.
Qed.

Lemma buildClaudeMd_cases (render : MergedConfig.t -> string)
    (config : MergedConfig.t) (projectRoot : string) (w : World) :
  buildClaudeMd render config projectRoot w
    = (Returned (Success (getClaudeMdPath projectRoot)),
       written w (getClaudeMdPath projectRoot) (Text (render config)))
  \/ exists e,
      buildClaudeMd render config projectRoot w = (Returned (Failure e), w).
Proof.
  unfold buildClaudeMd, tryCatch, bind.
  destruct (writeFile_cases (getClaudeMdPath projectRoot)
              (Text (render config)) w) as [[_ ->]|[_ ->]].
  - left. reflexivity.
  - right. eexists. reflexivity.
Qed.

(** *** Paths *)

Lemma append_cancel_l (a b c : string) : a ++ b = a ++ c -> b = c.
Proof.
  induction a as [|ch a IH]; cbn; intros H; [assumption|].
  injection H as H. now apply IH.
Qed.

Lemma append_assoc' (a b c : string) : (a ++ b) ++ c = a ++ (b ++ c).
Proof.
  induction a as [|ch a IH]; [reflexivity|].
  change (String ch ((a ++ b) ++ c) = String ch (a ++ (b ++ c))).
  now rewrite IH.
Qed.

(** The derived document and the project config are different files. *)
Lemma claudeMd_not_config (projectRoot : string) :
  getClaudeMdPath projectRoot <> getProjectConfigPath projectRoot.
Proof.
  cbv beta zeta delta [getClaudeMdPath getProjectConfigPath getProjectConfigDir
                        join resolve VIBE_DIR CONFIG_FILE].
  rewrite append_assoc'. intros H.
  apply append_cancel_l in H. discriminate H.
Qed.

(** *** Reading after a write *)

Lemma accessible_written_other (w : World) (path other : string) (c : Content) :
  path <> other ->
  accessible (written w path c) other = accessible w other.
Proof.
  intros Hne. unfold accessible, written; cbn.
  now rewrite lookup_insert_ne.
Qed.

Lemma jsonAt_written_other {T : Type} (w : World) (path other : string)
    (c : Content) (schema : value -> option T) :
  path <> other ->
  jsonAt (written w path c) other schema = jsonAt w other schema.
Proof.
  intros Hne. unfold jsonAt.
  rewrite accessible_written_other by assumption.
  unfold written; cbn [files unreadable]. now rewrite lookup_insert_ne.
Qed.

Lemma projectAt_written_other (w : World) (path : string) (c : Content)
    (projectRoot : string) :
  path <> getProjectConfigPath projectRoot ->
  projectAt (written w path c) projectRoot = projectAt w projectRoot.
Proof.
  intros Hne. unfold projectAt.
  rewrite accessible_written_other by assumption.
  now rewrite jsonAt_written_other.
Qed.

(** Once the project config has been written, it reads back as written,
    provided the file may be read at all. *)
Lemma projectAt_written (w : World) (projectRoot : string) (p : ProjectConfig.t) :
  getProjectConfigPath projectRoot ∉ denied w ->
  getProjectConfigPath projectRoot ∉ unreadable w ->
  projectAt (written w (getProjectConfigPath projectRoot)
                     (stringify (projectValue p))) projectRoot
  = Success (Some p).
Proof.
  intros Hden Hread.
  change (stringify (projectValue p))
    with (Json (jsonRoundTrip (projectValue p))).
  unfold projectAt, jsonAt, accessible, written;
    cbn [files denied unreadable].
  rewrite lookup_insert_eq.
  rewrite bool_decide_eq_true_2 by assumption.
  rewrite bool_decide_eq_true_2 by (eexists; reflexivity).
  rewrite bool_decide_eq_false_2 by assumption.
  cbn [andb content]. now rewrite ProjectConfigSchema_roundTrip.
Qed.

Lemma projectAt_saved (w : World) (projectRoot : string) (p : ProjectConfig.t) :
  getProjectConfigPath projectRoot ∉ denied w ->
  getProjectConfigPath projectRoot ∉ unreadable w ->
  projectAt (saved w (getProjectConfigPath projectRoot)
                   (stringify (projectValue p))) projectRoot
  = Success (Some p).
Proof. intros Hden Hread. unfold saved. apply projectAt_written; assumption. Qed.

(** Making a directory changes what no reader sees. *)
Lemma projectAt_madeDir (w : World) (dir projectRoot : string) :
  projectAt (madeDir w dir) projectRoot = projectAt w projectRoot.
Proof. reflexivity. Qed.

Lemma globalAt_madeDir (w : World) (dir : string) :
  globalAt (madeDir w dir) = globalAt w.
Proof. reflexivity. Qed.

Lemma mergedAt_madeDir (w : World) (dir projectRoot : string) :
  mergedAt (madeDir w dir) projectRoot = mergedAt w projectRoot.
Proof. reflexivity. Qed.

(** A project config that reads is one that may be reached and read. *)
Lemma projectAt_readable (w : World) (projectRoot : string)
    (d : option ProjectConfig.t) :
  accessible w (getProjectConfigPath projectRoot) = true ->
  projectAt w projectRoot = Success d ->
  (getProjectConfigPath projectRoot ∉ denied w)
  /\ (getProjectConfigPath projectRoot ∉ unreadable w).
Proof.
  intros Hacc Hproj. unfold projectAt, jsonAt in Hproj. rewrite Hacc in Hproj.
  apply accessible_inv in Hacc as [Hden [f Hf]]. rewrite Hf in Hproj.
  split; [assumption|].
  destruct (decide (getProjectConfigPath projectRoot ∈ unreadable w))
    as [Hin|Hout]; [|assumption].
  rewrite bool_decide_eq_true_2 in Hproj by assumption. discriminate.
Qed.

Lemma mergedAt_project (w : World) (projectRoot : string) (c : MergedConfig.t) :
  mergedAt w projectRoot = Success c ->
  exists d, projectAt w projectRoot = Success d.
Proof.
  unfold mergedAt. destruct (globalAt w); [|discriminate].
  destruct (projectAt w projectRoot) as [d|]; [|discriminate].
  intros _. now exists d.
Qed.

(** ** The mode switch *)

(** C3: on a project root that is not initialised, switchMode fails with
    the not-initialised error and leaves the world as it is: nothing is
    written, the project config file is as absent as before and no
    derived document appears. *)
Theorem switchMode_not_initialized (render : MergedConfig.t -> string)
    (projectRoot : string) (mode : Mode) (w : World) :
  fst (isProjectInitialized projectRoot w) = Returned false ->
  let r := switchMode render projectRoot mode w in
  fst r = Returned (Failure notInitialized)
  /\ snd r = w
  /\ journal (snd r) = journal w
  /\ files (snd r) !! getProjectConfigPath projectRoot
     = files w !! getProjectConfigPath projectRoot
  /\ files (snd r) !! getClaudeMdPath projectRoot
     = files w !! getClaudeMdPath projectRoot
  /\ fst (isProjectInitialized projectRoot (snd r)) = Returned false.
Proof.
  intros Hinit r.
  assert (Hr : r = (Returned (Failure notInitialized), w)).
  { subst r. unfold switchMode, bind.
    rewrite isProjectInitialized_eq in Hinit |- *. cbn in Hinit |- *.
    injection Hinit as ->. reflexivity. }
  rewrite Hr. cbn. repeat split; try reflexivity.
  exact Hinit.
Qed.

Lemma switchMode_not_initialized_witness :
  let r := switchMode Sample.render Sample.root expert Sample.blank in
  fst r = Returned (Failure notInitialized)
  /\ files (snd r) !! getProjectConfigPath Sample.root = None
  /\ files (snd r) !! getClaudeMdPath Sample.root = None
  /\ journal (snd r) = [].
Proof.
  destruct (switchMode_not_initialized Sample.render Sample.root expert
              Sample.blank) as (Hres & Hw & Hj & Hcfg & Hdoc & _).
  - vm_compute. reflexivity.
  - cbv zeta. rewrite Hres, Hcfg, Hdoc, Hj.
    repeat split; vm_compute; reflexivity.
Defined.

(** The update step of switchMode, with the reads replaced by the views
    of the store. *)
Lemma switchMode_update_eq (projectRoot : string) (mode : Mode) (w : World) :
  switchMode_update projectRoot mode w =
  match projectAt w projectRoot with
  | Failure e => (Returned (Failure e), w)
  | Success d =>
      let updated := ProjectConfig.withMode (d ?? ProjectConfig.empty) mode in
      match writeProjectConfig projectRoot (projectValue updated) w with
      | (Returned (Success _), w1) => (Returned (Success tt), w1)
      | (Returned (Failure e), w1) => (Returned (Failure e), w1)
      | (Thrown e, w1) => (Thrown e, w1)
      end
  end.
Proof.
  unfold switchMode_update, bind at 1.
  rewrite readProjectConfig_eq.
  destruct (projectAt w projectRoot) as [d|e]; [|reflexivity].
  cbv zeta. unfold bind.
  destruct (writeProjectConfig _ _ w) as [[[u|e]|e] w1]; reflexivity.
Qed.

(** switchMode is: the initialisation guard, the first load, the update
    step, the reload and the regeneration, each failure ending the run. *)
Lemma switchMode_eq (render : MergedConfig.t -> string) (projectRoot : string)
    (mode : Mode) (w : World) :
  switchMode render projectRoot mode w =
  if accessible w (getProjectConfigPath projectRoot) then
    match mergedAt w projectRoot with
    | Failure e => (Returned (Failure e), w)
    | Success c0 =>
        match switchMode_update projectRoot mode w with
        | (Returned (Success _), w1) =>
            match mergedAt w1 projectRoot with
            | Failure e => (Returned (Failure e), w1)
            | Success c1 =>
                match buildClaudeMd render c1 projectRoot w1 with
                | (Returned (Success path), w2) =>
                    (Returned (Success (mkSwitchResult (MergedConfig.mode c0)
                                                       mode path)), w2)
                | (Returned (Failure e), w2) => (Returned (Failure e), w2)
                | (Thrown e, w2) => (Thrown e, w2)
                end
            end
        | (Returned (Failure e), w1) => (Returned (Failure e), w1)
        | (Thrown e, w1) => (Thrown e, w1)
        end
    end
  else (Returned (Failure notInitialized), w).
Proof.
  rewrite switchMode_update_eq.
  unfold switchMode, bind at 1.
  rewrite isProjectInitialized_eq.
  destruct (accessible w (getProjectConfigPath projectRoot)); [|reflexivity].
  cbn [negb]. unfold bind at 1. rewrite loadConfig_eq.
  destruct (mergedAt w projectRoot) as [c0|e]; [|reflexivity].
  unfold bind at 1. rewrite readProjectConfig_eq.
  destruct (projectAt w projectRoot) as [d|e]; [|reflexivity].
  cbv zeta. unfold bind at 1.
  destruct (writeProjectConfig _ _ w) as [[[u|e]|e] w1]; try reflexivity.
  unfold bind at 1. rewrite loadConfig_eq.
  destruct (mergedAt w1 projectRoot) as [c1|e]; [|reflexivity].
  unfold bind.
  destruct (buildClaudeMd render c1 projectRoot w1) as [[[path|e]|e] w2];
    reflexivity.
Qed.

(** When the update step succeeds, the project config file holds the
    previous record under the new mode, stamped with the time of the
    write. *)
Lemma switchMode_update_success (projectRoot : string) (mode : Mode)
    (w w1 : World) :
  switchMode_update projectRoot mode w = (Returned (Success tt), w1) ->
  exists d,
    projectAt w projectRoot = Success d
    /\ w1 = saved w (getProjectConfigPath projectRoot)
              (stringify (projectValue
                 (ProjectConfig.withMode (d ?? ProjectConfig.empty) mode))).
Proof.
  rewrite switchMode_update_eq.
  destruct (projectAt w projectRoot) as [d|e]; [|discriminate].
  cbv zeta. intros H. exists d. split; [reflexivity|].
  destruct (writeProjectConfig_cases projectRoot
              (ProjectConfig.withMode (d ?? ProjectConfig.empty) mode) w)
    as [Hw|(e & w' & Hw & _)]; rewrite Hw in H.
  - now injection H as <-.
  - discriminate.
Qed.

Lemma fst_loadConfig (projectRoot : string) (w : World) (r : Result MergedConfig.t) :
  fst (loadConfig projectRoot w) = Returned r -> mergedAt w projectRoot = r.
Proof. rewrite loadConfig_eq. cbn. now intros [= ->]. Qed.

Lemma fst_isProjectInitialized (projectRoot : string) (w : World) (b : bool) :
  fst (isProjectInitialized projectRoot w) = Returned b ->
  accessible w (getProjectConfigPath projectRoot) = b.
Proof. rewrite isProjectInitialized_eq. cbn. now intros [= ->]. Qed.

Lemma fst_readProjectConfig (projectRoot : string) (w : World)
    (r : Result (option ProjectConfig.t)) :
  fst (readProjectConfig projectRoot w) = Returned r ->
  projectAt w projectRoot = r.
Proof. rewrite readProjectConfig_eq. cbn. now intros [= ->]. Qed.

Lemma pair_fst_snd {A B : Type} (p : A * B) (a : A) :
  fst p = a -> p = (a, snd p).
Proof. destruct p. cbn. now intros ->. Qed.

(** C4: when switchMode's write of the updated project config succeeds
    and the regeneration of the derived document then fails, switchMode
    reports that failure while the project config file keeps the new
    mode. *)
Theorem switchMode_regeneration_failure (render : MergedConfig.t -> string)
    (projectRoot : string) (mode : Mode) (w : World)
    (c0 c1 : MergedConfig.t) (e : Error) :
  let w1 := snd (switchMode_update projectRoot mode w) in
  fst (isProjectInitialized projectRoot w) = Returned true ->
  fst (loadConfig projectRoot w) = Returned (Success c0) ->
  fst (switchMode_update projectRoot mode w) = Returned (Success tt) ->
  fst (loadConfig projectRoot w1) = Returned (Success c1) ->
  fst (buildClaudeMd render c1 projectRoot w1) = Returned (Failure e) ->
  let r := switchMode render projectRoot mode w in
  fst r = Returned (Failure e)
  /\ exists p,
       fst (readProjectConfig projectRoot (snd r)) = Returned (Success (Some p))
       /\ ProjectConfig.mode p = Some mode.
Proof.
  intros w1 Hinit Hload Hupd Hreload Hbuild r.
  apply fst_isProjectInitialized in Hinit.
  apply fst_loadConfig in Hload, Hreload.
  apply pair_fst_snd in Hupd. fold w1 in Hupd.
  assert (Hb : buildClaudeMd render c1 projectRoot w1 = (Returned (Failure e), w1)).
  { destruct (buildClaudeMd_cases render c1 projectRoot w1) as [Hs|[e' Hf]].
    - rewrite Hs in Hbuild. discriminate.
    - rewrite Hf in Hbuild |- *. cbn in Hbuild. now injection Hbuild as ->. }
  assert (Hr : r = (Returned (Failure e), w1)).
  { subst r. rewrite switchMode_eq, Hinit, Hload, Hupd, Hreload, Hb.
    reflexivity. }
  rewrite Hr. cbn [fst snd]. split; [reflexivity|].
  destruct (switchMode_update_success _ _ _ _ Hupd) as (d & _ & Hw1).
  exists (ProjectConfig.withMode (d ?? ProjectConfig.empty) mode).
  split; [|reflexivity].
  rewrite readProjectConfig_eq. cbn [fst]. f_equal.
  destruct (mergedAt_project _ _ _ Hload) as [d0 Hd0].
  destruct (projectAt_readable _ _ _ Hinit Hd0) as [Hden Hrd].
  rewrite Hw1. now apply projectAt_written.
Qed.

Lemma switchMode_regeneration_failure_witness :
  let r := switchMode Sample.render Sample.root guided Sample.documentReadonly in
  fst r = Returned (Failure (Errno "EACCES" (getClaudeMdPath Sample.root)))
  /\ exists p,
       fst (readProjectConfig Sample.root (snd r)) = Returned (Success (Some p))
       /\ ProjectConfig.mode p = Some guided.
Proof.
  apply (switchMode_regeneration_failure Sample.render Sample.root guided
           Sample.documentReadonly
           (MergedConfig.mk learning None None (Some "foo") None ["x"]
                            ck_pre [std_typescript])
           (MergedConfig.mk guided None None (Some "foo") None ["x"]
                            ck_pre [std_typescript])
           (Errno "EACCES" (getClaudeMdPath Sample.root)));
    vm_compute; reflexivity.
Defined.






(** C6, as the code has it: on an initialised project whose merged mode
    is already the requested one, switchMode does not stop early: when
    its write, its reload and its regeneration succeed it succeeds with
    previousMode = newMode, and the derived document has been written
    anew from the reloaded configuration. *)
Theorem switchMode_same_mode (render : MergedConfig.t -> string)
    (projectRoot : string) (mode : Mode) (w : World)
    (c0 c1 : MergedConfig.t) (path : string) :
  let w1 := snd (switchMode_update projectRoot mode w) in
  fst (isProjectInitialized projectRoot w) = Returned true ->
  fst (loadConfig projectRoot w) = Returned (Success c0) ->
  MergedConfig.mode c0 = mode ->
  fst (switchMode_update projectRoot mode w) = Returned (Success tt) ->
  fst (loadConfig projectRoot w1) = Returned (Success c1) ->
  fst (buildClaudeMd render c1 projectRoot w1) = Returned (Success path) ->
  let r := switchMode render projectRoot mode w in
  fst r = Returned (Success (mkSwitchResult mode mode path))
  /\ path = getClaudeMdPath projectRoot
  /\ files (snd r) !! getClaudeMdPath projectRoot
     = Some (mkFile (Text (render c1)) (clock w + 1))
  /\ journal (snd r)
     = getClaudeMdPath projectRoot :: getProjectConfigPath projectRoot
         :: journal w.
Proof.
  intros w1 Hinit Hload Hmode Hupd Hreload Hbuild r.
  apply fst_isProjectInitialized in Hinit.
  apply fst_loadConfig in Hload, Hreload.
  apply pair_fst_snd in Hupd. fold w1 in Hupd.
  destruct (buildClaudeMd_cases render c1 projectRoot w1) as [Hb|[e Hb]];
    rewrite Hb in Hbuild; cbn in Hbuild; [|discriminate].
  injection Hbuild as <-.
  assert (Hr : r = (Returned (Success (mkSwitchResult mode mode
                                         (getClaudeMdPath projectRoot))),
                    written w1 (getClaudeMdPath projectRoot)
                            (Text (render c1)))).
  { subst r. rewrite switchMode_eq, Hinit, Hload, Hupd, Hreload, Hb.
    now rewrite Hmode. }
  rewrite Hr. cbn [fst snd].
  destruct (switchMode_update_success _ _ _ _ Hupd) as (d & _ & Hw1).
  repeat split.
  - unfold written at 1; cbn [files]. rewrite lookup_insert_eq.
    now rewrite Hw1.
  - unfold written at 1; cbn [journal]. now rewrite Hw1.
Qed.

Lemma switchMode_same_mode_witness :
  let r := switchMode Sample.render Sample.root learning Sample.initialized in
  fst r = Returned (Success (mkSwitchResult learning learning
                               (getClaudeMdPath Sample.root)))
  /\ getClaudeMdPath Sample.root = getClaudeMdPath Sample.root
  /\ files (snd r) !! getClaudeMdPath Sample.root
     = Some (mkFile (Text "# Mode: learning") 101)
  /\ journal (snd r)
     = [getClaudeMdPath Sample.root; getProjectConfigPath Sample.root].
Proof.
  apply (switchMode_same_mode Sample.render Sample.root learning
           Sample.initialized
           (MergedConfig.mk learning None None (Some "foo") None ["x"]
                            ck_pre [std_typescript])
           (MergedConfig.mk learning None None (Some "foo") None ["x"]
                            ck_pre [std_typescript])
           (getClaudeMdPath Sample.root));
    vm_compute; reflexivity.
Defined.

(** C6 as stated fails where the project config file may not be written:
    the project is initialised and its merged mode is already "learning",
    yet switchMode to "learning" fails and no document is written. *)
Lemma switchMode_same_mode_readonly_fails :
  let w := Sample.configReadonly in
  let r := switchMode Sample.render Sample.root learning w in
  fst (isProjectInitialized Sample.root w) = Returned true
  /\ (exists c, fst (loadConfig Sample.root w) = Returned (Success c)
                /\ MergedConfig.mode c = learning)
  /\ fst r = Returned (Failure (Errno "EACCES" (getProjectConfigPath Sample.root)))
  /\ (forall res, fst r <> Returned (Success res))
  /\ files (snd r) !! getClaudeMdPath Sample.root = None.
Proof.
  cbv zeta. split; [vm_compute; reflexivity|]. split.
  { exists (MergedConfig.mk learning None None (Some "foo") None ["x"]
                            ck_pre [std_typescript]).
    split; vm_compute; reflexivity. }
  split; [vm_compute; reflexivity|]. split.
  - intros res. vm_compute. discriminate.
  - vm_compute. reflexivity.
Qed.

(** ** The two update paths *)

Lemma updateMode_eq (projectRoot : string) (mode : Mode) (w : World) :
  updateMode projectRoot mode w =
  match projectAt w projectRoot with
  | Failure e => (Returned (Failure e), w)
  | Success d =>
      writeProjectConfig projectRoot
        (projectValue (ProjectConfig.withMode (d ?? ProjectConfig.empty) mode)) w
  end.
Proof.
  unfold updateMode, bind. rewrite readProjectConfig_eq.
  now destruct (projectAt w projectRoot).
Qed.

(** What reading the project config gives where the file holds a JSON
    object that may be reached and read. *)
Lemma projectAt_stored (w : World) (projectRoot : string)
    (props : list (string * value)) (at_ : Z) :
  files w !! getProjectConfigPath projectRoot
  = Some (mkFile (Json (VObj props)) at_) ->
  getProjectConfigPath projectRoot ∉ denied w ->
  getProjectConfigPath projectRoot ∉ unreadable w ->
  projectAt w projectRoot
  = match ProjectConfigSchema (VObj props) with
    | Some p => Success (Some p)
    | None => Failure ZodError
    end.
Proof.
  intros Hfile Hden Hrd. unfold projectAt, jsonAt, accessible.
  rewrite Hfile.
  rewrite bool_decide_eq_true_2 by assumption.
  rewrite bool_decide_eq_true_2 by (eexists; reflexivity).
  rewrite bool_decide_eq_false_2 by assumption.
  cbn [andb content]. now destruct (ProjectConfigSchema (VObj props)).
Qed.

(** C9: updateMode and the read-spread-write step of switchMode are the
    same update.  They give the same result and the same world; when
    switchMode gets as far as that step, the project config file it
    leaves is the one updateMode leaves; when the update goes through on
    a stored JSON object, that file holds the record the schema reads
    from the object with its mode replaced and every other field kept,
    and it reads back as that record; and when it goes through where no
    project config is found, the file holds the mode alone. *)
Theorem updateMode_switchMode_equivalent (render : MergedConfig.t -> string)
    (projectRoot : string) (mode : Mode) (w : World) :
  let path := getProjectConfigPath projectRoot in
  let after := snd (updateMode projectRoot mode w) in
  updateMode projectRoot mode w = switchMode_update projectRoot mode w
  /\ (fst (isProjectInitialized projectRoot w) = Returned true ->
      (exists c0, fst (loadConfig projectRoot w) = Returned (Success c0)) ->
      files (snd (switchMode render projectRoot mode w)) !! path
      = files after !! path)
  /\ (forall (props : list (string * value)) (at_ : Z) (p : ProjectConfig.t),
        files w !! path = Some (mkFile (Json (VObj props)) at_) ->
        path ∉ denied w ->
        path ∉ unreadable w ->
        ProjectConfigSchema (VObj props) = Some p ->
        fst (updateMode projectRoot mode w) = Returned (Success tt) ->
        let kept :=
          ProjectConfig.mk (Some mode)
                           (ProjectConfig.projectName p)
                           (ProjectConfig.template p)
                           (ProjectConfig.customPrompts p)
                           (ProjectConfig.includeSecurityChecklist p)
                           (ProjectConfig.includeStandards p) in
        files after !! path
        = Some (mkFile (stringify (projectValue kept)) (clock w))
        /\ fst (readProjectConfig projectRoot after)
           = Returned (Success (Some kept)))
  /\ (fst (isProjectInitialized projectRoot w) = Returned false ->
      fst (updateMode projectRoot mode w) = Returned (Success tt) ->
      files after !! path
      = Some (mkFile (Json (VObj [("mode", VStr (modeName mode))])) (clock w))).
Proof.
  intros path after.
  assert (Hsame : updateMode projectRoot mode w
                  = switchMode_update projectRoot mode w).
  { rewrite updateMode_eq, switchMode_update_eq.
    destruct (projectAt w projectRoot) as [d|e]; [|reflexivity].
    cbv zeta.
    destruct (writeProjectConfig_cases projectRoot
                (ProjectConfig.withMode (d ?? ProjectConfig.empty) mode) w)
      as [Hw|(e & w' & Hw & _)]; now rewrite Hw. }
  assert (Hgoes : forall d,
    projectAt w projectRoot = Success d ->
    fst (updateMode projectRoot mode w) = Returned (Success tt) ->
    after = saved w path
              (stringify (projectValue
                 (ProjectConfig.withMode (d ?? ProjectConfig.empty) mode)))).
  { intros d Hd Hok. subst after. rewrite Hsame in Hok |- *.
    apply pair_fst_snd in Hok.
    destruct (switchMode_update_success _ _ _ _ Hok) as (d' & Hd' & Hw1).
    rewrite Hd in Hd'. injection Hd' as <-. exact Hw1. }
  split; [exact Hsame|]. split; [|split].
  - intros Hinit [c0 Hload].
    apply fst_isProjectInitialized in Hinit.
    apply fst_loadConfig in Hload.
    subst after. rewrite Hsame, switchMode_eq, Hinit, Hload.
    destruct (switchMode_update projectRoot mode w) as [[[u|e]|e] w1];
      try reflexivity.
    destruct (mergedAt w1 projectRoot) as [c1|e]; [|reflexivity].
    destruct (buildClaudeMd_cases render c1 projectRoot w1) as [Hb|[e Hb]];
      rewrite Hb; [|reflexivity].
    cbn [snd]. unfold written; cbn [files].
    apply lookup_insert_ne, claudeMd_not_config.
  - intros props at_ p Hfile Hden Hrd Hp Hok kept.
    assert (Hd : projectAt w projectRoot = Success (Some p))
      by now rewrite (projectAt_stored _ _ _ _ Hfile Hden Hrd), Hp.
    rewrite (Hgoes _ Hd Hok).
    change (ProjectConfig.withMode (Some p ?? ProjectConfig.empty) mode)
      with kept.
    split.
    + unfold saved, written; cbn [files]. apply lookup_insert_eq.
    + rewrite readProjectConfig_eq. cbn [fst]. f_equal.
      now apply projectAt_saved.
  - intros Hinit Hok. apply fst_isProjectInitialized in Hinit.
    assert (Hd : projectAt w projectRoot = Success None)
      by (unfold projectAt; now rewrite Hinit).
    rewrite (Hgoes _ Hd Hok).
    unfold saved, written; cbn [files]. rewrite lookup_insert_eq.
    reflexivity.
Qed.

Lemma updateMode_switchMode_equivalent_witness :
  files (snd (switchMode Sample.render Sample.root expert Sample.initialized))
    !! getProjectConfigPath Sample.root
  = files (snd (updateMode Sample.root expert Sample.initialized))
      !! getProjectConfigPath Sample.root
  /\ files (snd (updateMode Sample.root expert Sample.initialized))
       !! getProjectConfigPath Sample.root
     = Some (mkFile (Json (VObj [("mode", VStr "expert");
                                 ("projectName", VStr "foo");
                                 ("customPrompts", VArr [VStr "x"])])) 100)
  /\ fst (readProjectConfig Sample.root
            (snd (updateMode Sample.root expert Sample.initialized)))
     = Returned (Success (Some (ProjectConfig.mk (Some expert) (Some "foo")
                                                 None (Some ["x"]) None None)))
  /\ files (snd (updateMode Sample.root expert Sample.blank))
       !! getProjectConfigPath Sample.root
     = Some (mkFile (Json (VObj [("mode", VStr "expert")])) 100).
Proof.
  destruct (updateMode_switchMode_equivalent Sample.render Sample.root expert
              Sample.initialized) as (_ & Hfile & Hstored & _).
  destruct (updateMode_switchMode_equivalent Sample.render Sample.root expert
              Sample.blank) as (_ & _ & _ & Hblank).
  destruct (Hstored [("mode", VStr "learning"); ("projectName", VStr "foo");
                     ("customPrompts", VArr [VStr "x"])] 10%Z Sample.project)
    as [Hcontent Hback].
  { vm_compute. reflexivity. }
  { vm_compute. discriminate. }
  { vm_compute. discriminate. }
  { reflexivity. }
  { vm_compute. reflexivity. }
  split; [|split; [exact Hcontent|split; [exact Hback|]]].
  - apply Hfile.
    + vm_compute. reflexivity.
    + exists (MergedConfig.mk learning None None (Some "foo") None ["x"]
                              ck_pre [std_typescript]).
      vm_compute. reflexivity.
  - apply Hblank.
    + vm_compute. reflexivity.
    + vm_compute. reflexivity.
Defined.

(** ** The staleness check *)

Lemma stat_cases (path : string) (w : World) :
  (exists t, stat path w = (Returned t, w)
             /\ exists f, files w !! path = Some f /\ mtime f = t)
  \/ (exists e, stat path w = (Thrown e, w)).
Proof.
  unfold stat. destruct (files w !! path) as [f|].
  - destruct (bool_decide (path ∈ denied w)).
    + right. eexists. reflexivity.
    + left. exists (mtime f). split; [reflexivity|]. now exists f.
  - right. eexists. reflexivity.
Qed.

Lemma needsRegeneration_eq (projectRoot : string) (w : World) :
  needsRegeneration projectRoot w =
  match fst (stat (getProjectConfigPath projectRoot) w),
        fst (stat (getClaudeMdPath projectRoot) w) with
  | Returned c, Returned d => (Returned (d <? c)%Z, w)
  | _, _ => (Returned true, w)
  end.
Proof.
  unfold needsRegeneration, tryCatch, bind.
  destruct (stat_cases (getProjectConfigPath projectRoot) w)
    as [(c & -> & _)|[e ->]]; cbn [fst]; [|reflexivity].
  destruct (stat_cases (getClaudeMdPath projectRoot) w)
    as [(d & -> & _)|[e ->]]; reflexivity.
Qed.

(** C7: needsRegeneration answers true when the derived document does
    not exist, true when the project config was modified strictly after
    the document, false when the document was modified strictly after
    the config, and true whenever one of the two files cannot be
    stat'd. *)
Theorem needsRegeneration_spec (projectRoot : string) (w : World) :
  (files w !! getClaudeMdPath projectRoot = None ->
   fst (needsRegeneration projectRoot w) = Returned true)
  /\ (forall c d : Z,
        fst (stat (getProjectConfigPath projectRoot) w) = Returned c ->
        fst (stat (getClaudeMdPath projectRoot) w) = Returned d ->
        ((d < c)%Z -> fst (needsRegeneration projectRoot w) = Returned true)
        /\ ((c < d)%Z -> fst (needsRegeneration projectRoot w) = Returned false))
  /\ ((exists e, fst (stat (getProjectConfigPath projectRoot) w) = Thrown e)
      \/ (exists e, fst (stat (getClaudeMdPath projectRoot) w) = Thrown e) ->
      fst (needsRegeneration projectRoot w) = Returned true)
  /\ snd (needsRegeneration projectRoot w) = w.
Proof.
  rewrite needsRegeneration_eq.
  split; [|split; [|split]].
  - intros Habsent.
    assert (Hd : fst (stat (getClaudeMdPath projectRoot) w)
                 = Thrown (Errno "ENOENT" (getClaudeMdPath projectRoot))).
    { unfold stat. now rewrite Habsent. }
    rewrite Hd.
    now destruct (fst (stat (getProjectConfigPath projectRoot) w)).
  - intros c d -> ->. cbn [fst]. split; intros Hlt; f_equal.
    + now apply Z.ltb_lt.
    + apply Z.ltb_ge. lia.
  - intros [[e ->]|[e ->]]; [reflexivity|].
    now destruct (fst (stat (getProjectConfigPath projectRoot) w)).
  - destruct (fst (stat (getProjectConfigPath projectRoot) w));
      destruct (fst (stat (getClaudeMdPath projectRoot) w)); reflexivity.
Qed.

Lemma needsRegeneration_spec_witness :
  fst (needsRegeneration Sample.root Sample.initialized) = Returned true
  /\ fst (needsRegeneration Sample.root Sample.stale) = Returned true
  /\ fst (needsRegeneration Sample.root Sample.fresh) = Returned false
  /\ fst (needsRegeneration Sample.root Sample.documentDenied) = Returned true.
Proof.
  split; [|split; [|split]].
  - apply (proj1 (needsRegeneration_spec Sample.root Sample.initialized)).
    vm_compute. reflexivity.
  - apply (proj1 (proj2 (needsRegeneration_spec Sample.root Sample.stale))
             10%Z 5%Z); [vm_compute; reflexivity..|lia].
  - apply (proj1 (proj2 (needsRegeneration_spec Sample.root Sample.fresh))
             10%Z 15%Z); [vm_compute; reflexivity..|lia].
  - apply (proj1 (proj2 (proj2
             (needsRegeneration_spec Sample.root Sample.documentDenied)))).
    right. exists (Errno "EACCES" (getClaudeMdPath Sample.root)).
    vm_compute. reflexivity.
Defined.

(** ** Validation before writing *)

Lemma writeProjectConfig_invalid (projectRoot : string) (config : value)
    (w : World) :
  ProjectConfigSchema config = None ->
  writeProjectConfig projectRoot config w = (Thrown ZodError, w).
Proof. intros H. unfold writeProjectConfig, bind, parse. now rewrite H. Qed.

Lemma writeGlobalConfig_invalid (config : value) (w : World) :
  GlobalConfigSchema config = None ->
  writeGlobalConfig config w = (Thrown ZodError, w).
Proof. intros H. unfold writeGlobalConfig, bind, parse. now rewrite H. Qed.

(** C5 on the code: a project config with mode "turbo" and a global
    config with defaultMode "turbo" violate their schemas; both write
    functions reject them before anything is serialised and leave the
    world as it is, but the rejection is the ZodError thrown by
    schema.parse (a rejected promise), not a failure result. *)
Theorem write_invalid_config_throws (projectRoot : string) (w : World) :
  let badProject := VObj [("mode", VStr "turbo")] in
  let badGlobal := VObj [("defaultMode", VStr "turbo")] in
  ProjectConfigSchema badProject = None
  /\ GlobalConfigSchema badGlobal = None
  /\ writeProjectConfig projectRoot badProject w = (Thrown ZodError, w)
  /\ writeGlobalConfig badGlobal w = (Thrown ZodError, w)
  /\ (forall e, fst (writeProjectConfig projectRoot badProject w)
                <> Returned (Failure e))
  /\ (forall e, fst (writeGlobalConfig badGlobal w) <> Returned (Failure e)).
Proof.
  cbv zeta.
  assert (Hp : ProjectConfigSchema (VObj [("mode", VStr "turbo")]) = None)
    by reflexivity.
  assert (Hg : GlobalConfigSchema (VObj [("defaultMode", VStr "turbo")]) = None)
    by reflexivity.
  rewrite (writeProjectConfig_invalid _ _ _ Hp).
  rewrite (writeGlobalConfig_invalid _ _ Hg).
  repeat split; try assumption; intros e; discriminate.
Qed.

(** ** Exit codes *)

Lemma startCommand_not_initialized (render : MergedConfig.t -> string)
    (run : option string -> string -> IO (Result Z))
    (options : StartOptions) (w : World) :
  accessible w (getProjectConfigPath (cwd w)) = false ->
  startCommand render run options w = (Returned ExitCode.CONFIG_ERROR, w).
Proof.
  intros H. unfold startCommand, bind.
  now rewrite isProjectInitialized_eq, H.
Qed.

(** startCommand once the project is known to be initialised and the
    optional mode switch is behind it, started in the world [w1] the
    switch left. *)
Lemma startCommand_after_switch (render : MergedConfig.t -> string)
    (run : option string -> string -> IO (Result Z))
    (options : StartOptions) (w : World) :
  let projectRoot := cwd w in
  let w1 := match opt_mode options with
            | Some m => snd (switchMode render projectRoot m w)
            | None => w
            end in
  accessible w (getProjectConfigPath projectRoot) = true ->
  match opt_mode options with
  | Some m => exists res, fst (switchMode render projectRoot m w)
                          = Returned (Success res)
  | None => True
  end ->
  startCommand render run options w =
  match mergedAt w1 projectRoot with
  | Failure _ => (Returned ExitCode.CONFIG_ERROR, w1)
  | Success config =>
      let launch (w2 : World) :=
        match run (MergedConfig.claudeCodePath config) projectRoot w2 with
        | (Returned (Success code), w3) => (Returned code, w3)
        | (Returned (Failure _), w3) => (Returned ExitCode.GENERAL_ERROR, w3)
        | (Thrown e, w3) => (Thrown e, w3)
        end in
      let shouldRegenerate :=
        match opt_regenerate options with
        | Some true => true
        | _ => match fst (needsRegeneration projectRoot w1) with
               | Returned b => b
               | Thrown _ => true
               end
        end in
      if shouldRegenerate then
        match buildClaudeMd render config projectRoot w1 with
        | (Returned (Success _), w2) => launch w2
        | (Returned (Failure _), w2) => (Returned ExitCode.GENERAL_ERROR, w2)
        | (Thrown e, w2) => (Thrown e, w2)
        end
      else launch w1
  end.
Proof.
  intros projectRoot w1 Hinit Hswitch.
  unfold startCommand. fold projectRoot. unfold bind at 1.
  rewrite isProjectInitialized_eq, Hinit. cbn [negb].
  assert (Hrest : forall w',
    (do configResult <- loadConfig projectRoot;
     match configResult with
     | Failure _ => ret ExitCode.CONFIG_ERROR
     | Success config =>
         let launch : IO Z :=
           do launchResult <-
             run (MergedConfig.claudeCodePath config) projectRoot;
           match launchResult with
           | Failure _ => ret ExitCode.GENERAL_ERROR
           | Success code => ret code
           end in
         do shouldRegenerate <-
           match opt_regenerate options with
           | Some true => ret true
           | _ => needsRegeneration projectRoot
           end;
         if shouldRegenerate : bool then
           (do buildResult <- buildClaudeMd render config projectRoot;
            match buildResult with
            | Failure _ => ret ExitCode.GENERAL_ERROR
            | Success _ => launch
            end)
         else launch
     end) w' =
    match mergedAt w' projectRoot with
    | Failure _ => (Returned ExitCode.CONFIG_ERROR, w')
    | Success config =>
        let launch (w2 : World) :=
          match run (MergedConfig.claudeCodePath config) projectRoot w2 with
          | (Returned (Success code), w3) => (Returned code, w3)
          | (Returned (Failure _), w3) => (Returned ExitCode.GENERAL_ERROR, w3)
          | (Thrown e, w3) => (Thrown e, w3)
          end in
        let shouldRegenerate :=
          match opt_regenerate options with
          | Some true => true
          | _ => match fst (needsRegeneration projectRoot w') with
                 | Returned b => b
                 | Thrown _ => true
                 end
          end in
        if shouldRegenerate then
          match buildClaudeMd render config projectRoot w' with
          | (Returned (Success _), w2) => launch w2
          | (Returned (Failure _), w2) => (Returned ExitCode.GENERAL_ERROR, w2)
          | (Thrown e, w2) => (Thrown e, w2)
          end
        else launch w'
    end).
  { intros w'. unfold bind at 1. rewrite loadConfig_eq.
    destruct (mergedAt w' projectRoot) as [config|e]; [|reflexivity].
    cbv zeta.
    assert (Hlaunch : forall w2,
      (do launchResult <- run (MergedConfig.claudeCodePath config) projectRoot;
       match launchResult with
       | Failure _ => ret ExitCode.GENERAL_ERROR
       | Success code => ret code
       end) w2 =
      match run (MergedConfig.claudeCodePath config) projectRoot w2 with
      | (Returned (Success code), w3) => (Returned code, w3)
      | (Returned (Failure _), w3) => (Returned ExitCode.GENERAL_ERROR, w3)
      | (Thrown e, w3) => (Thrown e, w3)
      end).
    { intros w2. unfold bind.
      destruct (run _ projectRoot w2) as [[[code|e]|e] w3]; reflexivity. }
    assert (Hbuild :
      (do buildResult <- buildClaudeMd render config projectRoot;
       match buildResult with
       | Failure _ => ret ExitCode.GENERAL_ERROR
       | Success _ =>
           do launchResult <-
             run (MergedConfig.claudeCodePath config) projectRoot;
           match launchResult with
           | Failure _ => ret ExitCode.GENERAL_ERROR
           | Success code => ret code
           end
       end) w' =
      match buildClaudeMd render config projectRoot w' with
      | (Returned (Success _), w2) =>
          match run (MergedConfig.claudeCodePath config) projectRoot w2 with
          | (Returned (Success code), w3) => (Returned code, w3)
          | (Returned (Failure _), w3) => (Returned ExitCode.GENERAL_ERROR, w3)
          | (Thrown e, w3) => (Thrown e, w3)
          end
      | (Returned (Failure _), w2) => (Returned ExitCode.GENERAL_ERROR, w2)
      | (Thrown e, w2) => (Thrown e, w2)
      end).
    { unfold bind at 1.
      destruct (buildClaudeMd render config projectRoot w')
        as [[[p|e]|e] w2]; try reflexivity.
      apply Hlaunch. }
    unfold bind at 1.
    destruct (opt_regenerate options) as [[|]|].
    - unfold ret at 1. exact Hbuild.
    - rewrite needsRegeneration_eq.
      destruct (fst (stat (getProjectConfigPath projectRoot) w')) as [c|e];
        [destruct (fst (stat (getClaudeMdPath projectRoot) w')) as [d|e]|];
        cbn [fst]; try exact Hbuild.
      destruct (d <? c)%Z; [exact Hbuild|apply Hlaunch].
    - rewrite needsRegeneration_eq.
      destruct (fst (stat (getProjectConfigPath projectRoot) w')) as [c|e];
        [destruct (fst (stat (getClaudeMdPath projectRoot) w')) as [d|e]|];
        cbn [fst]; try exact Hbuild.
      destruct (d <? c)%Z; [exact Hbuild|apply Hlaunch]. }
  cbv zeta. subst w1.
  destruct (opt_mode options) as [m|].
  - destruct Hswitch as [res Hres]. unfold bind at 1.
    destruct (switchMode render projectRoot m w) as [o w'].
    cbn in Hres. subst o. cbn [snd]. apply Hrest.
  - apply Hrest.
Qed.

Lemma modeCommand_eq (render : MergedConfig.t -> string)
    (newMode : option string) (w : World) :
  let projectRoot := cwd w in
  modeCommand render newMode w =
  if accessible w (getProjectConfigPath projectRoot) then
    match newMode with
    | None | Some "" =>
        match mergedAt w projectRoot with
        | Failure _ => (Returned ExitCode.CONFIG_ERROR, w)
        | Success _ => (Returned ExitCode.SUCCESS, w)
        end
    | Some s =>
        match ModeSchema (VStr s) with
        | None => (Returned ExitCode.INVALID_ARGUMENT, w)
        | Some m =>
            match switchMode render projectRoot m w with
            | (Returned (Success _), w1) => (Returned ExitCode.SUCCESS, w1)
            | (Returned (Failure _), w1) => (Returned ExitCode.CONFIG_ERROR, w1)
            | (Thrown e, w1) => (Thrown e, w1)
            end
        end
    end
  else (Returned ExitCode.CONFIG_ERROR, w).
Proof.
  intros projectRoot. unfold modeCommand. fold projectRoot. unfold bind at 1.
  rewrite isProjectInitialized_eq.
  destruct (accessible w (getProjectConfigPath projectRoot)) eqn:Hacc;
    [|reflexivity].
  cbn [negb].
  assert (Hshow :
    (do shown <- showCurrentMode projectRoot;
     match shown with
     | Exited code => ret code
     | Continue _ => ret ExitCode.SUCCESS
     end) w =
    match mergedAt w projectRoot with
    | Failure _ => (Returned ExitCode.CONFIG_ERROR, w)
    | Success _ => (Returned ExitCode.SUCCESS, w)
    end).
  { unfold showCurrentMode, getCurrentMode, bind.
    rewrite isProjectInitialized_eq, Hacc. cbn [negb].
    rewrite loadConfig_eq.
    destruct (mergedAt w projectRoot); reflexivity. }
  assert (Hchange : forall s,
    changeMode render projectRoot s w =
    match ModeSchema (VStr s) with
    | None => (Returned ExitCode.INVALID_ARGUMENT, w)
    | Some m =>
        match switchMode render projectRoot m w with
        | (Returned (Success _), w1) => (Returned ExitCode.SUCCESS, w1)
        | (Returned (Failure _), w1) => (Returned ExitCode.CONFIG_ERROR, w1)
        | (Thrown e, w1) => (Thrown e, w1)
        end
    end).
  { intros s. unfold changeMode, parseMode.
    destruct (ModeSchema (VStr s)) as [m|]; [|reflexivity].
    unfold bind.
    destruct (switchMode render projectRoot m w) as [[[res|e]|e] w1];
      reflexivity. }
  destruct newMode as [[|c s]|]; try exact Hshow.
  apply Hchange.
Qed.


(** * Further properties of the code *)

(** ** The schemas *)

Lemma ModeSchema_inv (v : value) (m : Mode) :
  ModeSchema v = Some m -> v = VStr (modeName m).
Proof.
  destruct v; try discriminate.
  unfold ModeSchema, zEnum. cbn [List.find modeName].
  repeat match goal with
    | |- context [String.eqb ?a s] =>
        destruct (String.eqb_spec a s); [subst; intros [= <-]; reflexivity|]
    end.
  discriminate.
Qed.

Lemma ChecklistTypeSchema_inv (v : value) (c : ChecklistType) :
  ChecklistTypeSchema v = Some c -> v = VStr (checklistName c).
Proof.
  destruct v; try discriminate.
  unfold ChecklistTypeSchema, zEnum. cbn [List.find checklistName].
  repeat match goal with
    | |- context [String.eqb ?a s] =>
        destruct (String.eqb_spec a s); [subst; intros [= <-]; reflexivity|]
    end.
  discriminate.
Qed.

Lemma StandardTypeSchema_inv (v : value) (st : StandardType) :
  StandardTypeSchema v = Some st -> v = VStr (standardName st).
Proof.
  destruct v; try discriminate.
  unfold StandardTypeSchema, zEnum. cbn [List.find standardName].
  repeat match goal with
    | |- context [String.eqb ?a s] =>
        destruct (String.eqb_spec a s); [subst; intros [= <-]; reflexivity|]
    end.
  discriminate.
Qed.

(** X1: the three enum schemas are closed: each accepts exactly the
    strings naming a member of its enumeration, and gives that member. *)
Theorem enum_schemas_closed (v : value) :
  (forall m, ModeSchema v = Some m <-> v = VStr (modeName m))
  /\ (forall c, ChecklistTypeSchema v = Some c <-> v = VStr (checklistName c))
  /\ (forall s, StandardTypeSchema v = Some s <-> v = VStr (standardName s)).
Proof.
  split; [|split].
  - intros m. split; [apply ModeSchema_inv|].
    intros ->. apply ModeSchema_modeValue.
  - intros c. split; [apply ChecklistTypeSchema_inv|].
    intros ->. apply ChecklistTypeSchema_checklistValue.
  - intros st. split; [apply StandardTypeSchema_inv|].
    intros ->. apply StandardTypeSchema_name.
Qed.

Lemma parseMode_name (s : string) (m : Mode) :
  parseMode s = Success m <-> s = modeName m.
Proof.
  unfold parseMode. split.
  - destruct (ModeSchema (VStr s)) as [m'|] eqn:H; [|discriminate].
    intros [= <-]. apply ModeSchema_inv in H. now injection H.
  - intros ->. now destruct m.
Qed.

(** X2: the validators of a mode string agree.  parseMode succeeds
    exactly on the three names (case-sensitive, no trimming); isValidMode
    says the same; validateModeOption lets through what parseMode
    accepts and exits with 2 on what it rejects. *)
Theorem mode_validators_agree (s : string) :
  (forall m, parseMode s = Success m <-> s = modeName m)
  /\ isValidMode (VStr s) = isSuccess (parseMode s)
  /\ validateModeOption (Some s)
     = match parseMode s with
       | Success m => Continue (Some m)
       | Failure _ => Exited ExitCode.INVALID_ARGUMENT
       end.
Proof.
  split; [intros m; apply parseMode_name|].
  unfold isValidMode, validateModeOption, parseMode.
  now destruct (ModeSchema (VStr s)).
Qed.

(** ** The global config *)

Lemma GlobalConfigSchema_resolved (v : value) (g : GlobalConfig.t) :
  GlobalConfigSchema v = Some g ->
  exists cl st,
    GlobalConfig.includeSecurityChecklist g = Some cl
    /\ GlobalConfig.includeStandards g = Some st.
Proof.
  unfold GlobalConfigSchema. destruct v; try discriminate.
  destruct (zDefault ModeSchema guided _); [|discriminate].
  destruct (zOptional zString (getProp "editor" props)); [|discriminate].
  destruct (zOptional zString _); [|discriminate].
  destruct (zDefault ChecklistTypeSchema _ _) as [cl|]; [|discriminate].
  destruct (zDefault (zArray StandardTypeSchema) _ _) as [st|]; [|discriminate].
  intros [= <-]. now exists cl, st.
Qed.

Lemma globalAt_resolved (w : World) (g : GlobalConfig.t) :
  globalAt w = Success g ->
  exists cl st,
    GlobalConfig.includeSecurityChecklist g = Some cl
    /\ GlobalConfig.includeStandards g = Some st.
Proof.
  unfold globalAt, jsonAt.
  destruct (accessible w (getGlobalConfigPath w)).
  - destruct (files w !! getGlobalConfigPath w) as [f|]; [|discriminate].
    destruct (bool_decide _); [discriminate|].
    destruct (content f) as [v|]; [|discriminate].
    destruct (GlobalConfigSchema v) as [g'|] eqn:Hv; [|discriminate].
    intros [= <-]. now apply (GlobalConfigSchema_resolved v).
  - intros [= <-]. now exists ck_pre, [std_typescript].
Qed.

(** X3: a global config that readGlobalConfig gives back always has its
    checklist and its standards defined (from the file, from the schema
    defaults, or from the defaults used when there is no file), so the
    merge never falls through to its own hard-coded third choice: the
    merged checklist and standards are the project's when defined, else
    the global ones. *)
Theorem readGlobalConfig_resolved (w : World) (g : GlobalConfig.t)
    (project : option ProjectConfig.t) :
  fst (readGlobalConfig w) = Returned (Success g) ->
  exists cl st,
    GlobalConfig.includeSecurityChecklist g = Some cl
    /\ GlobalConfig.includeStandards g = Some st
    /\ MergedConfig.includeSecurityChecklist (mergeConfigs g project)
       = (project ≫= ProjectConfig.includeSecurityChecklist) ?? cl
    /\ MergedConfig.includeStandards (mergeConfigs g project)
       = (project ≫= ProjectConfig.includeStandards) ?? st.
Proof.
  rewrite readGlobalConfig_eq. cbn [fst]. intros [= Hg].
  destruct (globalAt_resolved w g Hg) as (cl & st & Hcl & Hst).
  exists cl, st. repeat split; try assumption.
  - cbn. rewrite Hcl. now destruct (project ≫= ProjectConfig.includeSecurityChecklist).
  - cbn. rewrite Hst. now destruct (project ≫= ProjectConfig.includeStandards).
Qed.

Lemma readGlobalConfig_resolved_witness :
  MergedConfig.includeSecurityChecklist
    (mergeConfigs (GlobalConfig.mk guided None None (Some ck_pre)
                                   (Some [std_typescript])) None) = ck_pre.
Proof.
  destruct (readGlobalConfig_resolved Sample.blank
              (GlobalConfig.mk guided None None (Some ck_pre)
                               (Some [std_typescript])) None)
    as (cl & st & Hcl & _ & Hm & _).
  - vm_compute. reflexivity.
  - rewrite Hm. injection Hcl as <-. reflexivity.
Defined.

(** X4: reading the configuration never throws and never changes the
    world, whatever the files hold and whatever may be reached or read:
    every failure comes back as a result value. *)
Theorem config_reads_are_safe (projectRoot : string) (w : World) :
  (exists r, readGlobalConfig w = (Returned r, w))
  /\ (exists r, readProjectConfig projectRoot w = (Returned r, w))
  /\ (exists r, loadConfig projectRoot w = (Returned r, w))
  /\ (exists b, isProjectInitialized projectRoot w = (Returned b, w))
  /\ (exists m, ConfigManager.getCurrentMode projectRoot w = (Returned m, w))
  /\ (exists r, getCurrentMode projectRoot w = (Returned r, w)).
Proof.
  repeat split.
  - eexists. apply readGlobalConfig_eq.
  - eexists. apply readProjectConfig_eq.
  - eexists. apply loadConfig_eq.
  - eexists. apply isProjectInitialized_eq.
  - unfold ConfigManager.getCurrentMode, bind. rewrite loadConfig_eq.
    destruct (mergedAt w projectRoot); eexists; reflexivity.
  - unfold getCurrentMode, bind. rewrite isProjectInitialized_eq.
    destruct (accessible w (getProjectConfigPath projectRoot)); cbn [negb].
    + rewrite loadConfig_eq.
      destruct (mergedAt w projectRoot); eexists; reflexivity.
    + eexists. reflexivity.
Qed.

Lemma zDefault_optValue {A : Type} (inner : value -> option A)
    (f : A -> value) (d : A) (o : option A) :
  (forall a, inner (f a) = Some a) ->
  (forall a, f a <> VUndef) ->
  zDefault inner d (optValue f o) = Some (o ?? d).
Proof.
  intros Hin Hdef. destruct o as [a|]; cbn; [|reflexivity].
  specialize (Hin a). specialize (Hdef a).
  destruct (f a); try congruence; cbn; now rewrite Hin.
Qed.

(** Validating a typed global config fills in the schema defaults. *)
Lemma GlobalConfigSchema_globalValue (g : GlobalConfig.t) :
  GlobalConfigSchema (globalValue g) = Some (withGlobalDefaults g).
Proof.
  destruct g as [dm ed cp cl st].
  unfold GlobalConfigSchema, globalValue, withGlobalDefaults.
  cbn [getProp String.eqb Ascii.eqb Bool.eqb].
  cbn [GlobalConfig.defaultMode GlobalConfig.editor GlobalConfig.claudeCodePath
       GlobalConfig.includeSecurityChecklist GlobalConfig.includeStandards].
  change (modeValue dm) with (optValue modeValue (Some dm)).
  rewrite (zDefault_optValue ModeSchema modeValue guided (Some dm))
    by (intros; first [apply ModeSchema_modeValue | discriminate]).
  rewrite !(zOptional_optValue zString VStr)
    by (intros; first [reflexivity | discriminate]).
  rewrite (zDefault_optValue ChecklistTypeSchema checklistValue ck_pre cl)
    by (intros; first [apply ChecklistTypeSchema_checklistValue | discriminate]).
  rewrite (zDefault_optValue (zArray StandardTypeSchema) standardsValue
             [std_typescript] st)
    by (intros; first [apply zArray_standards | discriminate]).
  reflexivity.
Qed.

(** Reading back a serialised global config gives it with the defaults
    filled in. *)
Lemma GlobalConfigSchema_roundTrip (g : GlobalConfig.t) :
  GlobalConfigSchema (jsonRoundTrip (globalValue g))
  = Some (withGlobalDefaults g).
Proof.
  destruct g as [dm ed cp cl st].
  destruct ed, cp, cl, st;
    cbn -[ModeSchema ChecklistTypeSchema StandardTypeSchema zArray];
    repeat match goal with
      | |- context [List.map _ (List.map VStr ?l)] =>
          change (VArr (List.map (fun x => match x with
                                           | VUndef => VNull
                                           | _ => jsonRoundTrip x
                                           end) (List.map VStr l)))
            with (jsonRoundTrip (stringsValue l));
          rewrite jsonRoundTrip_strings
      | |- context [List.map _ (List.map _ ?l)] =>
          change (VArr (List.map (fun x => match x with
                                           | VUndef => VNull
                                           | _ => jsonRoundTrip x
                                           end)
                          (List.map (fun s => VStr (standardName s)) l)))
            with (jsonRoundTrip (standardsValue l));
          rewrite jsonRoundTrip_standards
      end;
    rewrite ?zArray_strings, ?zArray_standards;
    repeat match goal with
      | |- context [ModeSchema (VStr (modeName ?x))] =>
          change (VStr (modeName x)) with (modeValue x);
          rewrite ModeSchema_modeValue
      | |- context [ChecklistTypeSchema (VStr (checklistName ?x))] =>
          change (VStr (checklistName x)) with (checklistValue x);
          rewrite ChecklistTypeSchema_checklistValue
      end;
    reflexivity.
Qed.

Lemma withGlobalDefaults_idem (g : GlobalConfig.t) :
  withGlobalDefaults (withGlobalDefaults g) = withGlobalDefaults g.
Proof. destruct g as [dm ed cp cl st]. now destruct cl, st. Qed.

Lemma writeGlobalConfig_typed (g : GlobalConfig.t) (w : World) :
  writeGlobalConfig (globalValue g) w
  = writeJsonFile (getGlobalConfigPath w)
                  (globalValue (withGlobalDefaults g)) w.
Proof.
  unfold writeGlobalConfig, bind, parse.
  now rewrite GlobalConfigSchema_globalValue.
Qed.



(** Where the global config file may not be written and ~/.vibe has yet
    to be made, writeGlobalConfig fails after it made the directory. *)
Example writeGlobalConfig_refused_after_mkdir :
  let w := Sample.globalReadonly in
  let r := writeGlobalConfig
             (globalValue (GlobalConfig.mk expert None None None None)) w in
  fst r = Returned (Failure (Errno "EACCES" (getGlobalConfigPath w)))
  /\ files (snd r) = files w
  /\ (getGlobalConfigDir w ∉ dirs w)
  /\ (getGlobalConfigDir w ∈ dirs (snd r)).
Proof.
  cbv zeta. split; [vm_compute; reflexivity|]. split; [reflexivity|].
  split.
  - vm_compute. discriminate.
  - vm_compute. reflexivity.
Qed.

Lemma globalAt_written (w : World) (g : GlobalConfig.t) :
  getGlobalConfigPath w ∉ denied w ->
  getGlobalConfigPath w ∉ unreadable w ->
  globalAt (written w (getGlobalConfigPath w) (stringify (globalValue g)))
  = Success (withGlobalDefaults g).
Proof.
  intros Hden Hrd.
  change (stringify (globalValue g)) with (Json (jsonRoundTrip (globalValue g))).
  unfold globalAt, jsonAt, accessible.
  change (getGlobalConfigPath (written w (getGlobalConfigPath w)
                                 (Json (jsonRoundTrip (globalValue g)))))
    with (getGlobalConfigPath w).
  unfold written; cbn [files denied unreadable].
  rewrite lookup_insert_eq.
  rewrite bool_decide_eq_true_2 by assumption.
  rewrite bool_decide_eq_true_2 by (eexists; reflexivity).
  rewrite bool_decide_eq_false_2 by assumption.
  cbn [andb content]. now rewrite GlobalConfigSchema_roundTrip.
Qed.

Lemma globalAt_saved (w : World) (g : GlobalConfig.t) :
  getGlobalConfigPath w ∉ denied w ->
  getGlobalConfigPath w ∉ unreadable w ->
  globalAt (saved w (getGlobalConfigPath w) (stringify (globalValue g)))
  = Success (withGlobalDefaults g).
Proof.
  intros Hden Hrd. unfold saved.
  apply (globalAt_written (madeDir w (parentDir (getGlobalConfigPath w))) g);
    assumption.
Qed.

Lemma accessible_saved (w : World) (path : string) (c : Content) :
  path ∉ denied w -> accessible (saved w path c) path = true.
Proof.
  intros Hden. unfold accessible, saved, written; cbn [files denied].
  rewrite lookup_insert_eq.
  rewrite bool_decide_eq_true_2 by assumption.
  now rewrite bool_decide_eq_true_2 by (eexists; reflexivity).
Qed.

(** X6: a global config that was written reads back as written, with
    the schema defaults in place of an absent checklist or absent
    standards, provided the file may be reached and read. *)
Theorem global_config_round_trip (g : GlobalConfig.t) (w : World) :
  fst (writeGlobalConfig (globalValue g) w) = Returned (Success tt) ->
  getGlobalConfigPath w ∉ denied w ->
  getGlobalConfigPath w ∉ unreadable w ->
  fst (readGlobalConfig (snd (writeGlobalConfig (globalValue g) w)))
  = Returned (Success (withGlobalDefaults g)).
Proof.
  intros Hok Hden Hrd.
  rewrite writeGlobalConfig_typed in Hok |- *.
  destruct (writeJsonFile_cases (getGlobalConfigPath w)
              (globalValue (withGlobalDefaults g)) w)
    as [Hw|(e & w' & Hw & _)]; rewrite Hw in Hok |- *; [|discriminate].
  cbn [snd]. rewrite readGlobalConfig_eq. cbn [fst]. f_equal.
  rewrite globalAt_saved by assumption.
  now rewrite withGlobalDefaults_idem.
Qed.

Lemma global_config_round_trip_witness :
  fst (readGlobalConfig
         (snd (writeGlobalConfig
                 (globalValue (GlobalConfig.mk expert (Some "vim") None None None))
                 Sample.blank)))
  = Returned (Success (GlobalConfig.mk expert (Some "vim") None (Some ck_pre)
                                       (Some [std_typescript]))).
Proof.
  apply (global_config_round_trip
           (GlobalConfig.mk expert (Some "vim") None None None) Sample.blank).
  - vm_compute. reflexivity.
  - vm_compute. discriminate.
  - vm_compute. discriminate.
Defined.

(** ** The project config *)

Lemma project_config_round_trip_aux (projectRoot : string)
    (p : ProjectConfig.t) (w : World) :
  fst (writeProjectConfig projectRoot (projectValue p) w)
  = Returned (Success tt) ->
  getProjectConfigPath projectRoot ∉ denied w ->
  getProjectConfigPath projectRoot ∉ unreadable w ->
  fst (readProjectConfig projectRoot
         (snd (writeProjectConfig projectRoot (projectValue p) w)))
  = Returned (Success (Some p))
  /\ fst (isProjectInitialized projectRoot
            (snd (writeProjectConfig projectRoot (projectValue p) w)))
     = Returned true.
Proof.
  intros Hok Hden Hrd.
  destruct (writeProjectConfig_cases projectRoot p w)
    as [Hw|(e & w' & Hw & _)]; rewrite Hw in Hok |- *; [|discriminate].
  cbn [snd]. split.
  - rewrite readProjectConfig_eq. cbn [fst]. f_equal.
    now apply projectAt_saved.
  - rewrite isProjectInitialized_eq. cbn [fst]. f_equal.
    now apply accessible_saved.
Qed.

(** X7: a project config that was written reads back as the same
    record, and the project counts as initialised, provided the file may
    be reached and read. *)
Theorem project_config_round_trip (projectRoot : string) (p : ProjectConfig.t)
    (w : World) :
  fst (writeProjectConfig projectRoot (projectValue p) w)
  = Returned (Success tt) ->
  getProjectConfigPath projectRoot ∉ denied w ->
  getProjectConfigPath projectRoot ∉ unreadable w ->
  let w' := snd (writeProjectConfig projectRoot (projectValue p) w) in
  fst (readProjectConfig projectRoot w') = Returned (Success (Some p))
  /\ fst (isProjectInitialized projectRoot w') = Returned true.
Proof.
  intros Hok Hden Hrd w'. subst w'.
  now apply project_config_round_trip_aux.
Qed.

Lemma project_config_round_trip_witness :
  let w' := snd (writeProjectConfig Sample.root (projectValue Sample.project)
                   Sample.blank) in
  fst (readProjectConfig Sample.root w') = Returned (Success (Some Sample.project))
  /\ fst (isProjectInitialized Sample.root w') = Returned true.
Proof.
  apply (project_config_round_trip Sample.root Sample.project Sample.blank).
  - vm_compute. reflexivity.
  - vm_compute. discriminate.
  - vm_compute. discriminate.
Defined.

Lemma fst_readGlobalConfig (w : World) (r : Result GlobalConfig.t) :
  fst (readGlobalConfig w) = Returned r -> globalAt w = r.
Proof. rewrite readGlobalConfig_eq. cbn. now intros [= ->]. Qed.

Lemma initProject_eq (projectRoot : string) (options : option ProjectConfig.t)
    (w : World) :
  let config :=
    ProjectConfig.mk
      (Some ((options ≫= ProjectConfig.mode) ?? guided))
      (options ≫= ProjectConfig.projectName)
      (options ≫= ProjectConfig.template)
      (Some ((options ≫= ProjectConfig.customPrompts) ?? []))
      (Some ((options ≫= ProjectConfig.includeSecurityChecklist) ?? ck_pre))
      (Some ((options ≫= ProjectConfig.includeStandards) ?? [std_typescript])) in
  initProject projectRoot options w
    = (Returned (Success config),
       saved w (getProjectConfigPath projectRoot)
             (stringify (projectValue config)))
  \/ exists e w',
       initProject projectRoot options w = (Returned (Failure e), w')
       /\ (w' = w \/ w' = madeDir w (getProjectConfigDir projectRoot)).
Proof.
  intros config. unfold initProject, bind.
  change (MergedConfig.mode DEFAULT_CONFIG) with guided.
  change (MergedConfig.includeSecurityChecklist DEFAULT_CONFIG) with ck_pre.
  change (MergedConfig.includeStandards DEFAULT_CONFIG) with [std_typescript].
  fold config.
  destruct (writeProjectConfig_cases projectRoot config w)
    as [Hw|(e & w' & Hw & Hw')]; rewrite Hw.
  - now left.
  - right. now exists e, w'.
Qed.

(** X8: provided the project config file may be reached and read, a
    project that initProject created is initialised, reads back as the
    config initProject returned, and has its mode, custom prompts,
    checklist and standards fixed by the options alone (with "guided",
    none, "pre" and ["typescript"] for what the options leave out): the
    merged configuration takes none of them from the global config,
    whatever that holds. *)
Theorem initProject_then_loadConfig (projectRoot : string)
    (options : option ProjectConfig.t) (w : World) (config : ProjectConfig.t) :
  fst (initProject projectRoot options w) = Returned (Success config) ->
  getProjectConfigPath projectRoot ∉ denied w ->
  getProjectConfigPath projectRoot ∉ unreadable w ->
  let w' := snd (initProject projectRoot options w) in
  fst (isProjectInitialized projectRoot w') = Returned true
  /\ fst (readProjectConfig projectRoot w') = Returned (Success (Some config))
  /\ ProjectConfig.projectName config = options ≫= ProjectConfig.projectName
  /\ ProjectConfig.template config = options ≫= ProjectConfig.template
  /\ (forall g,
        fst (readGlobalConfig w') = Returned (Success g) ->
        exists merged,
          fst (loadConfig projectRoot w') = Returned (Success merged)
          /\ MergedConfig.mode merged
             = (options ≫= ProjectConfig.mode) ?? guided
          /\ MergedConfig.customPrompts merged
             = (options ≫= ProjectConfig.customPrompts) ?? []
          /\ MergedConfig.includeSecurityChecklist merged
             = (options ≫= ProjectConfig.includeSecurityChecklist) ?? ck_pre
          /\ MergedConfig.includeStandards merged
             = (options ≫= ProjectConfig.includeStandards) ?? [std_typescript]).
Proof.
  intros Hok Hden Hrd w'. subst w'.
  destruct (initProject_eq projectRoot options w) as [Hi|(e & w0 & Hi & _)];
    rewrite Hi in Hok |- *; [|discriminate].
  cbv beta iota delta [fst snd] in Hok |- *. injection Hok as <-.
  set (config := ProjectConfig.mk _ _ _ _ _ _).
  assert (Hp : projectAt (saved w (getProjectConfigPath projectRoot)
                            (stringify (projectValue config))) projectRoot
               = Success (Some config)) by now apply projectAt_saved.
  split.
  { rewrite isProjectInitialized_eq. cbn [fst]. f_equal.
    now apply accessible_saved. }
  split; [now rewrite readProjectConfig_eq, Hp|].
  split; [reflexivity|]. split; [reflexivity|].
  intros g Hg. apply fst_readGlobalConfig in Hg.
  exists (mergeConfigs g (Some config)).
  rewrite loadConfig_eq. unfold mergedAt. rewrite Hg, Hp.
  repeat split.
Qed.

Lemma initProject_then_loadConfig_witness :
  let w' := snd (initProject Sample.root
                   (Some (ProjectConfig.mk (Some guided) None None None None None))
                   Sample.blank) in
  fst (isProjectInitialized Sample.root w') = Returned true
  /\ exists merged,
       fst (loadConfig Sample.root w') = Returned (Success merged)
       /\ MergedConfig.mode merged = guided.
Proof.
  destruct (initProject_then_loadConfig Sample.root
              (Some (ProjectConfig.mk (Some guided) None None None None None))
              Sample.blank
              (ProjectConfig.mk (Some guided) None None (Some [])
                                (Some ck_pre) (Some [std_typescript])))
    as (Hinit & _ & _ & _ & Hload).
  - vm_compute. reflexivity.
  - vm_compute. discriminate.
  - vm_compute. discriminate.
  - split; [exact Hinit|].
    destruct (Hload (GlobalConfig.mk guided None None (Some ck_pre)
                                     (Some [std_typescript])))
      as (merged & Hm & Hmode & _).
    + vm_compute. reflexivity.
    + exists merged. split; [exact Hm|exact Hmode].
Defined.

(** ** Mode updates *)

(** X9: updateMode does not ask for an initialised project.  Where no
    project config can be found, a successful updateMode creates one
    holding the mode alone, after which the project counts as
    initialised; switchMode on the same world refuses and writes
    nothing. *)
Theorem updateMode_creates_config (render : MergedConfig.t -> string)
    (projectRoot : string) (mode : Mode) (w : World) :
  fst (isProjectInitialized projectRoot w) = Returned false ->
  fst (updateMode projectRoot mode w) = Returned (Success tt) ->
  getProjectConfigPath projectRoot ∉ denied w ->
  getProjectConfigPath projectRoot ∉ unreadable w ->
  let w' := snd (updateMode projectRoot mode w) in
  fst (readProjectConfig projectRoot w')
  = Returned (Success (Some (ProjectConfig.mk (Some mode) None None None
                                              None None)))
  /\ fst (isProjectInitialized projectRoot w') = Returned true
  /\ switchMode render projectRoot mode w
     = (Returned (Failure notInitialized), w).
Proof.
  intros Hinit Hok Hden Hrd w'. subst w'.
  apply fst_isProjectInitialized in Hinit.
  assert (Hp : projectAt w projectRoot = Success None).
  { unfold projectAt. now rewrite Hinit. }
  rewrite updateMode_eq, Hp in Hok |- *.
  change (ProjectConfig.withMode (None ?? ProjectConfig.empty) mode)
    with (ProjectConfig.mk (Some mode) None None None None None) in Hok |- *.
  destruct (project_config_round_trip_aux projectRoot
              (ProjectConfig.mk (Some mode) None None None None None) w
              Hok Hden Hrd) as [Hread Hnow].
  split; [exact Hread|]. split; [exact Hnow|].
  rewrite switchMode_eq. now rewrite Hinit.
Qed.

Lemma updateMode_creates_config_witness :
  let w' := snd (updateMode Sample.root expert Sample.blank) in
  fst (readProjectConfig Sample.root w')
  = Returned (Success (Some (ProjectConfig.mk (Some expert) None None None
                                              None None)))
  /\ fst (isProjectInitialized Sample.root w') = Returned true
  /\ switchMode Sample.render Sample.root expert Sample.blank
     = (Returned (Failure notInitialized), Sample.blank).
Proof.
  apply (updateMode_creates_config Sample.render Sample.root expert
           Sample.blank).
  - vm_compute. reflexivity.
  - vm_compute. reflexivity.
  - vm_compute. discriminate.
  - vm_compute. discriminate.
Defined.

Lemma getProp_roundTrip_absent (k : string) (props : list (string * value)) :
  forallb (fun kv => negb (String.eqb (fst kv) k)) props = true ->
  getProp k (List.flat_map (fun kv : string * value =>
                              let (k', x) := kv in
                              match x with
                              | VUndef => []
                              | _ => [(k', jsonRoundTrip x)]
                              end) props) = VUndef.
Proof.
  induction props as [|[k' x] props IH]; [reflexivity|].
  cbn [forallb fst]. intros H. apply andb_prop in H as [Hk H].
  apply negb_true_iff in Hk. specialize (IH H).
  cbn [List.flat_map].
  destruct x; cbn [app getProp]; rewrite ?Hk; exact IH.
Qed.

Lemma stray_key_absent (k : string) (p : ProjectConfig.t) :
  ~ In k projectKeys ->
  exists props,
    jsonRoundTrip (projectValue p) = VObj props /\ getProp k props = VUndef.
Proof.
  intros Hk. eexists. split; [reflexivity|].
  apply getProp_roundTrip_absent.
  cbn [forallb fst projectKeys In] in Hk |- *.
  repeat match goal with
    | |- context [String.eqb ?a k] =>
        destruct (String.eqb_spec a k); [exfalso; apply Hk; tauto|]
    end.
  reflexivity.
Qed.

(** X10: a mode update rewrites the project config from what the schema
    kept of it.  A key of the stored JSON object that the schema does not
    know is gone from the file after a successful updateMode, while the
    known fields are as before, the mode apart. *)
Theorem updateMode_drops_unknown_keys (projectRoot : string) (mode : Mode)
    (w : World) (props : list (string * value)) (at_ : Z)
    (p : ProjectConfig.t) (k : string) :
  files w !! getProjectConfigPath projectRoot
  = Some (mkFile (Json (VObj props)) at_) ->
  getProjectConfigPath projectRoot ∉ denied w ->
  getProjectConfigPath projectRoot ∉ unreadable w ->
  ProjectConfigSchema (VObj props) = Some p ->
  ~ In k projectKeys ->
  fst (updateMode projectRoot mode w) = Returned (Success tt) ->
  exists props',
    files (snd (updateMode projectRoot mode w))
      !! getProjectConfigPath projectRoot
    = Some (mkFile (Json (VObj props')) (clock w))
    /\ getProp k props' = VUndef
    /\ ProjectConfigSchema (VObj props')
       = Some (ProjectConfig.withMode p mode).
Proof.
  intros Hfile Hden Hrd Hp Hk Hok.
  assert (Hproj : projectAt w projectRoot = Success (Some p)).
  { unfold projectAt, jsonAt, accessible. rewrite Hfile.
    rewrite bool_decide_eq_true_2 by assumption.
    rewrite bool_decide_eq_true_2 by (eexists; reflexivity).
    rewrite bool_decide_eq_false_2 by assumption.
    cbn [andb content]. now rewrite Hp. }
  rewrite updateMode_eq, Hproj in Hok |- *.
  change (Some p ?? ProjectConfig.empty) with p in Hok |- *.
  destruct (writeProjectConfig_cases projectRoot
              (ProjectConfig.withMode p mode) w) as [Hw|(e & w0 & Hw & _)];
    rewrite Hw in Hok |- *; [|discriminate].
  destruct (stray_key_absent k (ProjectConfig.withMode p mode) Hk)
    as (props' & Hprops & Habsent).
  exists props'. split; [|split].
  - cbn [snd]. unfold saved, written; cbn [files]. rewrite lookup_insert_eq.
    change (stringify (projectValue (ProjectConfig.withMode p mode)))
      with (Json (jsonRoundTrip (projectValue (ProjectConfig.withMode p mode)))).
    now rewrite Hprops.
  - exact Habsent.
  - rewrite <- Hprops. apply ProjectConfigSchema_roundTrip.
Qed.

Lemma updateMode_drops_unknown_keys_witness :
  exists props',
    files (snd (updateMode Sample.root guided withStrayKey))
      !! getProjectConfigPath Sample.root
    = Some (mkFile (Json (VObj props')) 100)
    /\ getProp "owner" props' = VUndef
    /\ ProjectConfigSchema (VObj props')
       = Some (ProjectConfig.mk (Some guided) None None None None None).
Proof.
  apply (updateMode_drops_unknown_keys Sample.root guided withStrayKey
           [("mode", VStr "learning"); ("owner", VStr "dana")] 10
           (ProjectConfig.mk (Some learning) None None None None None) "owner").
  - vm_compute. reflexivity.
  - vm_compute. discriminate.
  - vm_compute. discriminate.
  - reflexivity.
  - cbn. intuition discriminate.
  - vm_compute. reflexivity.
Defined.

(** X11: a project config that exists but does not read (invalid JSON,
    schema violation, unreadable file) is never overwritten by a mode
    change: updateMode and switchMode both fail and leave the world as
    it is. *)
Theorem mode_change_keeps_unreadable_config (render : MergedConfig.t -> string)
    (projectRoot : string) (mode : Mode) (w : World) (e : Error) :
  fst (readProjectConfig projectRoot w) = Returned (Failure e) ->
  updateMode projectRoot mode w = (Returned (Failure e), w)
  /\ exists e', switchMode render projectRoot mode w
                = (Returned (Failure e'), w).
Proof.
  intros Hread. apply fst_readProjectConfig in Hread.
  split.
  - now rewrite updateMode_eq, Hread.
  - rewrite switchMode_eq.
    destruct (accessible w (getProjectConfigPath projectRoot));
      [|eexists; reflexivity].
    unfold mergedAt. rewrite Hread.
    destruct (globalAt w); [|eexists; reflexivity].
    eexists. reflexivity.
Qed.

Lemma mode_change_keeps_unreadable_config_witness :
  updateMode Sample.root expert Sample.brokenProject
  = (Returned (Failure SyntaxError), Sample.brokenProject)
  /\ exists e', switchMode Sample.render Sample.root expert Sample.brokenProject
                = (Returned (Failure e'), Sample.brokenProject).
Proof.
  apply (mode_change_keeps_unreadable_config Sample.render Sample.root expert
           Sample.brokenProject SyntaxError).
  vm_compute. reflexivity.
Defined.

(** ** After a mode switch *)

Lemma lastAscii_app (a : string) (c : ascii) (s : string) :
  lastAscii (a ++ String c s) = lastAscii (String c s).
Proof.
  induction a as [|x a IH]; [reflexivity|].
  change (lastAscii (String x (a ++ String c s)) = lastAscii (String c s)).
  rewrite <- IH. destruct a; reflexivity.
Qed.

(** The derived document is never the global config file. *)
Lemma claudeMd_not_global (projectRoot : string) (w : World) :
  getClaudeMdPath projectRoot <> getGlobalConfigPath w.
Proof.
  cbv beta zeta delta [getClaudeMdPath getGlobalConfigPath getGlobalConfigDir
                        join resolve VIBE_DIR CONFIG_FILE].
  intros H. apply (f_equal lastAscii) in H.
  change (projectRoot ++ "/" ++ "CLAUDE.md")
    with (projectRoot ++ String "/" "CLAUDE.md") in H.
  change ((homedir w ++ "/" ++ ".vibe") ++ "/" ++ "config.json")
    with ((homedir w ++ "/" ++ ".vibe") ++ String "/" "config.json") in H.
  rewrite !lastAscii_app in H. discriminate H.
Qed.

Lemma globalAt_written_other (w : World) (path : string) (c : Content) :
  path <> getGlobalConfigPath w ->
  globalAt (written w path c) = globalAt w.
Proof.
  intros Hne. unfold globalAt.
  change (getGlobalConfigPath (written w path c)) with (getGlobalConfigPath w).
  rewrite accessible_written_other by assumption.
  now rewrite jsonAt_written_other.
Qed.

Lemma mergedAt_written_claudeMd (w : World) (projectRoot : string) (c : Content) :
  mergedAt (written w (getClaudeMdPath projectRoot) c) projectRoot
  = mergedAt w projectRoot.
Proof.
  unfold mergedAt.
  rewrite globalAt_written_other by apply claudeMd_not_global.
  now rewrite projectAt_written_other by apply claudeMd_not_config.
Qed.

(** What a successful switchMode went through. *)
Lemma switchMode_success_inv (render : MergedConfig.t -> string)
    (projectRoot : string) (mode : Mode) (w : World) (res : SwitchResult) :
  fst (switchMode render projectRoot mode w) = Returned (Success res) ->
  exists c0 d c1,
    accessible w (getProjectConfigPath projectRoot) = true
    /\ mergedAt w projectRoot = Success c0
    /\ projectAt w projectRoot = Success d
    /\ let w1 := saved w (getProjectConfigPath projectRoot)
                   (stringify (projectValue
                      (ProjectConfig.withMode (d ?? ProjectConfig.empty) mode))) in
       mergedAt w1 projectRoot = Success c1
       /\ snd (switchMode render projectRoot mode w)
          = written w1 (getClaudeMdPath projectRoot) (Text (render c1))
       /\ res = mkSwitchResult (MergedConfig.mode c0) mode
                               (getClaudeMdPath projectRoot).
Proof.
  rewrite switchMode_eq.
  destruct (accessible w (getProjectConfigPath projectRoot)) eqn:Hacc;
    [|discriminate].
  destruct (mergedAt w projectRoot) as [c0|e] eqn:Hm; [|discriminate].
  destruct (switchMode_update projectRoot mode w) as [[[u|e]|e] w1] eqn:Hupd;
    try discriminate.
  destruct u.
  destruct (switchMode_update_success _ _ _ _ Hupd) as (d & Hd & Hw1).
  destruct (mergedAt w1 projectRoot) as [c1|e] eqn:Hm1; [|discriminate].
  destruct (buildClaudeMd_cases render c1 projectRoot w1) as [Hb|[e Hb]];
    rewrite Hb; [|discriminate].
  cbn [fst snd]. intros [= <-].
  exists c0, d, c1. subst w1. repeat split; assumption.
Qed.

(** X12: after a successful switchMode the configuration loads and its
    mode is the new mode; the previous mode it reports is the mode the
    configuration had before. *)
Theorem switchMode_then_load (render : MergedConfig.t -> string)
    (projectRoot : string) (mode : Mode) (w : World) (res : SwitchResult) :
  fst (switchMode render projectRoot mode w) = Returned (Success res) ->
  let w' := snd (switchMode render projectRoot mode w) in
  newMode res = mode
  /\ (exists before,
        fst (loadConfig projectRoot w) = Returned (Success before)
        /\ previousMode res = MergedConfig.mode before)
  /\ (exists after,
        fst (loadConfig projectRoot w') = Returned (Success after)
        /\ MergedConfig.mode after = mode).
Proof.
  intros Hok w'. subst w'.
  destruct (switchMode_success_inv _ _ _ _ _ Hok)
    as (c0 & d & c1 & Hacc & Hm & Hd & Hm1 & Hw' & ->).
  cbv zeta in Hm1, Hw'.
  split; [reflexivity|]. split.
  - exists c0. now rewrite loadConfig_eq, Hm.
  - exists c1. rewrite Hw', loadConfig_eq, mergedAt_written_claudeMd, Hm1.
    split; [reflexivity|].
    destruct (projectAt_readable _ _ _ Hacc Hd) as [Hden Hrd].
    unfold mergedAt in Hm1.
    rewrite (projectAt_saved w projectRoot _ Hden Hrd) in Hm1.
    destruct (globalAt _); [|discriminate].
    now injection Hm1 as <-.
Qed.

Lemma switchMode_then_load_witness :
  exists after,
    fst (loadConfig Sample.root
           (snd (switchMode Sample.render Sample.root expert Sample.initialized)))
    = Returned (Success after)
    /\ MergedConfig.mode after = expert.
Proof.
  destruct (switchMode_then_load Sample.render Sample.root expert
              Sample.initialized
              (mkSwitchResult learning expert (getClaudeMdPath Sample.root)))
    as (_ & _ & Hafter).
  - vm_compute. reflexivity.
  - exact Hafter.
Defined.

(** X13: after a successful switchMode the derived document is newer
    than the project config, so needsRegeneration answers false as long
    as both files can be stat'd. *)
Theorem switchMode_then_fresh (render : MergedConfig.t -> string)
    (projectRoot : string) (mode : Mode) (w : World) (res : SwitchResult) :
  fst (switchMode render projectRoot mode w) = Returned (Success res) ->
  getClaudeMdPath projectRoot ∉ denied w ->
  fst (needsRegeneration projectRoot
         (snd (switchMode render projectRoot mode w)))
  = Returned false.
Proof.
  intros Hok Hdoc.
  destruct (switchMode_success_inv _ _ _ _ _ Hok)
    as (c0 & d & c1 & Hacc & _ & _ & _ & Hw' & _).
  cbv zeta in Hw'. rewrite Hw'.
  apply accessible_inv in Hacc as [Hden _].
  rewrite needsRegeneration_eq.
  unfold stat, saved, written; cbn [files denied clock].
  rewrite lookup_insert_eq.
  rewrite lookup_insert_ne by apply claudeMd_not_config.
  rewrite lookup_insert_eq.
  rewrite !bool_decide_eq_false_2 by assumption.
  cbn [fst mtime]. f_equal. apply Z.ltb_ge. lia.
Qed.

Lemma switchMode_then_fresh_witness :
  fst (needsRegeneration Sample.root
         (snd (switchMode Sample.render Sample.root expert Sample.initialized)))
  = Returned false.
Proof.
  apply (switchMode_then_fresh Sample.render Sample.root expert
           Sample.initialized
           (mkSwitchResult learning expert (getClaudeMdPath Sample.root))).
  - vm_compute. reflexivity.
  - vm_compute. discriminate.
Defined.

(** What the global schema makes of a serialised project config: only
    the checklist and the standards are shared between the two. *)
Lemma GlobalConfigSchema_of_project (p : ProjectConfig.t) :
  GlobalConfigSchema (jsonRoundTrip (projectValue p))
  = Some (GlobalConfig.mk guided None None
            (Some (ProjectConfig.includeSecurityChecklist p ?? ck_pre))
            (Some (ProjectConfig.includeStandards p ?? [std_typescript]))).
Proof.
  destruct p as [m pn tp cp cl st].
  destruct m, pn, tp, cp, cl, st;
    cbn -[ModeSchema ChecklistTypeSchema StandardTypeSchema zArray];
    repeat match goal with
      | |- context [List.map _ (List.map VStr ?l)] =>
          change (VArr (List.map (fun x => match x with
                                           | VUndef => VNull
                                           | _ => jsonRoundTrip x
                                           end) (List.map VStr l)))
            with (jsonRoundTrip (stringsValue l));
          rewrite jsonRoundTrip_strings
      | |- context [List.map _ (List.map _ ?l)] =>
          change (VArr (List.map (fun x => match x with
                                           | VUndef => VNull
                                           | _ => jsonRoundTrip x
                                           end)
                          (List.map (fun s => VStr (standardName s)) l)))
            with (jsonRoundTrip (standardsValue l));
          rewrite jsonRoundTrip_standards
      end;
    rewrite ?zArray_strings, ?zArray_standards;
    repeat match goal with
      | |- context [ChecklistTypeSchema (VStr (checklistName ?x))] =>
          change (VStr (checklistName x)) with (checklistValue x);
          rewrite ChecklistTypeSchema_checklistValue
      end;
    reflexivity.
Qed.

(** X14: in the home directory the project config file is the global
    config file.  A successful switchMode there leaves a global config
    that reads with the default mode "guided" and without editor and
    claudeCodePath, whatever the file held before: the rewrite keeps the
    project fields only. *)
Theorem switchMode_at_home_resets_global (render : MergedConfig.t -> string)
    (mode : Mode) (w : World) (res : SwitchResult) :
  fst (switchMode render (homedir w) mode w) = Returned (Success res) ->
  getProjectConfigPath (homedir w) = getGlobalConfigPath w
  /\ exists g,
       fst (readGlobalConfig (snd (switchMode render (homedir w) mode w)))
       = Returned (Success g)
       /\ GlobalConfig.defaultMode g = guided
       /\ GlobalConfig.editor g = None
       /\ GlobalConfig.claudeCodePath g = None.
Proof.
  intros Hok. split; [reflexivity|].
  destruct (switchMode_success_inv _ _ _ _ _ Hok)
    as (c0 & d & c1 & Hacc & _ & Hd & _ & Hw' & _).
  cbv zeta in Hw'. rewrite Hw'.
  destruct (projectAt_readable _ _ _ Hacc Hd) as [Hden Hrd].
  set (p := ProjectConfig.withMode (d ?? ProjectConfig.empty) mode).
  eexists. rewrite readGlobalConfig_eq. cbn [fst].
  rewrite globalAt_written_other by apply claudeMd_not_global.
  change (stringify (projectValue p))
    with (Json (jsonRoundTrip (projectValue p))).
  unfold globalAt, jsonAt, accessible.
  change (getGlobalConfigPath (saved w (getProjectConfigPath (homedir w))
                                 (Json (jsonRoundTrip (projectValue p)))))
    with (getProjectConfigPath (homedir w)).
  unfold saved, written; cbn [files denied unreadable].
  rewrite lookup_insert_eq.
  rewrite bool_decide_eq_true_2 by assumption.
  rewrite bool_decide_eq_true_2 by (eexists; reflexivity).
  rewrite bool_decide_eq_false_2 by assumption.
  cbn [andb content]. rewrite GlobalConfigSchema_of_project.
  repeat split.
Qed.

Lemma switchMode_at_home_resets_global_witness :
  fst (readGlobalConfig projectAtHome)
  = Returned (Success (GlobalConfig.mk expert (Some "vim") None (Some ck_pre)
                                       (Some [std_typescript])))
  /\ exists g,
       fst (readGlobalConfig
              (snd (switchMode Sample.render Sample.home learning projectAtHome)))
       = Returned (Success g)
       /\ GlobalConfig.defaultMode g = guided
       /\ GlobalConfig.editor g = None.
Proof.
  split; [vm_compute; reflexivity|].
  destruct (switchMode_at_home_resets_global Sample.render learning
              projectAtHome
              (mkSwitchResult expert learning (getClaudeMdPath Sample.home)))
    as (_ & g & Hg & Hmode & Hed & _).
  - vm_compute. reflexivity.
  - exists g. repeat split; assumption.
Defined.

(** ** The two getCurrentMode *)

(** X15: the getCurrentMode of mode-manager.ts fails where the project
    is not initialised or the configuration does not load; the one of
    config-manager.ts never fails and answers "guided" where the
    configuration does not load.  Where the former succeeds the two
    agree; on a project that is not initialised the latter still answers
    with the mode the global config alone gives. *)
Theorem getCurrentMode_variants (projectRoot : string) (w : World) :
  (forall m, fst (getCurrentMode projectRoot w) = Returned (Success m) ->
             fst (ConfigManager.getCurrentMode projectRoot w) = Returned m)
  /\ (forall e, fst (loadConfig projectRoot w) = Returned (Failure e) ->
                fst (ConfigManager.getCurrentMode projectRoot w)
                = Returned guided
                /\ exists e', fst (getCurrentMode projectRoot w)
                              = Returned (Failure e'))
  /\ (fst (isProjectInitialized projectRoot w) = Returned false ->
      fst (getCurrentMode projectRoot w) = Returned (Failure notInitialized)
      /\ forall g, fst (readGlobalConfig w) = Returned (Success g) ->
                   fst (ConfigManager.getCurrentMode projectRoot w)
                   = Returned (GlobalConfig.defaultMode g)).
Proof.
  unfold getCurrentMode, ConfigManager.getCurrentMode, bind.
  rewrite isProjectInitialized_eq, !loadConfig_eq.
  split; [|split].
  - intros m.
    destruct (accessible w (getProjectConfigPath projectRoot)); cbn [negb].
    + rewrite loadConfig_eq.
      destruct (mergedAt w projectRoot); cbn; [|discriminate].
      now intros [= ->].
    + discriminate.
  - intros e. cbn [fst]. intros [= He]. rewrite He. split; [reflexivity|].
    destruct (accessible w (getProjectConfigPath projectRoot)); cbn [negb].
    + rewrite loadConfig_eq, He. now exists e.
    + now exists notInitialized.
  - cbn [fst]. intros [= Hacc]. rewrite Hacc. split; [reflexivity|].
    intros g Hg. apply fst_readGlobalConfig in Hg.
    unfold mergedAt, projectAt. now rewrite Hg, Hacc.
Qed.

Lemma getCurrentMode_variants_witness :
  fst (ConfigManager.getCurrentMode Sample.root Sample.initialized)
  = Returned learning
  /\ fst (ConfigManager.getCurrentMode Sample.root Sample.brokenProject)
     = Returned guided
  /\ fst (getCurrentMode Sample.root Sample.blank)
     = Returned (Failure notInitialized)
  /\ fst (ConfigManager.getCurrentMode Sample.root Sample.blank)
     = Returned guided.
Proof.
  pose proof (getCurrentMode_variants Sample.root Sample.initialized)
    as (Hagree & _ & _).
  pose proof (getCurrentMode_variants Sample.root Sample.brokenProject)
    as (_ & Hfail & _).
  pose proof (getCurrentMode_variants Sample.root Sample.blank)
    as (_ & _ & Hblank).
  split; [apply Hagree; vm_compute; reflexivity|].
  split; [apply (Hfail SyntaxError); vm_compute; reflexivity|].
  destruct Hblank as [Hb1 Hb2]; [vm_compute; reflexivity|].
  split; [exact Hb1|].
  apply (Hb2 (GlobalConfig.mk guided None None (Some ck_pre)
                              (Some [std_typescript]))).
  vm_compute. reflexivity.
Defined.

(** ** The mode command without an argument *)

(** X16: [vibe mode] without a mode (or with the empty string) only
    reads: the world is left as it is, and the exit code is 0 exactly
    when the project is initialised and its configuration loads, and 3
    otherwise. *)
Theorem modeCommand_show_only_reads (render : MergedConfig.t -> string)
    (newMode : option string) (w : World) :
  newMode = None \/ newMode = Some "" ->
  let ok := accessible w (getProjectConfigPath (cwd w))
            && isSuccess (mergedAt w (cwd w)) in
  modeCommand render newMode w
  = (Returned (if ok then ExitCode.SUCCESS else ExitCode.CONFIG_ERROR), w)
  /\ (ok = true <->
      fst (isProjectInitialized (cwd w) w) = Returned true
      /\ exists c, fst (loadConfig (cwd w) w) = Returned (Success c)).
Proof.
  intros Hnone ok. subst ok. split.
  - rewrite modeCommand_eq.
    destruct (accessible w (getProjectConfigPath (cwd w))); [|reflexivity].
    destruct Hnone as [->| ->];
      destruct (mergedAt w (cwd w)); reflexivity.
  - rewrite isProjectInitialized_eq, loadConfig_eq. cbn [fst].
    destruct (accessible w (getProjectConfigPath (cwd w)));
      destruct (mergedAt w (cwd w)) as [c|e]; cbn; split;
      try discriminate; try (intros [H1 [c' H2]]; discriminate).
    + intros _. split; [reflexivity|]. now exists c.
    + reflexivity.
Qed.

Lemma modeCommand_show_only_reads_witness :
  modeCommand Sample.render None Sample.initialized
  = (Returned 0%Z, Sample.initialized)
  /\ modeCommand Sample.render (Some "") Sample.brokenGlobal
     = (Returned 3%Z, Sample.brokenGlobal).
Proof.
  split.
  - apply (proj1 (modeCommand_show_only_reads Sample.render None
                    Sample.initialized (or_introl eq_refl))).
  - apply (proj1 (modeCommand_show_only_reads Sample.render (Some "")
                    Sample.brokenGlobal (or_intror eq_refl))).
Defined.

(** ** The directory writeJsonFile creates *)

(** X17: the directory writeJsonFile creates before writing is
    everything before the last "/" of the path.  For the two config
    files that is their .vibe directory; for a path without any "/" it
    is the empty string. *)
Theorem parentDir_of_config_paths (path : string) (projectRoot : string)
    (w : World) :
  parentDir (getProjectConfigPath projectRoot) = getProjectConfigDir projectRoot
  /\ parentDir (getGlobalConfigPath w) = getGlobalConfigDir w
  /\ (noSlash path = true -> parentDir path = "").
Proof.
  split; [now apply parentDir_join|]. split; [now apply parentDir_join|].
  intros Hb. unfold parentDir. now rewrite lastIndexOfSlash_noSlash.
Qed.

Lemma parentDir_of_config_paths_witness :
  parentDir (getProjectConfigPath Sample.root) = "/work/app/.vibe"
  /\ parentDir "config.json" = "".
Proof.
  pose proof (parentDir_of_config_paths "config.json" Sample.root Sample.blank)
    as (Hp & _ & Hn).
  split; [exact Hp|apply Hn; reflexivity].
Defined.

(** ** Versions *)

Lemma lexCompare_antisym (a b : Version) :
  lexCompare b a = CompOpp (lexCompare a b).
Proof.
  unfold lexCompare.
  rewrite (N.compare_antisym (major a) (major b)).
  rewrite (N.compare_antisym (minor a) (minor b)).
  rewrite (N.compare_antisym (patch a) (patch b)).
  destruct (major a ?= major b)%N; cbn; try reflexivity.
  destruct (minor a ?= minor b)%N; cbn; reflexivity.
Qed.

Lemma lexCompare_Lt (a b : Version) :
  lexCompare a b = Lt <->
  (major a < major b
   \/ (major a = major b
       /\ (minor a < minor b
           \/ (minor a = minor b /\ patch a < patch b))))%N.
Proof.
  unfold lexCompare.
  destruct (N.compare_spec (major a) (major b));
    destruct (N.compare_spec (minor a) (minor b));
    destruct (N.compare_spec (patch a) (patch b));
    split; intros; try discriminate; try reflexivity; lia.
Qed.

Lemma lexCompare_Eq (a b : Version) : lexCompare a b = Eq <-> a = b.
Proof.
  unfold lexCompare. destruct a as [a1 a2 a3], b as [b1 b2 b3]; cbn.
  destruct (N.compare_spec a1 b1);
    destruct (N.compare_spec a2 b2);
    destruct (N.compare_spec a3 b3);
    split; intros H'; try discriminate; try (injection H' as -> -> ->; lia);
    subst; reflexivity.
Qed.

Lemma compareVersions_minus_one (a b : string) :
  compareVersions a b = (-1)%Z <->
  exists vA vB, parseVersion a = Some vA /\ parseVersion b = Some vB
                /\ lexCompare vA vB = Lt.
Proof.
  split.
  - intros H. destruct (parseVersion a) as [vA|] eqn:Ha.
    2:{ rewrite compareVersions_unparsed_l in H by assumption. discriminate. }
    destruct (parseVersion b) as [vB|] eqn:Hb.
    2:{ rewrite compareVersions_unparsed_r in H by assumption. discriminate. }
    rewrite (compareVersions_parsed a b vA vB Ha Hb) in H.
    exists vA, vB. repeat split.
    destruct (lexCompare vA vB); [discriminate|reflexivity|discriminate].
  - intros (vA & vB & Ha & Hb & Hlt).
    now rewrite (compareVersions_parsed a b vA vB Ha Hb), Hlt.
Qed.

(** X18: compareVersions behaves as a comparison: swapping the arguments
    negates the result, a string compares as equal to itself, "less
    than" is transitive, and two strings that both parse compare as
    equal only when the three numbers parseInt gives are the same, which
    for written integers below 2^53 means that the written integers are
    the same. *)
Theorem compareVersions_order (a b c : string) :
  compareVersions b a = (- compareVersions a b)%Z
  /\ compareVersions a a = 0%Z
  /\ (compareVersions a b = (-1)%Z -> compareVersions b c = (-1)%Z ->
      compareVersions a c = (-1)%Z)
  /\ (forall vA vB,
        parseVersion a = Some vA -> parseVersion b = Some vB ->
        compareVersions a b = 0%Z -> vA = vB)
  /\ (forall xA xB,
        semverShape a xA -> semverShape b xB ->
        safeVersion xA -> safeVersion xB ->
        compareVersions a b = 0%Z -> xA = xB).
Proof.
  assert (Hanti : forall x y,
            compareVersions y x = (- compareVersions x y)%Z).
  { intros x y.
    destruct (parseVersion x) as [vX|] eqn:Hx.
    2:{ now rewrite (compareVersions_unparsed_r y x Hx),
                    (compareVersions_unparsed_l x y Hx). }
    destruct (parseVersion y) as [vY|] eqn:Hy.
    2:{ now rewrite (compareVersions_unparsed_l y x Hy),
                    (compareVersions_unparsed_r x y Hy). }
    rewrite (compareVersions_parsed y x vY vX Hy Hx).
    rewrite (compareVersions_parsed x y vX vY Hx Hy).
    rewrite lexCompare_antisym. now destruct (lexCompare vX vY). }
  assert (Heq : forall vA vB,
            parseVersion a = Some vA -> parseVersion b = Some vB ->
            compareVersions a b = 0%Z -> vA = vB).
  { intros vA vB Ha Hb H.
    rewrite (compareVersions_parsed a b vA vB Ha Hb) in H.
    apply lexCompare_Eq.
    destruct (lexCompare vA vB); [reflexivity|discriminate|discriminate]. }
  split; [apply Hanti|]. split; [|split; [|split]].
  - specialize (Hanti a a). lia.
  - intros Hab Hbc.
    apply compareVersions_minus_one in Hab as (vA & vB & Ha & Hb & Hlt1).
    apply compareVersions_minus_one in Hbc as (vB' & vC & Hb' & Hc & Hlt2).
    rewrite Hb in Hb'. injection Hb' as <-.
    apply compareVersions_minus_one. exists vA, vC. repeat split; try assumption.
    apply lexCompare_Lt in Hlt1, Hlt2. apply lexCompare_Lt. lia.
  - exact Heq.
  - intros xA xB HA HB SA SB H.
    rewrite <- (asNumbers_safe xA SA), <- (asNumbers_safe xB SB).
    apply Heq; [| |exact H]; apply parseVersion_shape; eexists; eauto.
Qed.

Lemma compareVersions_order_witness :
  compareVersions "1.0.0" "2.1.0" = (-1)%Z
  /\ compareVersions "1.2.3" "v1.2.4-rc" <> 0%Z
  /\ (compareVersions "9007199254740993.0.0" "9007199254740992.0.0" = 0%Z ->
      parseVersion "9007199254740993.0.0"
      = Some (mkVersion 9007199254740992 0 0)).
Proof.
  pose proof (compareVersions_order "1.0.0" "1.5.0" "2.1.0") as (_ & _ & Ht & _).
  pose proof (compareVersions_order "1.2.3" "v1.2.4-rc" "")
    as (_ & _ & _ & _ & He).
  pose proof (compareVersions_order "9007199254740993.0.0"
                "9007199254740992.0.0" "") as (_ & _ & _ & Hr & _).
  split; [|split].
  - apply Ht; reflexivity.
  - intros H.
    assert (Hx : mkVersion 1 2 3 = mkVersion 1 2 4); [|discriminate Hx].
    apply He; [| | | |exact H].
    + exists "", "1", "2", "3", "".
      repeat split; (reflexivity || discriminate || now left).
    + exists "v", "1", "2", "4", "-rc".
      repeat split; (reflexivity || discriminate || now right).
    + repeat split; vm_compute; reflexivity.
    + repeat split; vm_compute; reflexivity.
  - intros H.
    destruct (parseVersion "9007199254740993.0.0") as [vA|] eqn:Ha;
      [|discriminate Ha].
    f_equal. apply (Hr vA (mkVersion 9007199254740992 0 0));
      [reflexivity|reflexivity|exact H].
Defined.

Lemma append_nil_r (s : string) : s ++ "" = s.
Proof.
  induction s as [|c s IH]; [reflexivity|].
  change (String c (s ++ "") = String c s). now rewrite IH.
Qed.

Lemma versionHere_parses (s v : string) :
  versionHere s = Some v ->
  v <> "" /\ exists ver, parseVersion v = Some ver.
Proof.
  unfold versionHere. intros H.
  destruct (digitsThenDot s) as [[d1 r1]|] eqn:H1; [|discriminate].
  destruct (digitsThenDot r1) as [[d2 r2]|] eqn:H2; [|discriminate].
  apply digitsThenDot_inv in H1 as (_ & Hn1 & Ha1).
  apply digitsThenDot_inv in H2 as (_ & Hn2 & Ha2).
  destruct (spanDigits_split r2) as (_ & Ha3 & _).
  destruct (spanDigits r2) as [d3 rest]. cbn [fst] in Ha3.
  destruct d3 as [|c3 d3]; [discriminate|].
  injection H as <-. split.
  - destruct d1; [congruence|discriminate].
  - exists (asNumbers (mkVersion (mathInt d1) (mathInt d2)
                                 (mathInt (String c3 d3)))).
    apply parseVersion_shape. eexists. split; [|reflexivity].
    exists "", d1, d2, (String c3 d3), "".
    repeat split; try assumption; try discriminate.
    + now left.
    + now rewrite append_nil_r.
Qed.

Lemma versionFromOutput_parses (data v : string) :
  versionFromOutput data = Some v ->
  v <> "" /\ exists ver, parseVersion v = Some ver.
Proof.
  induction data as [|c data IH]; cbn [versionFromOutput versionAtHead].
  - destruct (versionHere "") as [v'|] eqn:Hv; [|discriminate].
    intros [= <-]. now apply (versionHere_parses "").
  - destruct (Ascii.eqb c "v").
    + destruct (versionHere data) as [v1|] eqn:Hv1.
      * intros [= <-]. now apply (versionHere_parses data).
      * destruct (versionHere (String c data)) as [v2|] eqn:Hv2.
        -- intros [= <-]. now apply (versionHere_parses (String c data)).
        -- exact IH.
    + destruct (versionHere (String c data)) as [v2|] eqn:Hv2.
      * intros [= <-]. now apply (versionHere_parses (String c data)).
      * exact IH.
Qed.

Lemma versionAtLeast_parsed (minimum v : string) (vMin ver : Version) :
  v <> "" ->
  parseVersion minimum = Some vMin -> parseVersion v = Some ver ->
  versionAtLeast minimum (Some v)
  = match lexCompare ver vMin with
    | Lt => false
    | _ => true
    end.
Proof.
  intros Hne Hmin Hv. unfold versionAtLeast.
  destruct v; [congruence|].
  rewrite (compareVersions_parsed _ _ ver vMin Hv Hmin).
  now destruct (lexCompare ver vMin).
Qed.

(** X19: the version getClaudeVersion extracts from the output of
    [claude --version] always parses, so the compatibility checks on it
    are decided by its numbers: it is compatible exactly when its major
    number is at least 1, and recommended exactly when it is at least
    1.5.0. *)
Theorem extracted_version_is_judged_by_numbers (result : Result string)
    (v : string) :
  getClaudeVersion result = Some v ->
  exists ver,
    parseVersion v = Some ver
    /\ isCompatible (Some v) = (1 <=? major ver)%N
    /\ isRecommended (Some v)
       = ((2 <=? major ver) || ((major ver =? 1) && (5 <=? minor ver)))%N.
Proof.
  unfold getClaudeVersion. destruct result as [data|e]; [|discriminate].
  intros H. apply versionFromOutput_parses in H as (Hne & ver & Hver).
  exists ver. split; [exact Hver|].
  unfold isCompatible, isRecommended.
  rewrite (versionAtLeast_parsed MIN_CLAUDE_VERSION v (mkVersion 1 0 0) ver
             Hne eq_refl Hver).
  rewrite (versionAtLeast_parsed RECOMMENDED_CLAUDE_VERSION v
             (mkVersion 1 5 0) ver Hne eq_refl Hver).
  unfold lexCompare. destruct ver as [a1 a2 a3]; cbn [major minor patch].
  split.
  - destruct (N.compare_spec a1 1);
      destruct (N.compare_spec a2 0);
      destruct (N.compare_spec a3 0);
      symmetry; first [apply N.leb_le; lia | apply N.leb_gt; lia].
  - destruct (N.compare_spec a1 1);
      destruct (N.compare_spec a2 5);
      destruct (N.compare_spec a3 0);
      symmetry;
      first [ apply orb_true_iff; left; apply N.leb_le; lia
            | apply orb_true_iff; right; apply andb_true_iff; split;
              [apply N.eqb_eq; lia | apply N.leb_le; lia]
            | apply orb_false_iff; split;
              [apply N.leb_gt; lia
              | apply andb_false_iff;
                first [left; apply N.eqb_neq; lia | right; apply N.leb_gt; lia]] ].
Qed.

Lemma extracted_version_is_judged_by_numbers_witness :
  exists ver,
    parseVersion "1.4.12" = Some ver
    /\ isCompatible (Some "1.4.12") = (1 <=? major ver)%N
    /\ isRecommended (Some "1.4.12")
       = ((2 <=? major ver) || ((major ver =? 1) && (5 <=? minor ver)))%N.
Proof.
  apply (extracted_version_is_judged_by_numbers
           (Success "claude v1.4.12 (build 7)") "1.4.12").
  reflexivity.
Defined.

(** X20: how the version checks treat what does not parse.  A missing
    or empty version is neither compatible nor recommended; any other
    string that does not parse compares as equal to both thresholds and
    so counts as compatible and recommended; and whatever the string,
    recommended implies compatible, so the check is "pass", "warn" or
    "fail" as it is recommended, only compatible, or neither. *)
Theorem version_checks_on_unparsed (version : option string) :
  (version = None \/ version = Some "" ->
   isCompatible version = false /\ versionCheckStatus version = status_fail)
  /\ (forall v, version = Some v -> v <> "" -> parseVersion v = None ->
      isCompatible version = true /\ isRecommended version = true
      /\ versionCheckStatus version = status_pass)
  /\ (isRecommended version = true -> isCompatible version = true)
  /\ (versionCheckStatus version = status_warn <->
      isCompatible version = true /\ isRecommended version = false).
Proof.
  split; [|split; [|split]].
  - intros [->| ->]; split; reflexivity.
  - intros v -> Hne Hv. unfold versionCheckStatus, isCompatible, isRecommended,
      versionAtLeast.
    destruct v; [congruence|].
    now rewrite !compareVersions_unparsed_l by assumption.
  - unfold isCompatible, isRecommended, versionAtLeast.
    destruct version as [[|c v]|]; try discriminate.
    destruct (parseVersion (String c v)) as [ver|] eqn:Hv.
    + rewrite (compareVersions_parsed (String c v) MIN_CLAUDE_VERSION ver
                 (mkVersion 1 0 0) Hv eq_refl).
      rewrite (compareVersions_parsed (String c v) RECOMMENDED_CLAUDE_VERSION
                 ver (mkVersion 1 5 0) Hv eq_refl).
      unfold lexCompare. destruct ver as [a1 a2 a3]; cbn [major minor patch].
      destruct (N.compare_spec a1 1);
        destruct (N.compare_spec a2 5);
        destruct (N.compare_spec a2 0);
        destruct (N.compare_spec a3 0);
        cbn; intros; try reflexivity; try discriminate; lia.
    + now rewrite !compareVersions_unparsed_l by assumption.
  - unfold versionCheckStatus.
    destruct (isCompatible version), (isRecommended version);
      split; try discriminate; try (intros [? ?]; discriminate); auto.
Qed.

Lemma version_checks_on_unparsed_witness :
  isCompatible None = false
  /\ isCompatible (Some "nightly") = true
  /\ versionCheckStatus (Some "nightly") = status_pass
  /\ isCompatible (Some "1.7.0") = true.
Proof.
  pose proof (version_checks_on_unparsed None) as (Hnone & _).
  pose proof (version_checks_on_unparsed (Some "nightly")) as (_ & Hun & _).
  pose proof (version_checks_on_unparsed (Some "1.7.0")) as (_ & _ & Himp & _).
  destruct (Hnone (or_introl eq_refl)) as [H1 _].
  destruct (Hun "nightly" eq_refl) as (H2 & _ & H3);
    [discriminate|reflexivity|].
  split; [exact H1|]. split; [exact H2|]. split; [exact H3|].
  apply Himp. reflexivity.
Defined.

(** X21: checkForUpdates reports an update exactly when both version
    strings parse and the latest is greater in the lexicographic order
    of the (major, minor, patch) parseInt gives, which for written
    integers below 2^53 is the order of the written integers; a latest
    version that does not parse never counts as an update, and an update
    is never reported in both directions. *)
Theorem updateAvailable_spec (latest current : string) :
  (updateAvailable latest current = true <->
   exists vL vC, parseVersion latest = Some vL /\ parseVersion current = Some vC
                 /\ lexCompare vL vC = Gt)
  /\ (forall xL xC,
        semverShape latest xL -> semverShape current xC ->
        safeVersion xL -> safeVersion xC ->
        (updateAvailable latest current = true <-> lexCompare xL xC = Gt))
  /\ (parseVersion latest = None -> updateAvailable latest current = false)
  /\ (updateAvailable latest current = true ->
      updateAvailable current latest = false).
Proof.
  assert (Hiff : forall x y,
    updateAvailable x y = true <->
    exists vX vY, parseVersion x = Some vX /\ parseVersion y = Some vY
                  /\ lexCompare vX vY = Gt).
  { intros x y. unfold updateAvailable. split.
    - intros H. destruct (parseVersion x) as [vX|] eqn:Hx.
      2:{ rewrite compareVersions_unparsed_l in H by assumption. discriminate. }
      destruct (parseVersion y) as [vY|] eqn:Hy.
      2:{ rewrite compareVersions_unparsed_r in H by assumption. discriminate. }
      rewrite (compareVersions_parsed x y vX vY Hx Hy) in H.
      exists vX, vY. repeat split.
      destruct (lexCompare vX vY); [discriminate|discriminate|reflexivity].
    - intros (vX & vY & Hx & Hy & Hgt).
      now rewrite (compareVersions_parsed x y vX vY Hx Hy), Hgt. }
  split; [apply Hiff|]. split; [|split].
  - intros xL xC HL HC SL SC.
    assert (Hl : parseVersion latest = Some xL).
    { apply parseVersion_shape. exists xL. now rewrite asNumbers_safe. }
    assert (Hc : parseVersion current = Some xC).
    { apply parseVersion_shape. exists xC. now rewrite asNumbers_safe. }
    rewrite Hiff. split.
    + intros (vL & vC & Hl' & Hc' & Hgt).
      rewrite Hl in Hl'. rewrite Hc in Hc'.
      injection Hl' as <-. injection Hc' as <-. exact Hgt.
    + intros Hgt. now exists xL, xC.
  - intros Hl. unfold updateAvailable.
    now rewrite compareVersions_unparsed_l.
  - intros H. apply Hiff in H as (vL & vC & Hl & Hc & Hgt).
    unfold updateAvailable.
    rewrite (compareVersions_parsed current latest vC vL Hc Hl).
    rewrite lexCompare_antisym, Hgt. reflexivity.
Qed.

Lemma updateAvailable_spec_witness :
  updateAvailable "npm ERR! network" "1.4.0" = false
  /\ updateAvailable "1.4.0" "1.5.2" = false
  /\ updateAvailable "1.10.0" "1.9.3" = true.
Proof.
  pose proof (updateAvailable_spec "npm ERR! network" "1.4.0")
    as (_ & _ & Hun & _).
  pose proof (updateAvailable_spec "1.5.2" "1.4.0") as (_ & _ & _ & Hone).
  pose proof (updateAvailable_spec "1.10.0" "1.9.3") as (_ & Hsafe & _).
  split; [apply Hun; reflexivity|]. split; [apply Hone; reflexivity|].
  apply (Hsafe (mkVersion 1 10 0) (mkVersion 1 9 3)).
  - exists "", "1", "10", "0", "".
    repeat split; (reflexivity || discriminate || now left).
  - exists "", "1", "9", "3", "".
    repeat split; (reflexivity || discriminate || now left).
  - repeat split; vm_compute; reflexivity.
  - repeat split; vm_compute; reflexivity.
  - reflexivity.
Defined.

(** Beyond 2^53 the comparison is one of rounded numbers: no update is
    reported between two versions whose majors round to the same
    double. *)
Example updateAvailable_rounds :
  updateAvailable "9007199254740993.0.0" "9007199254740992.0.0" = false
  /\ updateAvailable "9007199254740995.0.0" "9007199254740993.0.0" = true
  /\ parseVersion "9007199254740995.0.0"
     = Some (mkVersion 9007199254740996 0 0).
Proof. repeat split; vm_compute; reflexivity. Qed.

(** ** The config command *)

Lemma getProp_setProp (k k' : string) (v : value) (props : list (string * value)) :
  getProp k' (setProp k v props)
  = if String.eqb k k' then v else getProp k' props.
Proof.
  induction props as [|[k0 x] rest IH]; [reflexivity|].
  cbn [setProp]. destruct (String.eqb_spec k0 k) as [->|Hne].
  - cbn [getProp]. now destruct (String.eqb k k').
  - cbn [getProp]. rewrite IH.
    destruct (String.eqb_spec k0 k') as [->|]; [|reflexivity].
    destruct (String.eqb_spec k k'); [congruence|reflexivity].
Qed.

Lemma standards_all_valid (values : list value) :
  List.find (fun v => match StandardTypeSchema v with
                      | None => true
                      | Some _ => false
                      end) values = None ->
  exists l, values = List.map (fun s => VStr (standardName s)) l.
Proof.
  induction values as [|v values IH]; intros H.
  - now exists [].
  - cbn [List.find] in H.
    destruct (StandardTypeSchema v) as [st|] eqn:Hv; [|discriminate].
    destruct (IH H) as [l ->]. apply StandardTypeSchema_inv in Hv.
    exists (st :: l). now rewrite Hv.
Qed.

Section ConfigCommandFacts.

Variable trim : string -> string.
Variable parseArray : string -> option (list value).
Variable display : value -> string.

(** What parseConfigValue can return, key by key. *)
Lemma parseConfigValue_valid (key value_ : string) (v : value) :
  parseConfigValue trim parseArray display key value_ = Returned v ->
  ((key = "mode" \/ key = "defaultMode")
   /\ exists m, v = modeValue m /\ value_ = modeName m)
  \/ (key = "includeSecurityChecklist" /\ exists c, v = checklistValue c)
  \/ (key = "includeStandards" /\ exists l, v = standardsValue l)
  \/ (key <> "mode" /\ key <> "defaultMode"
      /\ key <> "includeSecurityChecklist" /\ key <> "includeStandards"
      /\ v = VStr value_).
Proof.
  unfold parseConfigValue.
  destruct (String.eqb_spec key "mode") as [Hk|Hk1]; cbn [orb].
  { destruct (ModeSchema (VStr value_)) as [m|] eqn:Hm; [|discriminate].
    intros [= <-]. left. split; [now left|]. exists m. split; [reflexivity|].
    apply ModeSchema_inv in Hm. now injection Hm. }
  destruct (String.eqb_spec key "defaultMode") as [Hk|Hk2].
  { destruct (ModeSchema (VStr value_)) as [m|] eqn:Hm; [|discriminate].
    intros [= <-]. left. split; [now right|]. exists m. split; [reflexivity|].
    apply ModeSchema_inv in Hm. now injection Hm. }
  destruct (String.eqb_spec key "includeSecurityChecklist") as [Hk|Hk3].
  { destruct (ChecklistTypeSchema (VStr value_)) as [c|]; [|discriminate].
    intros [= <-]. right. left. split; [assumption|]. now exists c. }
  destruct (String.eqb_spec key "includeStandards") as [Hk|Hk4].
  { intros H. right. right. left. split; [assumption|].
    destruct (if startsWithBracket value_
              then match parseArray value_ with
                   | Some items => Returned items
                   | None => Thrown (Err ("Invalid JSON array: " ++ value_))
                   end
              else Returned (List.map (fun v0 => VStr (trim v0))
                                      (splitComma value_)))
      as [values|e]; [|discriminate].
    destruct (List.find _ values) eqn:Hfind; [discriminate|].
    injection H as <-.
    destruct (standards_all_valid values Hfind) as [l ->]. now exists l. }
  intros [= <-]. right. right. right. repeat split; assumption.
Qed.

End ConfigCommandFacts.

Lemma zDefault_mode (m : Mode) : zDefault ModeSchema guided (modeValue m) = Some m.
Proof. now destruct m. Qed.

Lemma zDefault_checklist (o : option ChecklistType) :
  zDefault ChecklistTypeSchema ck_pre (optValue checklistValue o)
  = Some (o ?? ck_pre).
Proof.
  apply zDefault_optValue; intros;
    first [apply ChecklistTypeSchema_checklistValue | discriminate].
Qed.

Lemma zDefault_standards (o : option (list StandardType)) :
  zDefault (zArray StandardTypeSchema) [std_typescript]
           (optValue standardsValue o)
  = Some (o ?? [std_typescript]).
Proof.
  apply zDefault_optValue; intros; first [apply zArray_standards | discriminate].
Qed.

Lemma zOptional_string (o : option string) :
  zOptional zString (optValue VStr o) = Some o.
Proof. apply zOptional_optValue; intros; first [reflexivity | discriminate]. Qed.

Lemma zOptional_mode (o : option Mode) :
  zOptional ModeSchema (optValue modeValue o) = Some o.
Proof.
  apply zOptional_optValue; intros;
    first [apply ModeSchema_modeValue | discriminate].
Qed.

Lemma zOptional_strings (o : option (list string)) :
  zOptional (zArray zString) (optValue stringsValue o) = Some o.
Proof.
  apply zOptional_optValue; intros; first [apply zArray_strings | discriminate].
Qed.

Lemma zOptional_checklist (o : option ChecklistType) :
  zOptional ChecklistTypeSchema (optValue checklistValue o) = Some o.
Proof.
  apply zOptional_optValue; intros;
    first [apply ChecklistTypeSchema_checklistValue | discriminate].
Qed.

Lemma zOptional_standards (o : option (list StandardType)) :
  zOptional (zArray StandardTypeSchema) (optValue standardsValue o) = Some o.
Proof.
  apply zOptional_optValue; intros; first [apply zArray_standards | discriminate].
Qed.


(** The project schema on [{ ...data, [key]: v }], field by field. *)
Lemma ProjectConfigSchema_spread (p : ProjectConfig.t) (key : string) (v : value) :
  ProjectConfigSchema (spreadWith (projectValue p) key v) =
  match zOptional ModeSchema
          (if String.eqb key "mode" then v
           else optValue modeValue (ProjectConfig.mode p)),
        zOptional zString
          (if String.eqb key "projectName" then v
           else optValue VStr (ProjectConfig.projectName p)),
        zOptional zString
          (if String.eqb key "template" then v
           else optValue VStr (ProjectConfig.template p)),
        zOptional (zArray zString)
          (if String.eqb key "customPrompts" then v
           else optValue stringsValue (ProjectConfig.customPrompts p)),
        zOptional ChecklistTypeSchema
          (if String.eqb key "includeSecurityChecklist" then v
           else optValue checklistValue (ProjectConfig.includeSecurityChecklist p)),
        zOptional (zArray StandardTypeSchema)
          (if String.eqb key "includeStandards" then v
           else optValue standardsValue (ProjectConfig.includeStandards p))
  with
  | Some m, Some pn, Some tp, Some cp, Some cl, Some st =>
      Some (ProjectConfig.mk m pn tp cp cl st)
  | _, _, _, _, _, _ => None
  end.
Proof.
  unfold spreadWith, projectValue, ProjectConfigSchema.
  rewrite !getProp_setProp. reflexivity.
Qed.

Section ConfigSetFacts.

Variable trim : string -> string.
Variable parseArray : string -> option (list value).
Variable display : value -> string.

Ltac known_key :=
  cbn [String.eqb Ascii.eqb Bool.eqb];
  repeat match goal with
    | |- context [zDefault ModeSchema guided (modeValue ?m)] =>
        rewrite (zDefault_mode m)
    | |- context [zDefault ChecklistTypeSchema ck_pre (checklistValue ?c)] =>
        change (checklistValue c) with (optValue checklistValue (Some c))
    | |- context [zDefault (zArray StandardTypeSchema) _ (standardsValue ?l)] =>
        change (standardsValue l) with (optValue standardsValue (Some l))
    | |- context [zOptional ModeSchema (modeValue ?m)] =>
        change (modeValue m) with (optValue modeValue (Some m))
    | |- context [zOptional ChecklistTypeSchema (checklistValue ?c)] =>
        change (checklistValue c) with (optValue checklistValue (Some c))
    | |- context [zOptional (zArray StandardTypeSchema) (standardsValue ?l)] =>
        change (standardsValue l) with (optValue standardsValue (Some l))
    | |- context [zOptional zString (VStr ?s)] =>
        change (VStr s) with (optValue VStr (Some s))
    end;
  rewrite ?zOptional_string, ?zDefault_checklist, ?zDefault_standards,
    ?zOptional_mode, ?zOptional_strings, ?zOptional_checklist,
    ?zOptional_standards.


(** What a validated value does to a typed project config: the field the
    key names is set, the others are kept. *)
Lemma project_spread_valid (p : ProjectConfig.t) (key value_ : string) (v : value) :
  includes VALID_KEYS_project key = true ->
  parseConfigValue trim parseArray display key value_ = Returned v ->
  exists p',
    ProjectConfigSchema (spreadWith (projectValue p) key v) = Some p'
    /\ (forall m, key = "mode" -> value_ = modeName m ->
                  p' = ProjectConfig.withMode p m)
    /\ (key = "projectName" ->
        p' = ProjectConfig.mk (ProjectConfig.mode p) (Some value_)
               (ProjectConfig.template p) (ProjectConfig.customPrompts p)
               (ProjectConfig.includeSecurityChecklist p)
               (ProjectConfig.includeStandards p))
    /\ (key <> "mode" -> ProjectConfig.mode p' = ProjectConfig.mode p)
    /\ (key <> "projectName" ->
        ProjectConfig.projectName p' = ProjectConfig.projectName p)
    /\ ProjectConfig.template p' = ProjectConfig.template p
    /\ ProjectConfig.customPrompts p' = ProjectConfig.customPrompts p
    /\ (key <> "includeSecurityChecklist" ->
        ProjectConfig.includeSecurityChecklist p'
        = ProjectConfig.includeSecurityChecklist p)
    /\ (key <> "includeStandards" ->
        ProjectConfig.includeStandards p' = ProjectConfig.includeStandards p).
Proof.
  intros Hkey Hparse. rewrite ProjectConfigSchema_spread.
  destruct p as [pm pn pt pcp pcl pst].
  cbn [ProjectConfig.mode ProjectConfig.projectName ProjectConfig.template
       ProjectConfig.customPrompts ProjectConfig.includeSecurityChecklist
       ProjectConfig.includeStandards].
  destruct (parseConfigValue_valid _ _ _ _ _ _ Hparse)
    as [[[->| ->] (m & -> & Hval)]|[[-> [c ->]]|[[-> [l ->]]|(H1 & H2 & H3 & H4 & ->)]]].
  - known_key. eexists. split; [reflexivity|].
    repeat split; try congruence.
    intros m' _ Hm'. rewrite Hval in Hm'.
    assert (m = m') by (destruct m, m'; try reflexivity; discriminate).
    subst. reflexivity.
  - discriminate Hkey.
  - known_key. eexists. split; [reflexivity|]. repeat split; congruence.
  - known_key. eexists. split; [reflexivity|]. repeat split; congruence.
  - unfold includes in Hkey. cbn [existsb VALID_KEYS_project] in Hkey.
    destruct (String.eqb_spec key "mode"); [congruence|].
    destruct (String.eqb_spec key "projectName") as [->|].
    { known_key. eexists. split; [reflexivity|]. repeat split; congruence. }
    destruct (String.eqb_spec key "includeSecurityChecklist"); [congruence|].
    destruct (String.eqb_spec key "includeStandards"); [congruence|].
    discriminate Hkey.
Qed.

End ConfigSetFacts.

Section ConfigSetTheorems.

Variable trim : string -> string.
Variable parseArray : string -> option (list value).
Variable display : value -> string.

Lemma setConfigValue_rejected (projectRoot key value_ : string)
    (isGlobal : bool) (w : World) :
  includes (if isGlobal then VALID_KEYS_global else VALID_KEYS_project) key
  = false
  \/ (exists e, parseConfigValue trim parseArray display key value_ = Thrown e) ->
  setConfigValue trim parseArray display projectRoot key value_ isGlobal w
  = (Returned (Exited ExitCode.INVALID_ARGUMENT), w).
Proof.
  unfold setConfigValue. intros [H|[e H]].
  - now rewrite H.
  - rewrite H. now destruct (includes _ key).
Qed.


Lemma setConfigValue_project_eq (key value_ : string) (projectRoot : string)
    (v : value) (w : World) :
  includes VALID_KEYS_project key = true ->
  parseConfigValue trim parseArray display key value_ = Returned v ->
  setConfigValue trim parseArray display projectRoot key value_ false w =
  if accessible w (getProjectConfigPath projectRoot) then
    match projectAt w projectRoot with
    | Failure _ => (Returned (Exited ExitCode.CONFIG_ERROR), w)
    | Success d =>
        match ProjectConfigSchema
                (spreadWith (projectValue (d ?? ProjectConfig.empty)) key v)
        with
        | None => (Thrown ZodError, w)
        | Some p' =>
            match writeJsonFile (getProjectConfigPath projectRoot)
                    (projectValue p') w with
            | (Returned (Success _), w1) => (Returned (Continue tt), w1)
            | (Returned (Failure _), w1) =>
                (Returned (Exited ExitCode.CONFIG_ERROR), w1)
            | (Thrown e, w1) => (Thrown e, w1)
            end
        end
    end
  else (Returned (Exited ExitCode.CONFIG_ERROR), w).
Proof.
  intros Hkey Hparse.
  unfold setConfigValue. rewrite Hkey, Hparse. cbn [negb].
  unfold bind at 1. rewrite isProjectInitialized_eq.
  destruct (accessible w (getProjectConfigPath projectRoot)); [|reflexivity].
  cbn [negb]. unfold bind at 1. rewrite readProjectConfig_eq.
  destruct (projectAt w projectRoot) as [d|e]; [|reflexivity].
  cbv zeta. unfold writeProjectConfig, parse.
  destruct (ProjectConfigSchema _); unfold bind, ret, throw; [|reflexivity].
  destruct (writeJsonFile (getProjectConfigPath projectRoot)
              (projectValue t) w) as [[[u|e]|e] w1]; reflexivity.
Qed.




(** X24: on an initialised project, [vibe config set mode m] and
    updateMode are the same update: they leave the same world, and the
    one goes through exactly when the other succeeds. *)
Theorem config_set_mode_is_updateMode (projectRoot : string) (mode : Mode)
    (w : World) :
  fst (isProjectInitialized projectRoot w) = Returned true ->
  let r := setConfigValue trim parseArray display projectRoot "mode"
             (modeName mode) false w in
  snd r = snd (updateMode projectRoot mode w)
  /\ (fst r = Returned (Continue tt) <->
      fst (updateMode projectRoot mode w) = Returned (Success tt)).
Proof.
  intros Hinit r. subst r. apply fst_isProjectInitialized in Hinit.
  assert (Hparse : parseConfigValue trim parseArray display "mode"
                     (modeName mode) = Returned (modeValue mode))
    by now destruct mode.
  rewrite (setConfigValue_project_eq "mode" (modeName mode) projectRoot
             (modeValue mode) w eq_refl Hparse).
  rewrite Hinit, updateMode_eq.
  destruct (projectAt w projectRoot) as [d|e]; [|split; [reflexivity|]].
  2:{ cbn [fst]. split; discriminate. }
  destruct (project_spread_valid trim parseArray display
              (d ?? ProjectConfig.empty) "mode" (modeName mode)
              (modeValue mode) eq_refl Hparse) as (p' & Hp' & Hmode & _).
  rewrite Hp', (Hmode mode eq_refl eq_refl).
  rewrite writeProjectConfig_typed.
  destruct (writeJsonFile_cases (getProjectConfigPath projectRoot)
              (projectValue (ProjectConfig.withMode (d ?? ProjectConfig.empty)
                                                    mode)) w)
    as [Hw|(e & w0 & Hw & _)]; rewrite Hw; cbn [fst snd];
    (split; [reflexivity|split; first [reflexivity | discriminate]]).
Qed.

End ConfigSetTheorems.



Lemma config_set_mode_is_updateMode_witness :
  snd (setConfigValue sampleTrim sampleParseArray sampleDisplay Sample.root
         "mode" "expert" false Sample.initialized)
  = snd (updateMode Sample.root expert Sample.initialized).
Proof.
  apply (config_set_mode_is_updateMode sampleTrim sampleParseArray
           sampleDisplay Sample.root expert Sample.initialized).
  vm_compute. reflexivity.
Defined.

(** ** Standards given as a comma-separated list *)

(** ** Standards given as a comma-separated list *)

Lemma splitComma_nonempty (s : string) : splitComma s <> [].
Proof.
  destruct s as [|c s]; [discriminate|].
  cbn [splitComma]. destruct (Ascii.eqb c ","); [discriminate|].
  destruct (splitComma s); discriminate.
Qed.

Lemma splitComma_single (piece : string) :
  noComma piece = true -> splitComma piece = [piece].
Proof.
  induction piece as [|c piece IH]; [reflexivity|].
  cbn [noComma splitComma]. intros H. apply andb_prop in H as [Hc Hp].
  apply negb_true_iff in Hc. now rewrite Hc, (IH Hp).
Qed.

Lemma splitComma_piece (piece rest : string) :
  noComma piece = true ->
  splitComma (piece ++ String "," rest) = piece :: splitComma rest.
Proof.
  induction piece as [|c piece IH]; [reflexivity|].
  cbn [noComma]. intros H. apply andb_prop in H as [Hc Hp].
  apply negb_true_iff in Hc.
  change (splitComma (String c (piece ++ String "," rest))
          = String c piece :: splitComma rest).
  cbn [splitComma]. now rewrite Hc, (IH Hp).
Qed.

(** Splitting at the commas undoes joining with commas. *)
Lemma splitComma_concat (pieces : list string) :
  pieces <> [] ->
  forallb noComma pieces = true ->
  splitComma (String.concat "," pieces) = pieces.
Proof.
  induction pieces as [|piece pieces IH]; [congruence|].
  intros _ H. cbn [forallb] in H. apply andb_prop in H as [Hp Hrest].
  destruct pieces as [|next pieces].
  - now apply splitComma_single.
  - change (String.concat "," (piece :: next :: pieces))
      with (piece ++ String "," (String.concat "," (next :: pieces))).
    rewrite splitComma_piece by assumption.
    now rewrite IH.
Qed.

Lemma standards_none_rejected (l : list StandardType) :
  List.find (fun v => match StandardTypeSchema v with
                      | None => true
                      | Some _ => false
                      end)
            (List.map (fun s => VStr (standardName s)) l) = None.
Proof.
  induction l as [|s l IH]; [reflexivity|].
  cbn [List.map List.find]. now rewrite StandardTypeSchema_name.
Qed.

Lemma standards_some_rejected (values : list value) (bad : value) :
  In bad values -> StandardTypeSchema bad = None ->
  exists v, List.find (fun v => match StandardTypeSchema v with
                                | None => true
                                | Some _ => false
                                end) values = Some v.
Proof.
  induction values as [|x values IH]; [contradiction|].
  intros [->|Hin] Hbad; cbn [List.find].
  - rewrite Hbad. now exists bad.
  - destruct (StandardTypeSchema x); [now apply IH|now exists x].
Qed.

Section CommaLists.

Variable trim : string -> string.
Variable parseArray : string -> option (list value).
Variable display : value -> string.

(** X25: [vibe config set includeStandards a,b,...] splits the text at
    its commas and trims every piece.  It yields the list of standards
    exactly as given when every trimmed piece names a standard, and it is
    rejected as soon as one trimmed piece names none, the single empty
    piece of the empty text included. *)
Theorem standards_comma_list (pieces : list string) :
  pieces <> [] ->
  forallb noComma pieces = true ->
  startsWithBracket (String.concat "," pieces) = false ->
  (forall l,
     List.map trim pieces = List.map standardName l ->
     parseConfigValue trim parseArray display "includeStandards"
       (String.concat "," pieces) = Returned (standardsValue l))
  /\ (forall piece,
        In piece pieces -> StandardTypeSchema (VStr (trim piece)) = None ->
        exists e, parseConfigValue trim parseArray display "includeStandards"
                    (String.concat "," pieces) = Thrown e).
Proof.
  intros Hne Hcomma Hbracket.
  assert (Hparse : forall k : Outcome value,
    parseConfigValue trim parseArray display "includeStandards"
      (String.concat "," pieces)
    = match List.find (fun v => match StandardTypeSchema v with
                                | None => true
                                | Some _ => false
                                end)
                      (List.map (fun v => VStr (trim v)) pieces) with
      | Some v =>
          Thrown (Err ("Invalid standard: " ++ dquote ++ display v ++ dquote
                       ++ ". Valid: typescript, api"))
      | None => Returned (VArr (List.map (fun v => VStr (trim v)) pieces))
      end).
  { intros _. unfold parseConfigValue.
    cbn [String.eqb Ascii.eqb Bool.eqb orb].
    now rewrite Hbracket, splitComma_concat. }
  split.
  - intros l Hl. rewrite (Hparse (Thrown ZodError)).
    assert (Hmap : List.map (fun v => VStr (trim v)) pieces
                   = List.map (fun s => VStr (standardName s)) l).
    { rewrite <- (List.map_map trim VStr), Hl. apply List.map_map. }
    rewrite Hmap, standards_none_rejected. reflexivity.
  - intros piece Hin Hbad. rewrite (Hparse (Thrown ZodError)).
    destruct (standards_some_rejected
                (List.map (fun v => VStr (trim v)) pieces)
                (VStr (trim piece))) as [v Hv].
    + apply (List.in_map (fun v => VStr (trim v))). exact Hin.
    + exact Hbad.
    + rewrite Hv. eexists. reflexivity.
Qed.

End CommaLists.

Lemma standards_comma_list_witness :
  parseConfigValue sampleTrim sampleParseArray sampleDisplay "includeStandards"
    "api,typescript" = Returned (standardsValue [std_api; std_typescript])
  /\ exists e, parseConfigValue sampleTrim sampleParseArray sampleDisplay
                 "includeStandards" "" = Thrown e.
Proof.
  pose proof (standards_comma_list sampleTrim sampleParseArray sampleDisplay
                ["api"; "typescript"]) as Hok.
  pose proof (standards_comma_list sampleTrim sampleParseArray sampleDisplay
                [""]) as Hbad.
  split.
  - apply Hok; [discriminate|reflexivity|reflexivity|reflexivity].
  - apply Hbad with (piece := ""); [discriminate|reflexivity|reflexivity| |reflexivity].
    left. reflexivity.
Defined.

(** ** [vibe start --mode] *)

Lemma needsRegeneration_after_switch (render : MergedConfig.t -> string)
    (projectRoot : string) (mode : Mode) (w : World) (res : SwitchResult) :
  fst (switchMode render projectRoot mode w) = Returned (Success res) ->
  getClaudeMdPath projectRoot ∉ denied w ->
  fst (needsRegeneration projectRoot
         (snd (switchMode render projectRoot mode w)))
  = Returned false.
Proof.
  intros Hok Hdoc.
  destruct (switchMode_success_inv _ _ _ _ _ Hok)
    as (c0 & d & c1 & Hacc & _ & _ & _ & Hw' & _).
  cbv zeta in Hw'. rewrite Hw'.
  apply accessible_inv in Hacc as [Hden _].
  rewrite needsRegeneration_eq.
  unfold stat, saved, written; cbn [files denied clock].
  rewrite lookup_insert_eq.
  rewrite lookup_insert_ne by apply claudeMd_not_config.
  rewrite lookup_insert_eq.
  rewrite !bool_decide_eq_false_2 by assumption.
  cbn [fst mtime]. f_equal. apply Z.ltb_ge. lia.
Qed.

Lemma mergedAt_after_switch (render : MergedConfig.t -> string)
    (projectRoot : string) (mode : Mode) (w : World) (res : SwitchResult) :
  fst (switchMode render projectRoot mode w) = Returned (Success res) ->
  exists after,
    mergedAt (snd (switchMode render projectRoot mode w)) projectRoot
    = Success after
    /\ MergedConfig.mode after = mode.
Proof.
  intros Hok.
  destruct (switchMode_success_inv _ _ _ _ _ Hok)
    as (c0 & d & c1 & Hacc & Hm & Hd & Hm1 & Hw' & _).
  cbv zeta in Hm1, Hw'.
  exists c1. rewrite Hw', mergedAt_written_claudeMd, Hm1.
  split; [reflexivity|].
  destruct (projectAt_readable _ _ _ Hacc Hd) as [Hden Hrd].
  unfold mergedAt in Hm1.
  rewrite (projectAt_saved w projectRoot _ Hden Hrd) in Hm1.
  destruct (globalAt _); [|discriminate].
  now injection Hm1 as <-.
Qed.

(** X26: [vibe start --mode m] whose switch succeeds writes the derived
    document once, in the switch: unless [--regenerate] is given the
    freshness test then answers false, so the command goes straight from
    the world the switch left to launching Claude Code with the reloaded
    configuration, whose mode is [m], and its exit code is the
    launcher's (1 when the launcher reports a failure). *)
Theorem startCommand_with_mode (render : MergedConfig.t -> string)
    (run : option string -> string -> IO (Result Z))
    (options : StartOptions) (w : World) (m : Mode) (res : SwitchResult) :
  opt_mode options = Some m ->
  opt_regenerate options <> Some true ->
  fst (switchMode render (cwd w) m w) = Returned (Success res) ->
  getClaudeMdPath (cwd w) ∉ denied w ->
  let w1 := snd (switchMode render (cwd w) m w) in
  exists config,
    fst (loadConfig (cwd w) w1) = Returned (Success config)
    /\ MergedConfig.mode config = m
    /\ startCommand render run options w
       = match run (MergedConfig.claudeCodePath config) (cwd w) w1 with
         | (Returned (Success code), w3) => (Returned code, w3)
         | (Returned (Failure _), w3) => (Returned ExitCode.GENERAL_ERROR, w3)
         | (Thrown e, w3) => (Thrown e, w3)
         end.
Proof.
  intros Hmode Hregen Hok Hdoc w1.
  destruct (mergedAt_after_switch _ _ _ _ _ Hok) as (config & Hm1 & Hcm).
  exists config. fold w1 in Hm1.
  split; [now rewrite loadConfig_eq, Hm1|]. split; [exact Hcm|].
  destruct (switchMode_success_inv _ _ _ _ _ Hok)
    as (_ & _ & _ & Hacc & _).
  pose proof (startCommand_after_switch render run options w) as Hstart.
  cbv zeta in Hstart. rewrite Hmode in Hstart.
  rewrite (Hstart Hacc (ex_intro _ res Hok)).
  fold w1. rewrite Hm1.
  unfold w1. rewrite (needsRegeneration_after_switch _ _ _ _ _ Hok Hdoc).
  destruct (opt_regenerate options) as [[|]|]; [congruence|reflexivity|reflexivity].
Qed.

Lemma startCommand_with_mode_witness :
  fst (startCommand Sample.render Sample.launcher SampleOptions.toGuided
         Sample.initialized) = Returned 0%Z
  /\ snd (startCommand Sample.render Sample.launcher SampleOptions.toGuided
            Sample.initialized)
     = snd (switchMode Sample.render Sample.root guided Sample.initialized).
Proof.
  destruct (startCommand_with_mode Sample.render Sample.launcher
              SampleOptions.toGuided Sample.initialized guided
              (mkSwitchResult learning guided (getClaudeMdPath Sample.root)))
    as (config & _ & _ & Hstart).
  - reflexivity.
  - discriminate.
  - vm_compute. reflexivity.
  - vm_compute. discriminate.
  - rewrite Hstart. split; reflexivity.
Defined.

(** ** Exit codes of the commands *)

Section ExitCodes.

Variable render : MergedConfig.t -> string.
Variable run : option string -> string -> IO (Result Z).
Variable confirmOverwrite : bool.
Variable confirmInit : string -> bool.
Variable promptForMode : Mode.
Variable trim : string -> string.
Variable parseArray : string -> option (list value).
Variable display : value -> string.
Variable keyIn : string -> value -> bool.

(** initCommand, when it gets to initialise the project, is the
    initialisation with the mode it settled on. *)
Lemma initCommand_reaches (options : InitOptions) (w : World) (m : Mode) :
  initialisesWith confirmOverwrite confirmInit promptForMode options w = Some m ->
  initCommand render confirmOverwrite confirmInit promptForMode options w
  = initialise render (cwd w) m w.
Proof.
  unfold initialisesWith, initCommand, bind at 1.
  rewrite isProjectInitialized_eq.
  destruct (accessible w (getProjectConfigPath (cwd w)));
    destruct (isTrue (init_force options));
    destruct (isTrue (init_yes options));
    destruct (init_mode options) as [m'|];
    destruct confirmOverwrite;
    destruct (confirmInit (cwd w));
    cbn [andb negb]; intros H; try discriminate H;
    injection H as <-; reflexivity.
Qed.

Lemma initCommand_already (options : InitOptions) (w : World) :
  accessible w (getProjectConfigPath (cwd w)) = true ->
  isTrue (init_force options) = false ->
  isTrue (init_yes options) = true ->
  initCommand render confirmOverwrite confirmInit promptForMode options w
  = (Returned ExitCode.GENERAL_ERROR, w).
Proof.
  intros Hacc Hforce Hyes. unfold initCommand, bind at 1.
  now rewrite isProjectInitialized_eq, Hacc, Hforce, Hyes.
Qed.

Lemma initialise_eq (projectRoot : string) (m : Mode) (w : World) :
  initialise render projectRoot m w =
  match initProject projectRoot (Some (onlyMode m)) w with
  | (Returned (Failure _), w1) => (Returned ExitCode.CONFIG_ERROR, w1)
  | (Returned (Success _), w1) =>
      match mergedAt w1 projectRoot with
      | Failure _ => (Returned ExitCode.CONFIG_ERROR, w1)
      | Success data =>
          match buildClaudeMd render data projectRoot w1 with
          | (Returned (Failure _), w2) => (Returned ExitCode.GENERAL_ERROR, w2)
          | (Returned (Success _), w2) => (Returned ExitCode.SUCCESS, w2)
          | (Thrown e, w2) => (Thrown e, w2)
          end
      end
  | (Thrown e, w1) => (Thrown e, w1)
  end.
Proof.
  unfold initialise, bind at 1.
  destruct (initProject projectRoot (Some (onlyMode m)) w)
    as [[[cfg|e]|e] w1]; try reflexivity.
  unfold bind at 1. rewrite loadConfig_eq.
  destruct (mergedAt w1 projectRoot) as [data|e]; [|reflexivity].
  unfold bind.
  destruct (buildClaudeMd render data projectRoot w1) as [[[p|e]|e] w2];
    reflexivity.
Qed.

Lemma configCommand_eq (options : ConfigOptions) (w : World) :
  configCommand options w =
  if isTrue (opt_global options)
     || negb (accessible w (getProjectConfigPath (cwd w)))
  then match globalAt w with
       | Failure _ => (Returned ExitCode.CONFIG_ERROR, w)
       | Success _ => (Returned ExitCode.SUCCESS, w)
       end
  else match mergedAt w (cwd w) with
       | Failure _ => (Returned ExitCode.CONFIG_ERROR, w)
       | Success _ => (Returned ExitCode.SUCCESS, w)
       end.
Proof.
  unfold configCommand, showGlobalConfig, showMergedConfig.
  destruct (isTrue (opt_global options)); cbn [orb].
  - unfold bind. rewrite readGlobalConfig_eq.
    now destruct (globalAt w).
  - unfold bind at 1. unfold bind at 1. rewrite isProjectInitialized_eq.
    destruct (accessible w (getProjectConfigPath (cwd w))); cbn [negb].
    + unfold bind. rewrite loadConfig_eq. now destruct (mergedAt w (cwd w)).
    + unfold bind. rewrite readGlobalConfig_eq. now destruct (globalAt w).
Qed.

Lemma configGetCommand_eq (key : string) (options : ConfigOptions) (w : World) :
  configGetCommand keyIn key options w =
  let found (config : value) :=
    if keyIn key config then (Returned ExitCode.SUCCESS, w)
    else (Returned ExitCode.INVALID_ARGUMENT, w) in
  if isTrue (opt_global options) then
    match globalAt w with
    | Failure _ => (Returned ExitCode.CONFIG_ERROR, w)
    | Success g => found (globalValue g)
    end
  else
    match mergedAt w (cwd w) with
    | Failure _ => (Returned ExitCode.CONFIG_ERROR, w)
    | Success c => found (mergedValue c)
    end.
Proof.
  unfold configGetCommand, getConfigValue. cbv zeta.
  destruct (isTrue (opt_global options)).
  - unfold bind. rewrite readGlobalConfig_eq.
    destruct (globalAt w) as [g|e]; [|reflexivity].
    cbn. now destruct (keyIn key (globalValue g)).
  - unfold bind. rewrite loadConfig_eq.
    destruct (mergedAt w (cwd w)) as [c|e]; [|reflexivity].
    cbn. now destruct (keyIn key (mergedValue c)).
Qed.

Lemma configSetCommand_code (key value_ : string) (options : ConfigOptions)
    (w : World) (code : Z) :
  fst (setConfigValue trim parseArray display (cwd w) key value_
         (isTrue (opt_global options)) w) = Returned (Exited code) ->
  fst (configSetCommand trim parseArray display key value_ options w)
  = Returned code.
Proof.
  unfold configSetCommand, bind.
  destruct (setConfigValue _ _ _ _ _ _ _ w) as [o w']. cbn [fst].
  now intros ->.
Qed.

(** C8, as the code has it, for the commands that reach the
    configuration core (init, mode, config, config get, config set,
    start): each ends at the first failure it meets.  Exit code 3
    (config error): a project that is not initialised (start; mode,
    whatever its argument; a project-level config set whose key and
    value were accepted), a configuration that fails to read or to load,
    a failed mode switch, a failed initProject, a failed write of config
    set.  Exit code 1 (general error): a failure of the command's own
    regeneration of the derived document (start, init), and init --yes
    on an initialised project without --force.  Exit code 2 (invalid
    argument): a mode outside the enumeration given to start --mode or
    init --mode, or, when it is not the empty string, to mode on an
    initialised project; a key or a value that config set rejects; a key
    that config get does not find in the configuration it read. *)
Theorem exit_codes (options : StartOptions) (initOptions : InitOptions)
    (configOptions : ConfigOptions) (newMode : option string)
    (key value_ : string) (w : World) :
  let projectRoot := cwd w in
  let initialised := fst (isProjectInitialized projectRoot w) = Returned true in
  let uninitialised :=
    fst (isProjectInitialized projectRoot w) = Returned false in
  let w1 := match opt_mode options with
            | Some m => snd (switchMode render projectRoot m w)
            | None => w
            end in
  let switched := match opt_mode options with
                  | Some m => exists res, fst (switchMode render projectRoot m w)
                                          = Returned (Success res)
                  | None => True
                  end in
  let isGlobal := isTrue (opt_global configOptions) in
  let validKeys := if isGlobal then VALID_KEYS_global else VALID_KEYS_project in
  let started := fst (startCommand render run options w) in
  let moded := fst (modeCommand render newMode w) in
  let inited := fst (initCommand render confirmOverwrite confirmInit
                       promptForMode initOptions w) in
  let shown := fst (configCommand configOptions w) in
  let got := fst (configGetCommand keyIn key configOptions w) in
  let set := fst (configSetCommand trim parseArray display key value_
                    configOptions w) in
  (ExitCode.GENERAL_ERROR = 1 /\ ExitCode.INVALID_ARGUMENT = 2
   /\ ExitCode.CONFIG_ERROR = 3)%Z
  (* start *)
  /\ (uninitialised -> started = Returned ExitCode.CONFIG_ERROR)
  /\ (initialised ->
      forall m e,
        opt_mode options = Some m ->
        fst (switchMode render projectRoot m w) = Returned (Failure e) ->
        started = Returned ExitCode.CONFIG_ERROR)
  /\ (initialised -> switched ->
      forall e,
        fst (loadConfig projectRoot w1) = Returned (Failure e) ->
        started = Returned ExitCode.CONFIG_ERROR)
  /\ (initialised -> switched ->
      forall config e,
        fst (loadConfig projectRoot w1) = Returned (Success config) ->
        opt_regenerate options = Some true
        \/ fst (needsRegeneration projectRoot w1) = Returned true ->
        fst (buildClaudeMd render config projectRoot w1) = Returned (Failure e) ->
        started = Returned ExitCode.GENERAL_ERROR)
  /\ (forall s claudePath regenerate,
        ModeSchema (VStr s) = None ->
        validateModeOption (Some s) = Exited ExitCode.INVALID_ARGUMENT
        /\ startAction render run (Some s) claudePath regenerate w
           = (Returned ExitCode.INVALID_ARGUMENT, w))
  (* mode *)
  /\ (uninitialised -> moded = Returned ExitCode.CONFIG_ERROR)
  /\ (initialised ->
      forall s,
        newMode = Some s -> s <> "" -> ModeSchema (VStr s) = None ->
        moded = Returned ExitCode.INVALID_ARGUMENT)
  /\ (initialised ->
      forall s m e,
        newMode = Some s -> s <> "" -> ModeSchema (VStr s) = Some m ->
        fst (switchMode render projectRoot m w) = Returned (Failure e) ->
        moded = Returned ExitCode.CONFIG_ERROR)
  /\ (initialised ->
      newMode = None \/ newMode = Some "" ->
      forall e,
        fst (loadConfig projectRoot w) = Returned (Failure e) ->
        moded = Returned ExitCode.CONFIG_ERROR)
  (* init *)
  /\ (forall s force yes,
        ModeSchema (VStr s) = None ->
        initAction render confirmOverwrite confirmInit promptForMode
                   (Some s) force yes w
        = (Returned ExitCode.INVALID_ARGUMENT, w))
  /\ (initialised ->
      isTrue (init_force initOptions) = false ->
      isTrue (init_yes initOptions) = true ->
      inited = Returned ExitCode.GENERAL_ERROR)
  /\ (forall m,
        initialisesWith confirmOverwrite confirmInit promptForMode
                        initOptions w = Some m ->
        let created := initProject projectRoot (Some (onlyMode m)) w in
        (forall e,
           fst created = Returned (Failure e) ->
           inited = Returned ExitCode.CONFIG_ERROR)
        /\ (forall cfg e,
              fst created = Returned (Success cfg) ->
              fst (loadConfig projectRoot (snd created)) = Returned (Failure e) ->
              inited = Returned ExitCode.CONFIG_ERROR)
        /\ (forall cfg config e,
              fst created = Returned (Success cfg) ->
              fst (loadConfig projectRoot (snd created))
              = Returned (Success config) ->
              fst (buildClaudeMd render config projectRoot (snd created))
              = Returned (Failure e) ->
              inited = Returned ExitCode.GENERAL_ERROR))
  (* config *)
  /\ (isGlobal = true \/ uninitialised ->
      forall e,
        fst (readGlobalConfig w) = Returned (Failure e) ->
        shown = Returned ExitCode.CONFIG_ERROR)
  /\ (isGlobal = false -> initialised ->
      forall e,
        fst (loadConfig projectRoot w) = Returned (Failure e) ->
        shown = Returned ExitCode.CONFIG_ERROR)
  (* config get *)
  /\ (isGlobal = true ->
      (forall e,
         fst (readGlobalConfig w) = Returned (Failure e) ->
         got = Returned ExitCode.CONFIG_ERROR)
      /\ (forall g,
            fst (readGlobalConfig w) = Returned (Success g) ->
            keyIn key (globalValue g) = false ->
            got = Returned ExitCode.INVALID_ARGUMENT))
  /\ (isGlobal = false ->
      (forall e,
         fst (loadConfig projectRoot w) = Returned (Failure e) ->
         got = Returned ExitCode.CONFIG_ERROR)
      /\ (forall c,
            fst (loadConfig projectRoot w) = Returned (Success c) ->
            keyIn key (mergedValue c) = false ->
            got = Returned ExitCode.INVALID_ARGUMENT))
  (* config set *)
  /\ (includes validKeys key = false
      \/ (exists e, parseConfigValue trim parseArray display key value_
                    = Thrown e) ->
      set = Returned ExitCode.INVALID_ARGUMENT)
  /\ (forall v,
        includes validKeys key = true ->
        parseConfigValue trim parseArray display key value_ = Returned v ->
        (isGlobal = true ->
         (forall e,
            fst (readGlobalConfig w) = Returned (Failure e) ->
            set = Returned ExitCode.CONFIG_ERROR)
         /\ (forall g e,
               fst (readGlobalConfig w) = Returned (Success g) ->
               fst (writeGlobalConfig (spreadWith (globalValue g) key v) w)
               = Returned (Failure e) ->
               set = Returned ExitCode.CONFIG_ERROR))
        /\ (isGlobal = false ->
            (uninitialised -> set = Returned ExitCode.CONFIG_ERROR)
            /\ (initialised ->
                forall e,
                  fst (readProjectConfig projectRoot w) = Returned (Failure e) ->
                  set = Returned ExitCode.CONFIG_ERROR)
            /\ (initialised ->
                forall d e,
                  fst (readProjectConfig projectRoot w) = Returned (Success d) ->
                  fst (writeProjectConfig projectRoot
                         (spreadWith (projectValue (d ?? ProjectConfig.empty))
                                     key v) w)
                  = Returned (Failure e) ->
                  set = Returned ExitCode.CONFIG_ERROR))).
Proof.
  intros projectRoot initialised uninitialised w1 switched isGlobal validKeys
         started moded inited shown got set.
  split; [repeat split|].
  (* start *)
  split.
  { intros Hinit. apply fst_isProjectInitialized in Hinit.
    subst started. now rewrite startCommand_not_initialized. }
  split.
  { intros Hinit m e Hm Hfail. apply fst_isProjectInitialized in Hinit.
    subst started. unfold startCommand. fold projectRoot. unfold bind at 1.
    rewrite isProjectInitialized_eq, Hinit, Hm. cbn [negb]. unfold bind at 1.
    destruct (switchMode render projectRoot m w) as [o w'].
    cbn in Hfail. now subst o. }
  split.
  { intros Hinit Hsw e Hload. apply fst_isProjectInitialized in Hinit.
    apply fst_loadConfig in Hload.
    subst started.
    rewrite (startCommand_after_switch render run options w Hinit Hsw).
    fold projectRoot w1. now rewrite Hload. }
  split.
  { intros Hinit Hsw config e Hload Hregen Hbuild.
    apply fst_isProjectInitialized in Hinit.
    apply fst_loadConfig in Hload.
    subst started.
    rewrite (startCommand_after_switch render run options w Hinit Hsw).
    fold projectRoot w1. rewrite Hload. cbv zeta.
    assert (Hshould :
      match opt_regenerate options with
      | Some true => true
      | _ => match fst (needsRegeneration projectRoot w1) with
             | Returned b => b
             | Thrown _ => true
             end
      end = true).
    { destruct Hregen as [->| ->]; [reflexivity|].
      now destruct (opt_regenerate options) as [[|]|]. }
    rewrite Hshould.
    destruct (buildClaudeMd render config projectRoot w1) as [o w2].
    cbn in Hbuild. now subst o. }
  split.
  { intros s claudePath regenerate Hs.
    unfold startAction, validateModeOption. now rewrite Hs. }
  (* mode *)
  split.
  { intros Hinit. apply fst_isProjectInitialized in Hinit.
    subst moded. rewrite modeCommand_eq. fold projectRoot. now rewrite Hinit. }
  split.
  { intros Hinit s -> Hne Hs. apply fst_isProjectInitialized in Hinit.
    subst moded. rewrite modeCommand_eq. fold projectRoot. rewrite Hinit, Hs.
    destruct s; [congruence|reflexivity]. }
  split.
  { intros Hinit s m e -> Hne Hs Hfail.
    apply fst_isProjectInitialized in Hinit.
    subst moded. rewrite modeCommand_eq. fold projectRoot. rewrite Hinit, Hs.
    destruct s; [congruence|].
    destruct (switchMode render projectRoot m w) as [o w'].
    cbn in Hfail. now subst o. }
  split.
  { intros Hinit Hnone e Hload. apply fst_isProjectInitialized in Hinit.
    apply fst_loadConfig in Hload.
    subst moded. rewrite modeCommand_eq. fold projectRoot. rewrite Hinit, Hload.
    now destruct Hnone as [->| ->]. }
  (* init *)
  split.
  { intros s force yes Hs. unfold initAction. now rewrite Hs. }
  split.
  { intros Hinit Hforce Hyes. apply fst_isProjectInitialized in Hinit.
    subst inited. now rewrite initCommand_already. }
  split.
  { intros m Hm created. subst inited.
    rewrite (initCommand_reaches initOptions w m Hm), initialise_eq.
    fold projectRoot created.
    split; [|split].
    - intros e He. destruct created as [o w']. cbn in He. now subst o.
    - intros cfg e Hc Hload. apply fst_loadConfig in Hload.
      destruct created as [o w']. cbn in Hc, Hload. subst o.
      now rewrite Hload.
    - intros cfg config e Hc Hload Hbuild. apply fst_loadConfig in Hload.
      destruct created as [o w']. cbn in Hc, Hload, Hbuild. subst o.
      rewrite Hload.
      destruct (buildClaudeMd render config projectRoot w') as [o w2].
      cbn in Hbuild. now subst o. }
  (* config *)
  split.
  { intros Hwhich e Hglobal. apply fst_readGlobalConfig in Hglobal.
    subst shown. rewrite configCommand_eq. fold projectRoot isGlobal.
    assert (Hcond : isGlobal
                    || negb (accessible w (getProjectConfigPath projectRoot))
                    = true).
    { destruct Hwhich as [->|Hun]; [reflexivity|].
      apply fst_isProjectInitialized in Hun. rewrite Hun.
      now destruct isGlobal. }
    now rewrite Hcond, Hglobal. }
  split.
  { intros Hg Hinit e Hload. apply fst_isProjectInitialized in Hinit.
    apply fst_loadConfig in Hload.
    subst shown. rewrite configCommand_eq. fold projectRoot isGlobal.
    now rewrite Hg, Hinit, Hload. }
  (* config get *)
  split.
  { intros Hg. subst got. rewrite configGetCommand_eq.
    fold projectRoot isGlobal. rewrite Hg. cbv zeta. split.
    - intros e Hglobal. apply fst_readGlobalConfig in Hglobal.
      now rewrite Hglobal.
    - intros g Hglobal Hkey. apply fst_readGlobalConfig in Hglobal.
      now rewrite Hglobal, Hkey. }
  split.
  { intros Hg. subst got. rewrite configGetCommand_eq.
    fold projectRoot isGlobal. rewrite Hg. cbv zeta. split.
    - intros e Hload. apply fst_loadConfig in Hload. now rewrite Hload.
    - intros c Hload Hkey. apply fst_loadConfig in Hload.
      now rewrite Hload, Hkey. }
  (* config set *)
  split.
  { intros Hbad. subst set. apply configSetCommand_code.
    fold projectRoot isGlobal.
    now rewrite (setConfigValue_rejected trim parseArray display projectRoot
                   key value_ isGlobal w Hbad). }
  intros v Hkey Hparse. split.
  - intros Hg. subst validKeys. rewrite Hg in Hkey. split.
    + intros e Hglobal. apply fst_readGlobalConfig in Hglobal.
      subst set. apply configSetCommand_code. fold projectRoot isGlobal.
      rewrite Hg. unfold setConfigValue. rewrite Hkey, Hparse. cbn [negb].
      unfold bind. now rewrite readGlobalConfig_eq, Hglobal.
    + intros g e Hglobal Hwrite. apply fst_readGlobalConfig in Hglobal.
      subst set. apply configSetCommand_code. fold projectRoot isGlobal.
      rewrite Hg. unfold setConfigValue. rewrite Hkey, Hparse. cbn [negb].
      unfold bind at 1. rewrite readGlobalConfig_eq, Hglobal. cbv zeta.
      unfold bind.
      destruct (writeGlobalConfig (spreadWith (globalValue g) key v) w)
        as [o w']. cbn in Hwrite. now subst o.
  - intros Hg. subst validKeys. rewrite Hg in Hkey. split; [|split].
    + intros Hun. apply fst_isProjectInitialized in Hun.
      subst set. apply configSetCommand_code. fold projectRoot isGlobal.
      rewrite Hg. unfold setConfigValue. rewrite Hkey, Hparse. cbn [negb].
      unfold bind. now rewrite isProjectInitialized_eq, Hun.
    + intros Hinit e Hread. apply fst_isProjectInitialized in Hinit.
      apply fst_readProjectConfig in Hread.
      subst set. apply configSetCommand_code. fold projectRoot isGlobal.
      rewrite Hg. unfold setConfigValue. rewrite Hkey, Hparse. cbn [negb].
      unfold bind at 1. rewrite isProjectInitialized_eq, Hinit. cbn [negb].
      unfold bind. now rewrite readProjectConfig_eq, Hread.
    + intros Hinit d e Hread Hwrite. apply fst_isProjectInitialized in Hinit.
      apply fst_readProjectConfig in Hread.
      subst set. apply configSetCommand_code. fold projectRoot isGlobal.
      rewrite Hg. unfold setConfigValue. rewrite Hkey, Hparse. cbn [negb].
      unfold bind at 1. rewrite isProjectInitialized_eq, Hinit. cbn [negb].
      unfold bind at 1. rewrite readProjectConfig_eq, Hread. cbv zeta.
      unfold bind.
      destruct (writeProjectConfig projectRoot
                  (spreadWith (projectValue (d ?? ProjectConfig.empty)) key v) w)
        as [o w']. cbn in Hwrite. now subst o.
Qed.

End ExitCodes.

Lemma exit_codes_witness :
  fst (startCommand Sample.render Sample.launcher SampleOptions.plain
         Sample.blank) = Returned 3%Z
  /\ fst (startCommand Sample.render Sample.launcher SampleOptions.toGuided
         Sample.configReadonly) = Returned 3%Z
  /\ fst (startCommand Sample.render Sample.launcher SampleOptions.plain
         Sample.brokenGlobal) = Returned 3%Z
  /\ fst (startCommand Sample.render Sample.launcher SampleOptions.regenerate
         Sample.documentReadonly) = Returned 1%Z
  /\ startAction Sample.render Sample.launcher (Some "turbo") None None
    Sample.blank = (Returned 2%Z, Sample.blank)
  /\ fst (modeCommand Sample.render (Some "turbo") Sample.blank) = Returned 3%Z
  /\ fst (modeCommand Sample.render (Some "turbo") Sample.initialized)
  = Returned 2%Z
  /\ fst (modeCommand Sample.render (Some "guided") Sample.configReadonly)
  = Returned 3%Z
  /\ fst (modeCommand Sample.render None Sample.brokenGlobal) = Returned 3%Z
  /\ initAction Sample.render false (fun _ => false) guided (Some "turbo")
    None (Some true) Sample.blank = (Returned 2%Z, Sample.blank)
  /\ fst (initCommand Sample.render false (fun _ => false) guided SampleRuns.initYes
         Sample.initialized) = Returned 1%Z
  /\ fst (initCommand Sample.render false (fun _ => false) guided SampleRuns.initForceYes
         Sample.configReadonly) = Returned 3%Z
  /\ fst (initCommand Sample.render false (fun _ => false) guided SampleRuns.initForceYes
         Sample.brokenGlobal) = Returned 3%Z
  /\ fst (initCommand Sample.render false (fun _ => false) guided SampleRuns.initForceYes
         Sample.documentReadonly) = Returned 1%Z
  /\ fst (configCommand SampleRuns.globalLevel Sample.brokenGlobal)
  = Returned 3%Z
  /\ fst (configCommand SampleRuns.projectLevel Sample.brokenProject)
  = Returned 3%Z
  /\ fst (configGetCommand sampleKeyIn "theme" SampleRuns.globalLevel
         Sample.blank) = Returned 2%Z
  /\ fst (configGetCommand sampleKeyIn "mode" SampleRuns.projectLevel
         Sample.brokenGlobal) = Returned 3%Z
  /\ fst (configSetCommand sampleTrim sampleParseArray sampleDisplay "template" "api"
         SampleRuns.projectLevel Sample.initialized) = Returned 2%Z
  /\ fst (configSetCommand sampleTrim sampleParseArray sampleDisplay "mode" "expert"
         SampleRuns.projectLevel Sample.blank) = Returned 3%Z
  /\ fst (configSetCommand sampleTrim sampleParseArray sampleDisplay "defaultMode" "expert"
         SampleRuns.globalLevel Sample.globalReadonly) = Returned 3%Z.
Proof.
  split.
  { pose proof (exit_codes Sample.render Sample.launcher false (fun _ => false) guided sampleTrim sampleParseArray sampleDisplay sampleKeyIn
                SampleOptions.plain SampleRuns.initYes SampleRuns.projectLevel
                None "mode" "expert" Sample.blank)
      as (_ & H & _).
    cbv zeta in H.
    apply H. vm_compute; reflexivity. }
  split.
  { pose proof (exit_codes Sample.render Sample.launcher false (fun _ => false) guided sampleTrim sampleParseArray sampleDisplay sampleKeyIn
                SampleOptions.toGuided SampleRuns.initYes SampleRuns.projectLevel
                None "mode" "expert" Sample.configReadonly)
      as (_ & _ & H & _).
    cbv zeta in H.
    apply (H ltac:(vm_compute; reflexivity) guided
             (Errno "EACCES" (getProjectConfigPath Sample.root)));
    vm_compute; reflexivity. }
  split.
  { pose proof (exit_codes Sample.render Sample.launcher false (fun _ => false) guided sampleTrim sampleParseArray sampleDisplay sampleKeyIn
                SampleOptions.plain SampleRuns.initYes SampleRuns.projectLevel
                None "mode" "expert" Sample.brokenGlobal)
      as (_ & _ & _ & H & _).
    cbv zeta in H.
    apply (H ltac:(vm_compute; reflexivity) I SyntaxError). vm_compute; reflexivity. }
  split.
  { pose proof (exit_codes Sample.render Sample.launcher false (fun _ => false) guided sampleTrim sampleParseArray sampleDisplay sampleKeyIn
                SampleOptions.regenerate SampleRuns.initYes SampleRuns.projectLevel
                None "mode" "expert" Sample.documentReadonly)
      as (_ & _ & _ & _ & H & _).
    cbv zeta in H.
    apply (H ltac:(vm_compute; reflexivity) I
             (MergedConfig.mk learning None None (Some "foo") None ["x"]
                              ck_pre [std_typescript])
             (Errno "EACCES" (getClaudeMdPath Sample.root)));
      [vm_compute; reflexivity|left; reflexivity|vm_compute; reflexivity]. }
  split.
  { pose proof (exit_codes Sample.render Sample.launcher false (fun _ => false) guided sampleTrim sampleParseArray sampleDisplay sampleKeyIn
                SampleOptions.plain SampleRuns.initYes SampleRuns.projectLevel
                None "mode" "expert" Sample.blank)
      as (_ & _ & _ & _ & _ & H & _).
    cbv zeta in H.
    apply (H "turbo" None None). reflexivity. }
  split.
  { pose proof (exit_codes Sample.render Sample.launcher false (fun _ => false) guided sampleTrim sampleParseArray sampleDisplay sampleKeyIn
                SampleOptions.plain SampleRuns.initYes SampleRuns.projectLevel
                (Some "turbo") "mode" "expert" Sample.blank)
      as (_ & _ & _ & _ & _ & _ & H & _).
    cbv zeta in H.
    apply H. vm_compute; reflexivity. }
  split.
  { pose proof (exit_codes Sample.render Sample.launcher false (fun _ => false) guided sampleTrim sampleParseArray sampleDisplay sampleKeyIn
                SampleOptions.plain SampleRuns.initYes SampleRuns.projectLevel
                (Some "turbo") "mode" "expert" Sample.initialized)
      as (_ & _ & _ & _ & _ & _ & _ & H & _).
    cbv zeta in H.
    apply (H ltac:(vm_compute; reflexivity) "turbo");
      [reflexivity|discriminate|reflexivity]. }
  split.
  { pose proof (exit_codes Sample.render Sample.launcher false (fun _ => false) guided sampleTrim sampleParseArray sampleDisplay sampleKeyIn
                SampleOptions.plain SampleRuns.initYes SampleRuns.projectLevel
                (Some "guided") "mode" "expert" Sample.configReadonly)
      as (_ & _ & _ & _ & _ & _ & _ & _ & H & _).
    cbv zeta in H.
    apply (H ltac:(vm_compute; reflexivity) "guided" guided
             (Errno "EACCES" (getProjectConfigPath Sample.root)));
      [reflexivity|discriminate|reflexivity|vm_compute; reflexivity]. }
  split.
  { pose proof (exit_codes Sample.render Sample.launcher false (fun _ => false) guided sampleTrim sampleParseArray sampleDisplay sampleKeyIn
                SampleOptions.plain SampleRuns.initYes SampleRuns.projectLevel
                None "mode" "expert" Sample.brokenGlobal)
      as (_ & _ & _ & _ & _ & _ & _ & _ & _ & H & _).
    cbv zeta in H.
    apply (H ltac:(vm_compute; reflexivity) (or_introl eq_refl) SyntaxError).
    vm_compute; reflexivity. }
  split.
  { pose proof (exit_codes Sample.render Sample.launcher false (fun _ => false) guided sampleTrim sampleParseArray sampleDisplay sampleKeyIn
                SampleOptions.plain SampleRuns.initYes SampleRuns.projectLevel
                None "mode" "expert" Sample.blank)
      as (_ & _ & _ & _ & _ & _ & _ & _ & _ & _ & H & _).
    cbv zeta in H.
    apply (H "turbo" None (Some true)). reflexivity. }
  split.
  { pose proof (exit_codes Sample.render Sample.launcher false (fun _ => false) guided sampleTrim sampleParseArray sampleDisplay sampleKeyIn
                SampleOptions.plain SampleRuns.initYes SampleRuns.projectLevel
                None "mode" "expert" Sample.initialized)
      as (_ & _ & _ & _ & _ & _ & _ & _ & _ & _ & _ & H & _).
    cbv zeta in H.
    apply H; vm_compute; reflexivity. }
  split.
  { pose proof (exit_codes Sample.render Sample.launcher false (fun _ => false) guided sampleTrim sampleParseArray sampleDisplay sampleKeyIn
                SampleOptions.plain SampleRuns.initForceYes SampleRuns.projectLevel
                None "mode" "expert" Sample.configReadonly)
      as (_ & _ & _ & _ & _ & _ & _ & _ & _ & _ & _ & _ & H & _).
    cbv zeta in H.
    destruct (H guided eq_refl) as (Hcreate & _).
    apply (Hcreate (Errno "EACCES" (getProjectConfigPath Sample.root))).
    vm_compute; reflexivity. }
  split.
  { pose proof (exit_codes Sample.render Sample.launcher false (fun _ => false) guided sampleTrim sampleParseArray sampleDisplay sampleKeyIn
                SampleOptions.plain SampleRuns.initForceYes SampleRuns.projectLevel
                None "mode" "expert" Sample.brokenGlobal)
      as (_ & _ & _ & _ & _ & _ & _ & _ & _ & _ & _ & _ & H & _).
    cbv zeta in H.
    destruct (H guided eq_refl) as (_ & Hload & _).
    apply (Hload (ProjectConfig.mk (Some guided) None None (Some [])
                                (Some ck_pre) (Some [std_typescript]))
                 SyntaxError); vm_compute; reflexivity. }
  split.
  { pose proof (exit_codes Sample.render Sample.launcher false (fun _ => false) guided sampleTrim sampleParseArray sampleDisplay sampleKeyIn
                SampleOptions.plain SampleRuns.initForceYes SampleRuns.projectLevel
                None "mode" "expert" Sample.documentReadonly)
      as (_ & _ & _ & _ & _ & _ & _ & _ & _ & _ & _ & _ & H & _).
    cbv zeta in H.
    destruct (H guided eq_refl) as (_ & _ & Hbuild).
    apply (Hbuild (ProjectConfig.mk (Some guided) None None (Some [])
                                (Some ck_pre) (Some [std_typescript]))
             (MergedConfig.mk guided None None None None []
                              ck_pre [std_typescript])
             (Errno "EACCES" (getClaudeMdPath Sample.root))); vm_compute; reflexivity. }
  split.
  { pose proof (exit_codes Sample.render Sample.launcher false (fun _ => false) guided sampleTrim sampleParseArray sampleDisplay sampleKeyIn
                SampleOptions.plain SampleRuns.initYes SampleRuns.globalLevel
                None "mode" "expert" Sample.brokenGlobal)
      as (_ & _ & _ & _ & _ & _ & _ & _ & _ & _ & _ & _ & _ & H & _).
    cbv zeta in H.
    apply (H (or_introl eq_refl) SyntaxError). vm_compute; reflexivity. }
  split.
  { pose proof (exit_codes Sample.render Sample.launcher false (fun _ => false) guided sampleTrim sampleParseArray sampleDisplay sampleKeyIn
                SampleOptions.plain SampleRuns.initYes SampleRuns.projectLevel
                None "mode" "expert" Sample.brokenProject)
      as (_ & _ & _ & _ & _ & _ & _ & _ & _ & _ & _ & _ & _ & _ & H & _).
    cbv zeta in H.
    apply (H eq_refl ltac:(vm_compute; reflexivity) SyntaxError). vm_compute; reflexivity. }
  split.
  { pose proof (exit_codes Sample.render Sample.launcher false (fun _ => false) guided sampleTrim sampleParseArray sampleDisplay sampleKeyIn
                SampleOptions.plain SampleRuns.initYes SampleRuns.globalLevel
                None "theme" "expert" Sample.blank)
      as (_ & _ & _ & _ & _ & _ & _ & _ & _ & _ & _ & _ & _ & _ & _ & H & _).
    cbv zeta in H.
    destruct (H eq_refl) as [_ Hkey].
    apply (Hkey (GlobalConfig.mk guided None None (Some ck_pre)
                                (Some [std_typescript]))); vm_compute; reflexivity. }
  split.
  { pose proof (exit_codes Sample.render Sample.launcher false (fun _ => false) guided sampleTrim sampleParseArray sampleDisplay sampleKeyIn
                SampleOptions.plain SampleRuns.initYes SampleRuns.projectLevel
                None "mode" "expert" Sample.brokenGlobal)
      as (_ & _ & _ & _ & _ & _ & _ & _ & _ & _ & _ & _ & _ & _ & _ & _ & H & _).
    cbv zeta in H.
    destruct (H eq_refl) as [Hload _].
    apply (Hload SyntaxError). vm_compute; reflexivity. }
  split.
  { pose proof (exit_codes Sample.render Sample.launcher false (fun _ => false) guided sampleTrim sampleParseArray sampleDisplay sampleKeyIn
                SampleOptions.plain SampleRuns.initYes SampleRuns.projectLevel
                None "template" "api" Sample.initialized)
      as (_ & _ & _ & _ & _ & _ & _ & _ & _ & _ & _ & _ & _ & _ & _ & _ & _ & H & _).
    cbv zeta in H.
    apply H. left. reflexivity. }
  split.
  { pose proof (exit_codes Sample.render Sample.launcher false (fun _ => false) guided sampleTrim sampleParseArray sampleDisplay sampleKeyIn
                SampleOptions.plain SampleRuns.initYes SampleRuns.projectLevel
                None "mode" "expert" Sample.blank)
      as (_ & _ & _ & _ & _ & _ & _ & _ & _ & _ & _ & _ & _ & _ & _ & _ & _ & _ & H).
    cbv zeta in H.
    destruct (H (VStr "expert") eq_refl eq_refl) as [_ Hproject].
    destruct (Hproject eq_refl) as (Hun & _). apply Hun. vm_compute; reflexivity. }
  { pose proof (exit_codes Sample.render Sample.launcher false (fun _ => false) guided sampleTrim sampleParseArray sampleDisplay sampleKeyIn
                SampleOptions.plain SampleRuns.initYes SampleRuns.globalLevel
                None "defaultMode" "expert" Sample.globalReadonly)
      as (_ & _ & _ & _ & _ & _ & _ & _ & _ & _ & _ & _ & _ & _ & _ & _ & _ & _ & H).
    cbv zeta in H.
    destruct (H (VStr "expert") eq_refl eq_refl) as [Hglobal _].
    destruct (Hglobal eq_refl) as (_ & Hwrite).
    apply (Hwrite (GlobalConfig.mk guided None None (Some ck_pre)
                                  (Some [std_typescript]))
                  (Errno "EACCES" (getGlobalConfigPath Sample.globalReadonly)));
      vm_compute; reflexivity. }
Defined.

(** C8 as stated fails on startCommand's own regeneration: with
    --regenerate on an initialised project whose configuration loads and
    whose derived document may not be written, the regeneration fails
    and the process exits with 1, not with 3. *)
Lemma startCommand_regeneration_failure_exits_1 :
  let w := Sample.documentReadonly in
  let config := MergedConfig.mk learning None None (Some "foo") None ["x"]
                                ck_pre [std_typescript] in
  fst (isProjectInitialized (cwd w) w) = Returned true
  /\ fst (loadConfig (cwd w) w) = Returned (Success config)
  /\ fst (buildClaudeMd Sample.render config (cwd w) w)
     = Returned (Failure (Errno "EACCES" (getClaudeMdPath Sample.root)))
  /\ fst (startCommand Sample.render Sample.launcher SampleOptions.regenerate w)
     = Returned ExitCode.GENERAL_ERROR
  /\ fst (startCommand Sample.render Sample.launcher SampleOptions.regenerate w)
     <> Returned ExitCode.CONFIG_ERROR.
Proof.
  cbv zeta. repeat split; try (vm_compute; reflexivity).
  vm_compute. discriminate.
Qed.
